(** * umockdev preload library: a shallow embedding of libumockdev-preload.c

    The preload library interposes on libc entry points (socket, bind,
    recvmsg, ioctl, open, stat, read, write, ...) and redirects them to a
    file-backed testbed.  This development embeds the functions of
    [src/libumockdev-preload.c] as Rocq functions and proves properties of
    them.

    Conventions of the embedding:
    - C integers are [Z]; pointers to heap objects, streams and tree nodes
      are [Z] addresses with [NULL = 0];
    - a C string is the Rocq [string] of its characters before the
      terminating NUL; a path pointer is a [cptr], which tells a string of
      the caller from the static buffer of [trap_path];
    - the global and static variables, the heap objects and the streams
      form one state, [globals], passed through every function;
    - [abort()], a failed [assert], [exit(1)], a memory fault and the
      exhaustion of the stack end the computation: functions that can do
      so return an [outcome];
    - the kernel and the C library are oracles ([libc]): a system call
      either succeeds with a value or fails with an errno code, which it
      stores in errno; snprintf and strncpy do not touch errno, what
      sscanf and a failed fopen store in errno is given by the oracle, and
      atoi and the calls on streams are taken to leave errno as it is;
    - arithmetic on a [long] wraps around at 64 bits;
    - a call the library makes to a function it defines itself ([access],
      [readlink], [fopen]) is a call of its own wrapper. *)

From Stdlib Require Import ZArith String Ascii Bool Lia.
From stdpp Require Import base option list gmap strings.

Local Open Scope Z_scope.

(** ** Outcomes of a call that may terminate the process *)

Inductive stop : Type :=
| Aborted            (* abort(), or an assert that does not hold *)
| Exited (code : Z)  (* exit(code) *)
| Faulted            (* a memory fault: NULL or dangling pointer, overrun *)
| StackOverflow.     (* recursion deeper than the stack *)

Inductive outcome (A : Type) : Type :=
| Ok (a : A)
| Stop (s : stop).

Arguments Ok {A} a.
Arguments Stop {A} s.

Definition rbind {A B} (r : outcome A) (k : A → outcome B) : outcome B :=
  match r with
  | Ok a => k a
  | Stop s => Stop s
  end.

Notation "'let*' x ':=' r 'in' k" := (rbind r (fun x => k))
  (at level 10, x pattern, r at level 100, k at level 200, only parsing).

Definition assert (b : bool) : outcome unit :=
  if b then Ok tt else Stop Aborted.

Definition NULL : Z := 0.

(** [for (i = start; i < start + n; ++i) if (P i) return i;] *)
Fixpoint scan (P : nat → bool) (i n : nat) : option nat :=
  match n with
  | O => None
  | S n' => if P i then Some i else scan P (S i) n'
  end.

(** ** The fd -> pointer map *)

Module FdMap.

Definition FD_MAP_MAX : nat := 50.

(** [typedef struct { int set[FD_MAP_MAX]; int fd[FD_MAP_MAX];
    const void *data[FD_MAP_MAX]; } fd_map;] *)
Record fd_map : Type := mk_fd_map {
  map_set : list Z;
  map_fd : list Z;
  map_data : list Z
}.

(** The three arrays have [FD_MAP_MAX] elements each. *)
Definition wf (m : fd_map) : Prop :=
  length (map_set m) = FD_MAP_MAX ∧
  length (map_fd m) = FD_MAP_MAX ∧
  length (map_data m) = FD_MAP_MAX.

(** [a[i]] *)
Definition rd (a : list Z) (i : nat) : Z := default 0 (a !! i).

(** A zero-initialised (static) map. *)
Definition empty : fd_map :=
  {| map_set := replicate FD_MAP_MAX 0;
     map_fd := replicate FD_MAP_MAX 0;
     map_data := replicate FD_MAP_MAX NULL |}.

Definition slot_free (m : fd_map) (i : nat) : bool :=
  rd (map_set m) i =? 0.

Definition slot_has (m : fd_map) (fd : Z) (i : nat) : bool :=
  negb (rd (map_set m) i =? 0) && (rd (map_fd m) i =? fd).

Definition fd_map_add (m : fd_map) (fd : Z) (data : Z) : outcome fd_map :=
  match scan (slot_free m) 0 FD_MAP_MAX with
  | Some i =>
      Ok {| map_set := <[i := 1]> (map_set m);
            map_fd := <[i := fd]> (map_fd m);
            map_data := <[i := data]> (map_data m) |}
  | None => Stop Aborted   (* "fd_map_add(): overflow"; abort() *)
  end.

Definition fd_map_remove (m : fd_map) (fd : Z) : outcome fd_map :=
  match scan (slot_has m fd) 0 FD_MAP_MAX with
  | Some i =>
      Ok {| map_set := <[i := 0]> (map_set m);
            map_fd := map_fd m;
            map_data := map_data m |}
  | None => Stop Aborted   (* "did not find fd"; abort() *)
  end.

(** Returns the [int] result and the value stored through [data_out]
    (which a caller passing [data_out = NULL] ignores). *)
Definition fd_map_get (m : fd_map) (fd : Z) : Z * Z :=
  match scan (slot_has m fd) 0 FD_MAP_MAX with
  | Some i => (1, rd (map_data m) i)
  | None => (0, NULL)
  end.

(** Number of slots in use. *)
Definition entries (m : fd_map) : nat :=
  length (filter (λ i, slot_free m i = false) (seq 0 FD_MAP_MAX)).

End FdMap.

(** ** Models of the C library routines and system constants the source uses *)

Module CLib.

(** <limits.h>, <errno.h>, <sys/socket.h>, <sys/stat.h> on Linux. *)
Definition PATH_MAX : Z := 4096.
Definition ENAMETOOLONG : Z := 36.
Definition AF_UNIX : Z := 1.
Definition AF_NETLINK : Z := 16.
Definition NETLINK_KOBJECT_UEVENT : Z := 15.
Definition S_IFMT : Z := 61440.   (* 0170000 *)
Definition S_IFLNK : Z := 40960.  (* 0120000 *)
Definition S_IFREG : Z := 32768.  (* 0100000 *)
Definition S_IFBLK : Z := 24576.  (* 0060000 *)
Definition S_IFDIR : Z := 16384.  (* 0040000 *)
Definition S_IFCHR : Z := 8192.   (* 0020000 *)
Definition S_ISVTX : Z := 512.    (* 0001000 *)

Definition S_ISLNK (m : Z) : bool := Z.land m S_IFMT =? S_IFLNK.
Definition S_ISDIR (m : Z) : bool := Z.land m S_IFMT =? S_IFDIR.
Definition S_ISCHR (m : Z) : bool := Z.land m S_IFMT =? S_IFCHR.
Definition S_ISBLK (m : Z) : bool := Z.land m S_IFMT =? S_IFBLK.

(** Machine integers: [size_t], [dev_t] and [unsigned long] have 64 bits,
    [int] has 32. *)
Definition wrap64 (z : Z) : Z := z mod 2 ^ 64.
Definition wrap32 (z : Z) : Z := z mod 2 ^ 32.
Definition to_int (z : Z) : Z := (z + 2 ^ 31) mod 2 ^ 32 - 2 ^ 31.
Definition LONG_MAX : Z := 2 ^ 63 - 1.
Definition LONG_MIN : Z := - 2 ^ 63.
(** The [long] that the value of an expression on [long]s comes out as. *)
Definition to_long (z : Z) : Z := (z + 2 ^ 63) mod 2 ^ 64 - 2 ^ 63.
Definition clamp_long (z : Z) : Z := Z.max LONG_MIN (Z.min LONG_MAX z).

Definition strlen (s : string) : Z := Z.of_nat (String.length s).

(** [strncmp(s, pre, strlen(pre)) == 0] *)
Definition starts_with (s pre : string) : bool := String.prefix pre s.

(** [strcmp(a, b) == 0] *)
Definition streq (a b : string) : bool := String.eqb a b.

(** The first [n] characters of a string (what a bounded copy keeps). *)
Fixpoint str_take (n : nat) (s : string) : string :=
  match n, s with
  | S n', String c r => String c (str_take n' r)
  | _, _ => EmptyString
  end.

Fixpoint str_drop (n : nat) (s : string) : string :=
  match n, s with
  | S n', String _ r => str_drop n' r
  | _, _ => s
  end.

Fixpoint str_map (f : ascii → ascii) (s : string) : string :=
  match s with
  | EmptyString => EmptyString
  | String c r => String (f c) (str_map f r)
  end.

(** Writing [new] (without a terminator) over the start of a buffer that
    holds [old]: what [readlink] does to its output buffer. *)
Definition overlay (new old : string) : string :=
  new +:+ str_drop (String.length new) old.

Definition byte_of_ascii (c : ascii) : Z := Z.of_N (N_of_ascii c).

Definition bytes_of_string (s : string) : list Z :=
  map byte_of_ascii (list_ascii_of_string s).

(** [printf("%lu", n)]: the decimal digits of [n], most significant first. *)
Fixpoint dec_digits (fuel : nat) (n : Z) (acc : list Z) : list Z :=
  match fuel with
  | O => acc
  | S f =>
      let acc' := (48 + n mod 10) :: acc in
      if n / 10 =? 0 then acc' else dec_digits f (n / 10) acc'
  end.

Definition fmt_lu (n : Z) : list Z :=
  dec_digits (S (Z.to_nat (Z.log2 n))) n [].

(** The bytes of a buffer up to (not including) the first NUL. *)
Fixpoint upto_nul (l : list Z) : list Z :=
  match l with
  | [] => []
  | c :: r => if c =? 0 then [] else c :: upto_nul r
  end.

Definition isspace (c : Z) : bool := (c =? 32) || ((9 <=? c) && (c <=? 13)).

Fixpoint skip_space (l : list Z) : list Z :=
  match l with
  | c :: r => if isspace c then skip_space r else l
  | [] => []
  end.

(** Value of a digit character in the given base, if it is one. *)
Definition digit_val (base c : Z) : option Z :=
  let v :=
    if (48 <=? c) && (c <=? 57) then c - 48
    else if (97 <=? c) && (c <=? 102) then c - 87
    else if (65 <=? c) && (c <=? 70) then c - 55
    else 99 in
  if v <? base then Some v else None.

(** Reads the longest run of digits; [None] when there is none. *)
Fixpoint read_digits (base : Z) (l : list Z) (acc : option Z)
  : option Z * list Z :=
  match l with
  | c :: r =>
      match digit_val base c with
      | Some v => read_digits base r (Some (default 0 acc * base + v))
      | None => (acc, l)
      end
  | [] => (acc, l)
  end.

Definition read_sign (l : list Z) : Z * list Z :=
  match l with
  | 45 :: r => (-1, r)
  | 43 :: r => (1, r)
  | _ => (1, l)
  end.

(** [atoi(s)], that is [(int) strtol(s, NULL, 10)]. *)
Definition atoi (s : string) : Z :=
  let '(sg, l) := read_sign (skip_space (bytes_of_string s)) in
  to_int (clamp_long (sg * default 0 (fst (read_digits 10 l None)))).

(** One [%i] conversion of [scanf]: optional white space and sign, then a
    number in base 16 (after 0x), 8 (after 0) or 10, stored into an [int]. *)
Definition scan_i (l : list Z) : option (Z * list Z) :=
  let '(sg, l) := read_sign (skip_space l) in
  let num base l :=
    match read_digits base l None with
    | (Some v, rest) => Some (to_int (clamp_long (sg * v)), rest)
    | (None, _) => None
    end in
  match l with
  | 48 :: x :: r =>
      if ((x =? 120) || (x =? 88))
         && bool_decide (is_Some (fst (read_digits 16 r None)))
      then num 16 r else num 8 l
  | 48 :: _ => num 8 l
  | _ => num 10 l
  end.

(** [sscanf(link, "%i:%i", &major, &minor)]: the number of conversions
    made and the two values (meaningful only for the conversions made).
    This is the decoder of the text; what the call stores in errno is
    [sscanf_errno] of the oracle. *)
Definition sscanf_i_colon_i (link : string) : Z * Z * Z :=
  match scan_i (bytes_of_string link) with
  | None => (0, 0, 0)
  | Some (a, rest) =>
      match rest with
      | 58 :: rest' =>
          match scan_i rest' with
          | Some (b, _) => (2, a, b)
          | None => (1, a, 0)
          end
      | _ => (1, a, 0)
      end
  end.

(** [makedev(major, minor)] of <sys/sysmacros.h>, on the [unsigned int]
    values of its arguments. *)
Definition makedev (major minor : Z) : Z :=
  let ma := wrap32 major in
  let mi := wrap32 minor in
  Z.lor (Z.lor (Z.shiftl (Z.land ma 4095) 8)
               (Z.shiftl (Z.land ma 4294963200) 32))
        (Z.lor (Z.land mi 255)
               (Z.shiftl (Z.land mi 4294967040) 12)).

End CLib.

(** ** The preload library *)

Module Preload.

Import FdMap CLib.
Local Open Scope string_scope.
Local Open Scope list_scope.
Local Open Scope Z_scope.

(** *** Data *)

(** The outcome of a system call: success with a value, or failure with
    the errno code the call stores. *)
Inductive sysret (A : Type) : Type :=
| SysOk (a : A)
| SysErr (e : Z).

Arguments SysOk {A} a.
Arguments SysErr {A} e.

(** The fields of [struct stat] the library looks at. *)
Record stat : Type := mk_stat { st_mode : Z; st_rdev : Z }.

Record timespec : Type := mk_timespec { tv_sec : Z; tv_nsec : Z }.

Record sockaddr_nl : Type := mk_sockaddr_nl {
  nl_family : Z;
  nl_pid : Z;
  nl_groups : Z
}.

Record ucred : Type := mk_ucred { pid : Z; uid : Z; gid : Z }.

(** A control message, with its data seen as a [struct ucred]. *)
Record cmsghdr : Type := mk_cmsghdr {
  cmsg_len : Z;
  cmsg_level : Z;
  cmsg_type : Z;
  cmsg_data : ucred
}.

(** [struct msghdr]: [msg_name] and [msg_control] are the objects the two
    pointers refer to ([None] for a NULL pointer); the name is seen as a
    [struct sockaddr_nl], as the library casts it. *)
Record msghdr : Type := mk_msghdr {
  msg_name : option sockaddr_nl;
  msg_namelen : Z;
  msg_iov : list Z;
  msg_control : option cmsghdr;
  msg_controllen : Z;
  msg_flags : Z
}.

(** [struct ioctl_fd_info]; both fields are [ioctl_tree *]. *)
Record ioctl_fd_info : Type := mk_ioctl_fd_info { tree : Z; last : Z }.

(** [struct script_record_info] *)
Record script_record_info : Type := mk_script_record_info {
  log : Z;          (* output file (a FILE* ) *)
  time : timespec;  (* time of last operation *)
  op : Z            (* last operation: 0: none, 'r': read, 'w': write *)
}.

(** Calls that leave the library, in the order they are made. *)
Inductive event : Type :=
| EvIoctl (d request arg : Z)        (* the real ioctl *)
| EvFopen (path mode : string)
| EvTreeRead (f : Z)                 (* ioctl_tree_read *)
| EvTreeInsert (tree node : Z)       (* ioctl_tree_insert *)
| EvRewind (f : Z)
| EvFtruncate (f : Z)
| EvTreeWrite (f tree : Z)           (* ioctl_tree_write *)
| EvFflush (f : Z).

(** The kernel, the C library and the ioctl tree library (ioctl_tree.h),
    as the preload library sees them.  An ioctl argument [arg] stands for
    the pointer together with the bytes behind it. *)
Record libc : Type := mk_libc {
  getenv : string → option string;
  k_access : string → sysret unit;          (* access(path, F_OK) *)
  k_fstat : Z → sysret stat;
  k_readlink : string → sysret string;      (* the target of the link *)
  k_socket : Z → Z → Z → sysret Z;
  k_recvmsg : Z → msghdr → Z → sysret (Z * msghdr);
  k_ioctl : Z → Z → Z → sysret Z;
  k_fopen : string → string → Z;            (* a FILE*, or NULL *)
  fopen_errno : string → string → Z;        (* stored when fopen fails *)
  k_ftruncate : Z → sysret unit;
  k_clock_gettime : nat → Z * timespec;     (* the n-th call's result *)
  dest_indeterminate : string;              (* stack bytes under dest[10] *)
  (* the errno that sscanf(text, "%i:%i", ...) stores, if it stores one *)
  sscanf_errno : string → option Z;
  ioctl_tree_read : Z → Z;
  (* tree, last, request, arg and the initial *ret; gives the returned
     node and the final *ret *)
  ioctl_tree_execute : Z → Z → Z → Z → Z → Z * Z;
  ioctl_tree_new_from_bin : Z → Z → Z → Z
}.

(** The global and static variables of the library, the heap objects it
    allocates and the streams it writes. *)
Record globals : Type := mk_globals {
  errno : Z;
    (* the caller-visible errno *)
  wrapped_sockets : fd_map;
    (* static fd_map wrapped_sockets *)
  ioctl_record_fd : Z;
    (* int ioctl_record_fd = -1 *)
  ioctl_record_log : Z;
    (* FILE *ioctl_record_log *)
  ioctl_record : Z;
    (* ioctl_tree *ioctl_record *)
  record_rdev : Z;
    (* static dev_t record_rdev of ioctl_record_open *)
  ioctl_wrapped_fds : fd_map;
    (* static fd_map ioctl_wrapped_fds *)
  fdinfo_heap : gmap Z ioctl_fd_info;
    (* the malloc-ed struct ioctl_fd_info *)
  script_recorded_fds : fd_map;
    (* static fd_map script_recorded_fds *)
  srinfo_heap : gmap Z script_record_info;
    (* the malloc-ed struct script_record_info *)
  streams : gmap Z (list Z);
    (* bytes written so far to each FILE* *)
  clock_ticks : nat;
    (* number of clock_gettime calls made *)
  trap_buf : string;
    (* static char buf[PATH_MAX * 2] of trap_path *)
  get_rdev_link : string;
    (* static char link[PATH_MAX] of get_rdev *)
  trace : list event
    (* calls made to the real ioctl, the record file, the tree library *)
}.

Definition set_errno (v : Z) (s : globals) : globals :=
  mk_globals v (wrapped_sockets s) (ioctl_record_fd s) (ioctl_record_log s)
    (ioctl_record s) (record_rdev s) (ioctl_wrapped_fds s)
    (fdinfo_heap s) (script_recorded_fds s) (srinfo_heap s)
    (streams s) (clock_ticks s) (trap_buf s) (get_rdev_link s)
    (trace s).

Definition set_wrapped_sockets (v : fd_map) (s : globals) : globals :=
  mk_globals (errno s) v (ioctl_record_fd s) (ioctl_record_log s)
    (ioctl_record s) (record_rdev s) (ioctl_wrapped_fds s)
    (fdinfo_heap s) (script_recorded_fds s) (srinfo_heap s)
    (streams s) (clock_ticks s) (trap_buf s) (get_rdev_link s)
    (trace s).

Definition set_ioctl_record_fd (v : Z) (s : globals) : globals :=
  mk_globals (errno s) (wrapped_sockets s) v (ioctl_record_log s)
    (ioctl_record s) (record_rdev s) (ioctl_wrapped_fds s)
    (fdinfo_heap s) (script_recorded_fds s) (srinfo_heap s)
    (streams s) (clock_ticks s) (trap_buf s) (get_rdev_link s)
    (trace s).

Definition set_ioctl_record_log (v : Z) (s : globals) : globals :=
  mk_globals (errno s) (wrapped_sockets s) (ioctl_record_fd s) v
    (ioctl_record s) (record_rdev s) (ioctl_wrapped_fds s)
    (fdinfo_heap s) (script_recorded_fds s) (srinfo_heap s)
    (streams s) (clock_ticks s) (trap_buf s) (get_rdev_link s)
    (trace s).

Definition set_ioctl_record (v : Z) (s : globals) : globals :=
  mk_globals (errno s) (wrapped_sockets s) (ioctl_record_fd s)
    (ioctl_record_log s) v (record_rdev s) (ioctl_wrapped_fds s)
    (fdinfo_heap s) (script_recorded_fds s) (srinfo_heap s)
    (streams s) (clock_ticks s) (trap_buf s) (get_rdev_link s)
    (trace s).

Definition set_record_rdev (v : Z) (s : globals) : globals :=
  mk_globals (errno s) (wrapped_sockets s) (ioctl_record_fd s)
    (ioctl_record_log s) (ioctl_record s) v (ioctl_wrapped_fds s)
    (fdinfo_heap s) (script_recorded_fds s) (srinfo_heap s)
    (streams s) (clock_ticks s) (trap_buf s) (get_rdev_link s)
    (trace s).

Definition set_ioctl_wrapped_fds (v : fd_map) (s : globals) : globals :=
  mk_globals (errno s) (wrapped_sockets s) (ioctl_record_fd s)
    (ioctl_record_log s) (ioctl_record s) (record_rdev s) v
    (fdinfo_heap s) (script_recorded_fds s) (srinfo_heap s)
    (streams s) (clock_ticks s) (trap_buf s) (get_rdev_link s)
    (trace s).

Definition set_fdinfo_heap (v : gmap Z ioctl_fd_info) (s : globals) : globals :=
  mk_globals (errno s) (wrapped_sockets s) (ioctl_record_fd s)
    (ioctl_record_log s) (ioctl_record s) (record_rdev s)
    (ioctl_wrapped_fds s) v (script_recorded_fds s) (srinfo_heap s)
    (streams s) (clock_ticks s) (trap_buf s) (get_rdev_link s)
    (trace s).

Definition set_script_recorded_fds (v : fd_map) (s : globals) : globals :=
  mk_globals (errno s) (wrapped_sockets s) (ioctl_record_fd s)
    (ioctl_record_log s) (ioctl_record s) (record_rdev s)
    (ioctl_wrapped_fds s) (fdinfo_heap s) v (srinfo_heap s)
    (streams s) (clock_ticks s) (trap_buf s) (get_rdev_link s)
    (trace s).

Definition set_srinfo_heap (v : gmap Z script_record_info) (s : globals)
  : globals :=
  mk_globals (errno s) (wrapped_sockets s) (ioctl_record_fd s)
    (ioctl_record_log s) (ioctl_record s) (record_rdev s)
    (ioctl_wrapped_fds s) (fdinfo_heap s) (script_recorded_fds s) v
    (streams s) (clock_ticks s) (trap_buf s) (get_rdev_link s)
    (trace s).

Definition set_streams (v : gmap Z (list Z)) (s : globals) : globals :=
  mk_globals (errno s) (wrapped_sockets s) (ioctl_record_fd s)
    (ioctl_record_log s) (ioctl_record s) (record_rdev s)
    (ioctl_wrapped_fds s) (fdinfo_heap s) (script_recorded_fds s)
    (srinfo_heap s) v (clock_ticks s) (trap_buf s) (get_rdev_link s)
    (trace s).

Definition set_clock_ticks (v : nat) (s : globals) : globals :=
  mk_globals (errno s) (wrapped_sockets s) (ioctl_record_fd s)
    (ioctl_record_log s) (ioctl_record s) (record_rdev s)
    (ioctl_wrapped_fds s) (fdinfo_heap s) (script_recorded_fds s)
    (srinfo_heap s) (streams s) v (trap_buf s) (get_rdev_link s)
    (trace s).

Definition set_trap_buf (v : string) (s : globals) : globals :=
  mk_globals (errno s) (wrapped_sockets s) (ioctl_record_fd s)
    (ioctl_record_log s) (ioctl_record s) (record_rdev s)
    (ioctl_wrapped_fds s) (fdinfo_heap s) (script_recorded_fds s)
    (srinfo_heap s) (streams s) (clock_ticks s) v (get_rdev_link s)
    (trace s).

Definition set_get_rdev_link (v : string) (s : globals) : globals :=
  mk_globals (errno s) (wrapped_sockets s) (ioctl_record_fd s)
    (ioctl_record_log s) (ioctl_record s) (record_rdev s)
    (ioctl_wrapped_fds s) (fdinfo_heap s) (script_recorded_fds s)
    (srinfo_heap s) (streams s) (clock_ticks s) (trap_buf s) v
    (trace s).

Definition set_trace (v : list event) (s : globals) : globals :=
  mk_globals (errno s) (wrapped_sockets s) (ioctl_record_fd s)
    (ioctl_record_log s) (ioctl_record s) (record_rdev s)
    (ioctl_wrapped_fds s) (fdinfo_heap s) (script_recorded_fds s)
    (srinfo_heap s) (streams s) (clock_ticks s) (trap_buf s)
    (get_rdev_link s) v.

Definition add_event (e : event) (s : globals) : globals :=
  set_trace (trace s ++ [e]) s.

(** The state of the library when it is loaded. *)
Definition initial : globals :=
  {| errno := 0;
     wrapped_sockets := FdMap.empty;
     ioctl_record_fd := -1;
     ioctl_record_log := NULL;
     ioctl_record := NULL;
     record_rdev := wrap64 (-1);
     ioctl_wrapped_fds := FdMap.empty;
     fdinfo_heap := ∅;
     script_recorded_fds := FdMap.empty;
     srinfo_heap := ∅;
     streams := ∅;
     clock_ticks := O;
     trap_buf := "";
     get_rdev_link := "";
     trace := [] |}.

(** *** Utility functions *)

(** return rdev of a file descriptor *)
Definition dev_of_fd (L : libc) (fd : Z) (s : globals) : Z * globals :=
  let orig_errno := errno s in
  match k_fstat L fd with
  | SysErr e =>
      (* ret = -1 and fstat has stored e in errno *)
      let s := set_errno e s in
      let s := set_errno orig_errno s in
      (0, s)
  | SysOk st =>
      let s := set_errno orig_errno s in
      if S_ISCHR (st_mode st) || S_ISBLK (st_mode st)
      then (st_rdev st, s)
      else (0, s)
  end.

(** *** Wrappers for accessing netlink socket *)

Definition socket (L : libc) (domain type protocol : Z) (s : globals)
  : outcome (Z * globals) :=
  let real d t p s :=
    match k_socket L d t p with
    | SysOk fd => (fd, s)
    | SysErr e => (-1, set_errno e s)
    end in
  if (domain =? AF_NETLINK) && (protocol =? NETLINK_KOBJECT_UEVENT) then
    let '(fd, s) := real AF_UNIX type 0 s in
    let* m := fd_map_add (wrapped_sockets s) fd NULL in
    Ok (fd, set_wrapped_sockets m s)
  else Ok (real domain type protocol s).

Definition sizeof_cmsghdr : Z := 16.
Definition sizeof_pointer : Z := 8.

(** [CMSG_FIRSTHDR] of <sys/socket.h> *)
Definition CMSG_FIRSTHDR (msg : msghdr) : option cmsghdr :=
  if sizeof_cmsghdr <=? msg_controllen msg then msg_control msg else None.

Definition recvmsg (L : libc) (sockfd : Z) (msg : msghdr) (flags : Z)
    (s : globals) : outcome (Z * msghdr * globals) :=
  let '(ret, msg, s) :=
    match k_recvmsg L sockfd msg flags with
    | SysOk (n, received) => (n, received, s)
    | SysErr e => (-1, msg, set_errno e s)
    end in
  if negb (fst (fd_map_get (wrapped_sockets s) sockfd) =? 0) && (0 <? ret) then
    (* fake sender to be netlink *)
    match msg_name msg with
    | None => Stop Faulted
    | Some _ =>
        let sender :=
          {| nl_family := AF_NETLINK; nl_pid := 0; nl_groups := 2 |} in
        (* fake sender credentials to be uid 0 *)
        let control :=
          match CMSG_FIRSTHDR msg with
          | Some cmsg =>
              let cred := cmsg_data cmsg in
              Some {| cmsg_len := cmsg_len cmsg;
                      cmsg_level := cmsg_level cmsg;
                      cmsg_type := cmsg_type cmsg;
                      cmsg_data := {| pid := pid cred; uid := 0;
                                      gid := gid cred |} |}
          | None => msg_control msg
          end in
        Ok (ret,
            {| msg_name := Some sender;
               msg_namelen := sizeof_pointer;   (* sizeof(sender) *)
               msg_iov := msg_iov msg;
               msg_control := control;
               msg_controllen := msg_controllen msg;
               msg_flags := msg_flags msg |},
            s)
    end
  else Ok (ret, msg, s).

(** *** Wrappers for accessing files: the path trapper

    (Defined further down in the source, after the recorders that use
    it.)

    The library defines [access], [readlink] and [fopen] itself (through
    WRAP_2ARGS and WRAP_3ARGS), so the calls it makes to them enter its own
    wrappers, which trap the path again before they call the real
    function.  [trap_path] is therefore recursive through [path_exists];
    [depth] is the number of nested [trap_path] calls the stack has room
    for. *)

(** A [const char *]. *)
Inductive cptr : Type :=
| PNull
| PStr (str : string)   (* a string of the caller *)
| PBuf.                 (* the static buffer [buf] of trap_path *)

(** The string behind a pointer, at the time it is read. *)
Definition deref (s : globals) (p : cptr) : string :=
  match p with
  | PNull => ""
  | PStr str => str
  | PBuf => trap_buf s
  end.

(** [p == q], for [q] the argument of [trap_path] and [p] its result. *)
Definition ptr_eqb (p q : cptr) : bool :=
  match p, q with
  | PNull, PNull => true
  | PStr a, PStr b => String.eqb a b
  | PBuf, PBuf => true
  | _, _ => false
  end.

Definition is_null (p : cptr) : bool :=
  match p with
  | PNull => true
  | _ => false
  end.

(** [sizeof(buf)] for [static char buf[PATH_MAX * 2]] *)
Definition sizeof_buf : Z := PATH_MAX * 2.

(** The real functions behind the wrappers. *)
Definition real_access (L : libc) (path : string) (s : globals)
  : Z * globals :=
  match k_access L path with
  | SysOk _ => (0, s)
  | SysErr e => (-1, set_errno e s)
  end.

(** The real [readlink(path, buf, bufsiz)]: the return value and the bytes
    it stores (no terminator is stored). *)
Definition real_readlink (L : libc) (bufsiz : Z) (path : string)
    (s : globals) : (Z * string) * globals :=
  match k_readlink L path with
  | SysOk target =>
      let stored := str_take (Z.to_nat bufsiz) target in
      ((strlen stored, stored), s)
  | SysErr e => ((-1, ""), set_errno e s)
  end.

Definition real_fopen (L : libc) (mode : string) (path : string)
    (s : globals) : Z * globals :=
  let f := k_fopen L path mode in
  if f =? NULL then (f, set_errno (fopen_errno L path mode) s)
  else (f, s).

Section Nested.

(** [trap_path] with the stack that is left. *)
Variable trap : cptr → globals → outcome (cptr * globals).

(** The wrapper templates WRAP_1ARG, WRAP_2ARGS and WRAP_3ARGS; [fn] is the
    real function applied to its further arguments. *)
Definition wrap_with {R : Type} (failret : R)
    (fn : string → globals → R * globals) (path : cptr) (s : globals)
  : outcome (R * globals) :=
  let* (p, s) := trap path s in
  if is_null p then Ok (failret, s)
  else Ok (fn (deref s p) s).

(** The wrapper [access], made by WRAP_2ARGS with failure value -1;
    called with F_OK *)
Definition access_with (L : libc)
  : cptr → globals → outcome (Z * globals) :=
  wrap_with (-1) (real_access L).

Definition path_exists_with (L : libc) (path : cptr) (s : globals)
  : outcome (Z * globals) :=
  let orig_errno := errno s in
  let* (res, s) := access_with L path s in
  let s := set_errno orig_errno s in
  Ok (res, s).

Definition trap_path_body (L : libc) (path : cptr) (s : globals)
  : outcome (cptr * globals) :=
  (* do we need to trap this path? *)
  if is_null path then Ok (path, s)
  else
    match getenv L "UMOCKDEV_DIR" with
    | None => Ok (path, s)
    | Some prefix =>
        let check_exist :=
          starts_with (deref s path) "/dev/" || streq (deref s path) "/dev" in
        if negb check_exist && negb (starts_with (deref s path) "/sys/")
           && negb (streq (deref s path) "/sys")
        then Ok (path, s)
        else
          let path_len := strlen (deref s path) in
          let prefix_len := strlen prefix in
          if sizeof_buf <=? wrap64 (path_len + prefix_len) then
            Ok (PNull, set_errno ENAMETOOLONG s)
          else
            (* test bed disabled? *)
            let s := set_trap_buf prefix s in
            (* strcpy(buf + prefix_len, "/disabled") stores 10 bytes,
               past the end of buf for a prefix of more than
               sizeof(buf) - 10 characters *)
            if sizeof_buf <? prefix_len + 10 then Stop Faulted
            else
            let s := set_trap_buf (prefix +:+ "/disabled") s in
            let* (r, s) := path_exists_with L PBuf s in
            if r =? 0 then Ok (path, s)
            else
              (* strcpy(buf + prefix_len, path); when path is buf itself
                 the two overlap: the copy is onto itself for an empty
                 prefix and runs over the buffer otherwise *)
              let* s :=
                match path with
                | PBuf =>
                    if prefix_len =? 0 then Ok s else Stop Faulted
                | _ =>
                    Ok (set_trap_buf
                          (str_take (Z.to_nat prefix_len) (trap_buf s)
                           +:+ deref s path) s)
                end in
              if check_exist then
                let* (r, s) := path_exists_with L PBuf s in
                if r <? 0 then Ok (path, s) else Ok (PBuf, s)
              else Ok (PBuf, s)
    end.

End Nested.

Fixpoint trap_path (depth : nat) (L : libc) (path : cptr) (s : globals)
  : outcome (cptr * globals) :=
  match depth with
  | O => Stop StackOverflow
  | S depth' => trap_path_body (trap_path depth' L) L path s
  end.

Definition wrap_path {R : Type} (depth : nat) (L : libc) (failret : R)
    (fn : string → globals → R * globals)
  : cptr → globals → outcome (R * globals) :=
  wrap_with (trap_path depth L) failret fn.

Definition access (depth : nat) (L : libc)
  : cptr → globals → outcome (Z * globals) :=
  access_with (trap_path depth L) L.

Definition path_exists (depth : nat) (L : libc)
  : cptr → globals → outcome (Z * globals) :=
  path_exists_with (trap_path depth L) L.

(** The wrapper [readlink], made by WRAP_3ARGS with failure value -1 *)
Definition readlink (depth : nat) (L : libc) (path : cptr) (bufsiz : Z)
  : globals → outcome ((Z * string) * globals) :=
  wrap_path depth L (-1, "") (real_readlink L bufsiz) path.

(** The wrapper [fopen], made by WRAP_2ARGS with failure value NULL *)
Definition fopen (depth : nat) (L : libc) (path : cptr) (mode : string)
  : globals → outcome (Z * globals) :=
  wrap_path depth L NULL (real_fopen L mode) path.

(** *** ioctl recording *)

Definition dev_t_minus_1 : Z := wrap64 (-1).

Definition ioctl_record_open (depth : nat) (L : libc) (fd : Z) (s : globals)
  : outcome globals :=
  if fd <? 0 then Ok s
  else
    (* lazily initialize record_rdev *)
    let s :=
      if record_rdev s =? dev_t_minus_1 then
        match getenv L "UMOCKDEV_IOCTL_RECORD_DEV" with
        | Some dev => set_record_rdev (wrap64 (atoi dev)) s
        | None => set_record_rdev 0 s   (* not recording *)
        end
      else s in
    if record_rdev s =? 0 then Ok s
    else
      (* check if the opened device is the one we want to record *)
      let '(dev, s) := dev_of_fd L fd s in
      if negb (dev =? record_rdev s) then Ok s
      else
        let s := set_ioctl_record_fd fd s in
        (* lazily open the record file *)
        if ioctl_record_log s =? NULL then
          match getenv L "UMOCKDEV_IOCTL_RECORD_FILE" with
          | None => Stop (Exited 1)
          | Some path =>
              match getenv L "UMOCKDEV_DIR" with
              | Some _ => Stop (Exited 1)
              | None =>
                  let s := add_event (EvFopen path "a+") s in
                  let* (f, s) := fopen depth L (PStr path) "a+" s in
                  if f =? NULL then Stop (Exited 1)
                  else
                    let s := set_ioctl_record_log f s in
                    (* load an already existing log *)
                    let s := add_event (EvTreeRead f) s in
                    Ok (set_ioctl_record (ioctl_tree_read L f) s)
              end
          end
        else Ok s.

Definition ioctl_record_close (L : libc) (s : globals) : outcome globals :=
  (* recorded anything? *)
  if negb (ioctl_record s =? NULL) then
    let f := ioctl_record_log s in
    let s := add_event (EvRewind f) s in
    let s := add_event (EvFtruncate f) s in
    match k_ftruncate L f with
    | SysErr _ => Stop Aborted
    | SysOk _ =>
        let s := add_event (EvTreeWrite f (ioctl_record s)) s in
        Ok (add_event (EvFflush f) s)
    end
  else Ok s.

Definition record_ioctl (L : libc) (request arg result : Z) (s : globals)
  : outcome globals :=
  let* _ := assert (negb (ioctl_record_log s =? NULL)) in
  let node := ioctl_tree_new_from_bin L request arg result in
  if node =? NULL then Ok s
  else
    let s := add_event (EvTreeInsert (ioctl_record s) node) s in
    (* handle initial node *)
    if ioctl_record s =? NULL then Ok (set_ioctl_record node s) else Ok s.

(** *** ioctl emulation *)

Definition ioctl_emulate (L : libc) (fd request arg : Z) (s : globals)
  : outcome (Z * globals) :=
  let ioctl_result := -2 in
  let '(found, fdinfo) := fd_map_get (ioctl_wrapped_fds s) fd in
  if negb (found =? 0) then
    match fdinfo_heap s !! fdinfo with
    | None => Stop Faulted
    | Some info =>
        (* check our ioctl tree *)
        let '(ret, ioctl_result) :=
          ioctl_tree_execute L (tree info) (last info) request arg
                             ioctl_result in
        let s :=
          if negb (ret =? NULL) then
            set_fdinfo_heap
              (<[fdinfo := {| tree := tree info; last := ret |}]>
                 (fdinfo_heap s)) s
          else s in
        Ok (ioctl_result, s)
    end
  else
    (* -2 means "unhandled" *)
    Ok (ioctl_result, s).

Definition ioctl (L : libc) (d request arg : Z) (s : globals)
  : outcome (Z * globals) :=
  let* (result, s) := ioctl_emulate L d request arg s in
  if negb (result =? -2) then Ok (result, s)
  else
    (* call original ioctl *)
    let s := add_event (EvIoctl d request arg) s in
    let '(result, s) :=
      match k_ioctl L d request arg with
      | SysOk r => (r, s)
      | SysErr e => (-1, set_errno e s)
      end in
    if negb (result =? -1) && (ioctl_record_fd s =? d) then
      let* s := record_ioctl L request arg result s in
      Ok (result, s)
    else Ok (result, s).

(** *** device script (read/write) recording *)

(** What [script_record_open] stores for a descriptor it starts to record:
    the opened log, the current monotonic time, and no last operation. *)
Definition fresh_script_record_info (f : Z) (now : timespec)
  : script_record_info :=
  {| log := f; time := now; op := 0 |}.

Definition written (f : Z) (s : globals) : list Z :=
  default [] (streams s !! f).

(** [putc(c, f)]: the byte written is [(unsigned char) c]. *)
Definition putc (c : Z) (f : Z) (s : globals) : globals :=
  set_streams (<[f := written f s ++ [c mod 256]]> (streams s)) s.

(** The real [fwrite(ptr, size, 1, f)] of a buffer of [size] bytes: the
    number of items written (0 when [size] is 0). *)
Definition fwrite1 (bytes : list Z) (f : Z) (s : globals) : Z * globals :=
  match bytes with
  | [] => (0, s)
  | _ => (1, set_streams (<[f := written f s ++ bytes]> (streams s)) s)
  end.

(** The [long delta] that [update_msec] computes from the stored time
    [tm] and the current time [now]. *)
Definition elapsed_msec (tm now : timespec) : Z :=
  to_long ((tv_sec now - tv_sec tm) * 1000
           + Z.quot (tv_nsec now) 1000000 - Z.quot (tv_nsec tm) 1000000).

(** [update_msec(&srinfo->time)], given the address of [srinfo]. *)
Definition update_msec (L : libc) (srinfo : Z) (s : globals)
  : outcome (Z * globals) :=
  match srinfo_heap s !! srinfo with
  | None => Stop Faulted
  | Some info =>
      let tm := time info in
      let '(rc, now) := k_clock_gettime L (clock_ticks s) in
      let s := set_clock_ticks (S (clock_ticks s)) s in
      let* _ := assert (rc =? 0) in
      let delta := elapsed_msec tm now in
      let* _ := assert (0 <=? delta) in
      let s :=
        set_srinfo_heap
          (<[srinfo := {| log := log info; time := now; op := op info |}]>
             (srinfo_heap s)) s in
      Ok (wrap64 delta, s)
  end.

(** The body of the escaping loop for one byte [*cur]. *)
Definition record_byte (f : Z) (s : globals) (cur : Z) : globals :=
  if cur <? 32 then
    let s := putc 94 f s in
    putc (cur + 64) f s
  else
    let s := if cur =? 94 then putc 94 f s else s in
    putc cur f s.

(** The block of [script_record_op] that creates a new record: it ends
    the previous one, if any, and writes the header. *)
Definition start_record (op_ delta : Z) (info : script_record_info)
    (s : globals) : outcome globals :=
  let s := if negb (op info =? 0) then putc 10 (log info) s else s in
  (* snprintf(header, sizeof(header), "%c %lu ", op, delta) *)
  let header := upto_nul ([op_ mod 256] ++ [32] ++ fmt_lu delta ++ [32]) in
  (* assert(_fwrite(header, strlen(header), 1, srinfo->log) == 1) *)
  let '(n, s) := fwrite1 header (log info) s in
  let* _ := assert (n =? 1) in
  Ok s.

(** [buf] holds the (unsigned char) bytes behind the pointer. *)
Definition script_record_op (L : libc) (op_ : Z) (fd : Z) (buf : list Z)
    (size : Z) (s : globals) : outcome globals :=
  let '(found, srinfo) := fd_map_get (script_recorded_fds s) fd in
  if found =? 0 then Ok s
  else if size <=? 0 then Ok s
  else
    let* (delta, s) := update_msec L srinfo s in
    match srinfo_heap s !! srinfo with
    | None => Stop Faulted
    | Some info =>
        (* for negligible time deltas, append to the previous stanza,
           otherwise create a new record *)
        let* s :=
          if (0 <? delta) || negb (op info =? op_)
          then start_record op_ delta info s
          else Ok s in
        (* escape ASCII control chars *)
        let s := fold_left (record_byte (log info)) 
                           (take (Z.to_nat size) buf) s in
        Ok (set_srinfo_heap
              (<[srinfo := {| log := log info; time := time info;
                              op := op_ |}]> (srinfo_heap s)) s)
    end.

(** *** Wrappers for accessing files: device nodes *)

Definition slash_to_underscore (c : ascii) : ascii :=
  if Ascii.eqb c "/"%char then "_"%char else c.

Definition get_rdev (depth : nat) (L : libc) (nodename : string)
    (s : globals) : outcome (Z * globals) :=
  (* snprintf(buf, sizeof(buf), "%s/dev/.node/", getenv("UMOCKDEV_DIR"));
     glibc prints a NULL string as "(null)" *)
  let head := default "(null)" (getenv L "UMOCKDEV_DIR") +:+ "/dev/.node/" in
  let name_offset := strlen head in
  (* append nodename and replace / with _ ; the count given to strncpy is
     sizeof(buf) - name_offset - 1 as a size_t, and strncpy fills all of
     it: past the end of buf once name_offset reaches sizeof(buf) *)
  let count := wrap64 (PATH_MAX - name_offset - 1) in
  if PATH_MAX <=? count then Stop Faulted
  else
    let buf :=
      head +:+ str_map slash_to_underscore
                       (str_take (Z.to_nat count) nodename) in
    (* read major:minor *)
    let orig_errno := errno s in
    let* (r, s) := readlink depth L (PStr buf) PATH_MAX s in
    let '(res, stored) := r in
    if res <? 0 then
      let s := set_errno orig_errno s in
      Ok (0, s)
    else
      let s := set_get_rdev_link (overlay stored (get_rdev_link s)) s in
      let s := set_errno orig_errno s in
      let '(n, major, minor) := sscanf_i_colon_i (get_rdev_link s) in
      (* errno is not restored after the sscanf *)
      let s :=
        match sscanf_errno L (get_rdev_link s) with
        | Some e => set_errno e s
        | None => s
        end in
      if negb (n =? 2) then Ok (0, s)
      else Ok (makedev major minor, s).

Definition is_emulated_device (depth : nat) (L : libc) (path : cptr)
    (st_mode : Z) (s : globals) : outcome (bool * globals) :=
  (* we use symlinks to the real /dev/pty/ for mocking tty devices, those
     should appear as char device, not as symlink; but other symlinks
     should stay symlinks *)
  if S_ISLNK st_mode then
    let orig_errno := errno s in
    (* sizeof(dest) is 10 *)
    let* (r, s) := readlink depth L path 10 s in
    let '(res, stored) := r in
    let dest := overlay stored (dest_indeterminate L) in
    let s := set_errno orig_errno s in
    let* _ := assert (0 <? res) in
    Ok (starts_with dest "/dev/", s)
  else
    (* other file types count as emulated for now *)
    Ok (negb (S_ISDIR st_mode), s).

(** The wrappers [stat], [stat64], [lstat] and [lstat64], made by
    WRAP_2ARGS with failure value -1; [fn] is the real function of the
    instance.  The result carries the contents of the caller's buffer
    [st] on return. *)
Definition lstat (depth : nat) (L : libc) (fn : string → sysret stat)
    (path : cptr) (st : stat) (s : globals)
  : outcome ((Z * stat) * globals) :=
  wrap_path depth L (-1, st)
    (λ p s, match fn p with
            | SysOk filled => ((0, filled), s)
            | SysErr e => ((-1, st), set_errno e s)
            end)
    path s.

(** The wrapper template WRAP_VERSTAT for the __xstat family (__xstat,
    __xstat64, __lxstat, __lxstat64); [fn] is the real function of the
    instance.  [st] is the caller's buffer; the result carries its
    contents on return. *)
Definition xstat (depth : nat) (L : libc) (fn : Z → string → sysret stat)
    (ver : Z) (path : cptr) (st : stat) (s : globals)
  : outcome (Z * stat * globals) :=
  let* (p, s) := trap_path depth L path s in
  if is_null p then Ok (-1, st, s)
  else
    let '(ret, st, s) :=
      match fn ver (deref s p) with
      | SysOk filled => (0, filled, s)
      | SysErr e => (-1, st, set_errno e s)
      end in
    if (ret =? 0) && negb (ptr_eqb p path)
       && starts_with (deref s path) "/dev/"
    then
      let* (emulated, s) := is_emulated_device depth L p (st_mode st) s in
      if emulated then
        let mode := Z.land (st_mode st) (Z.lnot S_IFREG) in
        let mode :=
          if negb (Z.land mode S_ISVTX =? 0) then
            Z.lor (Z.land mode (Z.lnot S_ISVTX)) S_IFBLK
          else Z.lor mode S_IFCHR in
        let* (rdev, s) := get_rdev depth L (str_drop 5 (deref s path)) s in
        Ok (ret, {| st_mode := mode; st_rdev := rdev |}, s)
      else Ok (ret, st, s)
    else Ok (ret, st, s).

End Preload.

(** ** The ioctl replay tree *)

Module ReplayTree.

Local Open Scope Z_scope.

(** A recorded ioctl: the address of its node in the tree, and the
    [(request, argument, result)] triple. *)
Record recorded : Type := mk_recorded {
  node : Z;
  request : Z;
  arg : Z;
  result : Z
}.

Fixpoint drop_through (cursor : Z) (nodes : list recorded) : list recorded :=
  match nodes with
  | [] => []
  | r :: rest => if node r =? cursor then rest else drop_through cursor rest
  end.

(** Modelled from the spec: [ioctl_tree_execute] of ioctl_tree.h, which is
    not part of the sources at hand.  The tree holds the previously
    observed triples in order; [execute(tree, cursor, request, arg)] looks
    for a recorded [(request, arg)], first after the cursor, then from the
    start, and gives the matched node as new cursor and its recorded
    result; without a match it gives no node and leaves the result
    untouched (the sentinel). *)
Definition execute (nodes : list recorded) (tree last request_ arg_ ret : Z)
  : Z * Z :=
  if tree =? 0 then (0, ret)
  else
    let matches r := (request r =? request_) && (arg r =? arg_) in
    match find matches (drop_through last nodes ++ nodes) with
    | Some r => (node r, result r)
    | None => (0, ret)
    end.

End ReplayTree.

(** ** The script trace format, in the words of the specification *)

Module TraceFormat.

Local Open Scope Z_scope.

(** Caret notation: a byte below 32 is a caret followed by (byte + 64); a
    literal caret is two carets; every other byte is itself. *)
Definition caret_escape (byte : Z) : list Z :=
  if byte <? 32 then [94; byte + 64]
  else if byte =? 94 then [94; 94]
  else [byte].


End TraceFormat.

(** ** The preload library, continued: descriptors

    The wrappers that work on descriptors and streams -- [bind], the
    [open] family, [close], [read], [write], [fread], [fwrite], [fgets] --
    and the functions they call that the module above does not need:
    [ioctl_wrap_open], [init_script_dev_logfile_map], [script_record_open]
    and [script_record_close].  They use further variables of the library
    and further calls of the C library, which are added here around the
    state and the oracles of [Preload]. *)

Module PreloadIO.

Import FdMap CLib Preload.
Local Open Scope string_scope.
Local Open Scope list_scope.
Local Open Scope Z_scope.

(** *** Data *)

(** [struct sockaddr_un] of <linux/un.h>: [sun_path] has 108 bytes, the
    structure 110. *)
Record sockaddr_un : Type := mk_sockaddr_un {
  sun_family : Z;
  sun_path : string
}.

Definition sizeof_sun_path : Z := 108.
Definition sizeof_sockaddr_un : Z := 110.

(** The address given to the real [bind]: the one of the caller, which the
    library does not look into, or one the library has built. *)
Inductive sockaddr : Type :=
| SaCaller (addr : Z)
| SaUn (sa : sockaddr_un).

(** <fcntl.h> *)
Definition O_CREAT : Z := 64.   (* 0100 *)

(** Further calls that leave the library, in the order they are made. *)
Inductive io_call : Type :=
| CallUnlink (path : string)
| CallBind (sockfd : Z) (addr : sockaddr) (addrlen : Z)
| CallOpen (path : string) (flags : Z) (mode : option Z)
| CallClose (fd : Z)
| CallFclose (f : Z)
| CallFree (p : Z)
| CallTreeFree (tree : Z).           (* ioctl_tree_free *)

(** The further kernel and C library calls.  The stdio calls are modelled
    by their results only; what they do to errno is left out. *)
Record libc_io : Type := mk_libc_io {
  k_unlink : string → sysret unit;
  k_bind : Z → sockaddr → Z → sysret unit;
  k_open : string → Z → option Z → sysret Z;  (* path, flags, mode if given *)
  k_close : Z → sysret unit;
  k_read : Z → Z → sysret (list Z);           (* fd, count: the bytes read *)
  k_write : Z → list Z → Z → sysret Z;        (* fd, buffer, count *)
  (* size, nmemb, stream: the items read and the bytes stored *)
  k_fread : Z → Z → Z → Z * list Z;
  (* buffer, size, nmemb, stream: the items written *)
  k_fwrite : list Z → Z → Z → Z → Z;
  (* size, stream: the characters stored before the terminator, or NULL *)
  k_fgets : Z → Z → option (list Z);
  k_ferror : Z → Z;
  k_fileno : Z → Z;
  k_malloc : nat → Z;                         (* the n-th call's result *)
  env_addr : string → Z      (* where the value of a variable is stored *)
}.

(** The state of [Preload] with the variables that only the functions of
    this module use. *)
Record world : Type := mk_world {
  lib : globals;
  script_dev_logfile_map : fd_map;
    (* static fd_map script_dev_logfile_map: st_rdev -> log file name *)
  script_dev_logfile_map_inited : Z;
    (* static int script_dev_logfile_map_inited = 0 *)
  cstrings : gmap Z string;
    (* the environment strings that script_dev_logfile_map points to *)
  mallocs : nat;
    (* number of malloc calls made *)
  calls : list io_call
}.

Definition set_lib (v : globals) (w : world) : world :=
  {| lib := v;
     script_dev_logfile_map := script_dev_logfile_map w;
     script_dev_logfile_map_inited := script_dev_logfile_map_inited w;
     cstrings := cstrings w;
     mallocs := mallocs w;
     calls := calls w |}.

Definition set_script_dev_logfile_map (v : fd_map) (w : world) : world :=
  {| lib := lib w;
     script_dev_logfile_map := v;
     script_dev_logfile_map_inited := script_dev_logfile_map_inited w;
     cstrings := cstrings w;
     mallocs := mallocs w;
     calls := calls w |}.

Definition set_script_dev_logfile_map_inited (v : Z) (w : world) : world :=
  {| lib := lib w;
     script_dev_logfile_map := script_dev_logfile_map w;
     script_dev_logfile_map_inited := v;
     cstrings := cstrings w;
     mallocs := mallocs w;
     calls := calls w |}.

Definition set_cstrings (v : gmap Z string) (w : world) : world :=
  {| lib := lib w;
     script_dev_logfile_map := script_dev_logfile_map w;
     script_dev_logfile_map_inited := script_dev_logfile_map_inited w;
     cstrings := v;
     mallocs := mallocs w;
     calls := calls w |}.

Definition set_mallocs (v : nat) (w : world) : world :=
  {| lib := lib w;
     script_dev_logfile_map := script_dev_logfile_map w;
     script_dev_logfile_map_inited := script_dev_logfile_map_inited w;
     cstrings := cstrings w;
     mallocs := v;
     calls := calls w |}.

Definition set_calls (v : list io_call) (w : world) : world :=
  {| lib := lib w;
     script_dev_logfile_map := script_dev_logfile_map w;
     script_dev_logfile_map_inited := script_dev_logfile_map_inited w;
     cstrings := cstrings w;
     mallocs := mallocs w;
     calls := v |}.

Definition add_call (c : io_call) (w : world) : world :=
  set_calls (calls w ++ [c]) w.

(** The state of the library when it is loaded. *)
Definition start : world :=
  {| lib := initial;
     script_dev_logfile_map := FdMap.empty;
     script_dev_logfile_map_inited := 0;
     cstrings := ∅;
     mallocs := O;
     calls := [] |}.

(** [malloc(size)]: the address, and the state after the call. *)
Definition malloc (IO : libc_io) (w : world) : Z * world :=
  (k_malloc IO (mallocs w), set_mallocs (S (mallocs w)) w).

(** The system call results as the C functions return them. *)
Definition ret_unit (r : sysret unit) (w : world) : Z * world :=
  match r with
  | SysOk _ => (0, w)
  | SysErr e => (-1, set_lib (set_errno e (lib w)) w)
  end.

Definition ret_int (r : sysret Z) (w : world) : Z * world :=
  match r with
  | SysOk v => (v, w)
  | SysErr e => (-1, set_lib (set_errno e (lib w)) w)
  end.

(** [printf("%i", n)] *)
Definition string_of_bytes (l : list Z) : string :=
  string_of_list_ascii (map (λ c, ascii_of_N (Z.to_N c)) l).

Definition fmt_i (n : Z) : string :=
  if n <? 0 then "-" +:+ string_of_bytes (fmt_lu (- n))
  else string_of_bytes (fmt_lu n).


(** *** Wrappers for accessing netlink socket: bind *)

Definition bind (L : libc) (IO : libc_io) (sockfd : Z) (addr : Z)
    (addrlen : Z) (w : world) : Z * world :=
  let path := getenv L "UMOCKDEV_DIR" in
  let real a len w :=
    let w := add_call (CallBind sockfd a len) w in
    ret_unit (k_bind IO sockfd a len) w in
  match path with
  | Some path =>
      if negb (fst (fd_map_get (wrapped_sockets (lib w)) sockfd) =? 0) then
        (* we create one socket per fd, and send emulated uevents to all
           of them *)
        let sa :=
          {| sun_family := AF_UNIX;
             (* snprintf(sa.sun_path, sizeof(sa.sun_path), "%s/event%i",
                         path, sockfd) *)
             sun_path :=
               str_take (Z.to_nat (sizeof_sun_path - 1))
                        (path +:+ "/event" +:+ fmt_i sockfd) |} in
        (* clean up from previously closed fds *)
        let w := add_call (CallUnlink (sun_path sa)) w in
        let w := snd (ret_unit (k_unlink IO (sun_path sa)) w) in
        real (SaUn sa) sizeof_sockaddr_un w
      else real (SaCaller addr) addrlen w
  | None => real (SaCaller addr) addrlen w
  end.

(** *** ioctl emulation: registering an opened device *)

Definition ioctl_wrap_open (depth : nat) (L : libc) (IO : libc_io)
    (fd : Z) (dev_path : string) (w : world) : outcome world :=
  if negb (starts_with dev_path "/dev/") then Ok w
  else
    let '(fdinfo, w) := malloc IO w in
    (* fdinfo->tree = NULL; fdinfo->last = NULL *)
    if fdinfo =? NULL then Stop Faulted
    else
      let s := lib w in
      let s :=
        set_fdinfo_heap
          (<[fdinfo := {| tree := NULL; last := NULL |}]> (fdinfo_heap s)) s in
      let* m := fd_map_add (ioctl_wrapped_fds s) fd fdinfo in
      let s := set_ioctl_wrapped_fds m s in
      (* check if we have an ioctl tree for this *)
      let ioctl_path :=
        str_take (Z.to_nat (PATH_MAX - 1))
                 (default "(null)" (getenv L "UMOCKDEV_DIR")
                  +:+ "/ioctl/" +:+ dev_path) in
      let s := add_event (EvFopen ioctl_path "r") s in
      let* (f, s) := fopen depth L (PStr ioctl_path) "r" s in
      if f =? NULL then Ok (set_lib s w)
      else
        let s := add_event (EvTreeRead f) s in
        let t := ioctl_tree_read L f in
        let s :=
          set_fdinfo_heap
            (<[fdinfo := {| tree := t; last := NULL |}]> (fdinfo_heap s)) s in
        let w := add_call (CallFclose f) (set_lib s w) in
        if t =? NULL then Stop (Exited 1)
        else Ok w.

(** *** device script (read/write) recording: open and close *)

(** The loop of [init_script_dev_logfile_map] has no bound of its own: it
    ends at the first unset variable, by [exit], or by the [abort] of
    [fd_map_add] on a full table.  [fuel] bounds the number of iterations;
    the result is [None] when it does not suffice. *)
Definition bounded (A : Type) : Type := option (outcome A).

Definition bbind {A B} (r : bounded A) (k : A → outcome B) : bounded B :=
  match r with
  | None => None
  | Some r => Some (rbind r k)
  end.

Fixpoint init_loop (fuel : nat) (L : libc) (IO : libc_io) (i : Z)
    (w : world) : bounded world :=
  match fuel with
  | O => None
  | S fuel' =>
      let varname := "UMOCKDEV_SCRIPT_RECORD_DEV_" +:+ fmt_i i in
      match getenv L varname with
      | None => Some (Ok w)
      | Some devname =>
          let dev := atoi devname in
          let varname := "UMOCKDEV_SCRIPT_RECORD_FILE_" +:+ fmt_i i in
          match getenv L varname with
          | None => Some (Stop (Exited 1))
          | Some logname =>
              let p := env_addr IO varname in
              match fd_map_add (script_dev_logfile_map w) dev p with
              | Stop e => Some (Stop e)
              | Ok m =>
                  let w := set_script_dev_logfile_map m w in
                  let w := set_cstrings (<[p := logname]> (cstrings w)) w in
                  init_loop fuel' L IO (to_int (i + 1)) w
              end
          end
      end
  end.

(** read UMOCKDEV_SCRIPT_* environment variables and set up
    dev_logfile_map according to it *)
Definition init_script_dev_logfile_map (fuel : nat) (L : libc)
    (IO : libc_io) (w : world) : bounded world :=
  let w := set_script_dev_logfile_map_inited 1 w in
  init_loop fuel L IO 0 w.

Definition script_record_open (fuel depth : nat) (L : libc) (IO : libc_io)
    (fd : Z) (w : world) : bounded world :=
  bbind
    (if script_dev_logfile_map_inited w =? 0
     then init_script_dev_logfile_map fuel L IO w
     else Some (Ok w))
    (λ w,
      (* check if the opened device is one we want to record; the dev_t
         is passed for the int parameter of fd_map_get *)
      let '(fd_dev, s) := dev_of_fd L fd (lib w) in
      let '(found, logname) :=
        fd_map_get (script_dev_logfile_map w) (to_int fd_dev) in
      if found =? 0 then Ok (set_lib s w)
      else if negb (fst (fd_map_get (script_recorded_fds s) fd) =? 0)
      then Stop Aborted   (* "fd is already being recorded" *)
      else
        match cstrings w !! logname with
        | None => Stop Faulted
        | Some name =>
            let s := add_event (EvFopen name "w") s in
            let* (log_, s) := fopen depth L (PStr name) "w" s in
            if log_ =? NULL then Stop (Exited 1)
            else
              (* nothing has been written to the new stream *)
              let s := set_streams (<[log_ := []]> (streams s)) s in
              let '(srinfo, w) := malloc IO w in
              if srinfo =? NULL then Stop Faulted
              else
                let '(rc, now) := k_clock_gettime L (clock_ticks s) in
                let s := set_clock_ticks (S (clock_ticks s)) s in
                let* _ := assert (rc =? 0) in
                let s :=
                  set_srinfo_heap
                    (<[srinfo := fresh_script_record_info log_ now]>
                       (srinfo_heap s)) s in
                let* m := fd_map_add (script_recorded_fds s) fd srinfo in
                Ok (set_lib (set_script_recorded_fds m s) w)
        end).

Definition script_record_close (fd : Z) (w : world) : outcome world :=
  let s := lib w in
  let '(found, srinfo) := fd_map_get (script_recorded_fds s) fd in
  if found =? 0 then Ok w
  else
    match srinfo_heap s !! srinfo with
    | None => Stop Faulted
    | Some info =>
        let w := add_call (CallFclose (log info)) w in
        let w := add_call (CallFree srinfo) w in
        Ok (set_lib (set_srinfo_heap (delete srinfo (srinfo_heap s)) s) w)
    end.

(** *** Wrappers for accessing files: the open family, close *)

(** The wrapper template WRAP_OPEN ([open] and [open64]); [mode] is the
    variadic argument, read when [flags] has O_CREAT. *)
Definition open (fuel depth : nat) (L : libc) (IO : libc_io)
    (path : cptr) (flags mode : Z) (w : world) : bounded (Z * world) :=
  match trap_path depth L path (lib w) with
  | Stop e => Some (Stop e)
  | Ok (p, s) =>
      let w := set_lib s w in
      if is_null p then Some (Ok (-1, w))
      else
        let m :=
          if negb (Z.land flags O_CREAT =? 0) then Some mode else None in
        let w := add_call (CallOpen (deref s p) flags m) w in
        let '(ret, w) := ret_int (k_open IO (deref s p) flags m) w in
        if negb (ptr_eqb p path) then
          Some (let* w := ioctl_wrap_open depth L IO ret
                            (deref (lib w) path) w in
                Ok (ret, w))
        else
          match ioctl_record_open depth L ret (lib w) with
          | Stop e => Some (Stop e)
          | Ok s =>
              bbind (script_record_open fuel depth L IO ret (set_lib s w))
                    (λ w, Ok (ret, w))
          end
  end.

Definition close (L : libc) (IO : libc_io) (fd : Z) (w : world)
  : outcome (Z * world) :=
  let s := lib w in
  let* s :=
    if negb (fst (fd_map_get (wrapped_sockets s) fd) =? 0) then
      let* m := fd_map_remove (wrapped_sockets s) fd in
      Ok (set_wrapped_sockets m s)
    else Ok s in
  let '(found, fdinfo) := fd_map_get (ioctl_wrapped_fds s) fd in
  let* w :=
    if negb (found =? 0) then
      let* m := fd_map_remove (ioctl_wrapped_fds s) fd in
      let s := set_ioctl_wrapped_fds m s in
      match fdinfo_heap s !! fdinfo with
      | None => Stop Faulted
      | Some info =>
          let w := add_call (CallTreeFree (tree info)) w in
          let w := add_call (CallFree fdinfo) w in
          Ok (set_lib (set_fdinfo_heap (delete fdinfo (fdinfo_heap s)) s) w)
      end
    else Ok (set_lib s w) in
  let* w :=
    if fd =? ioctl_record_fd (lib w) then
      let* s := ioctl_record_close L (lib w) in
      Ok (set_lib (set_ioctl_record_fd (-1) s) w)
    else Ok w in
  let* w := script_record_close fd w in
  let w := add_call (CallClose fd) w in
  Ok (ret_unit (k_close IO fd) w).

(** *** Wrappers for reading and writing

    [buf] is the contents of the caller's buffer; the reading wrappers
    return its contents after the call. *)

Definition store (data buf : list Z) : list Z :=
  data ++ drop (length data) buf.

Definition read (L : libc) (IO : libc_io) (fd : Z) (buf : list Z)
    (count : Z) (w : world) : outcome (Z * list Z * world) :=
  let '(res, buf, w) :=
    match k_read IO fd count with
    | SysOk data =>
        let data := take (Z.to_nat count) data in
        (Z.of_nat (length data), store data buf, w)
    | SysErr e => (-1, buf, set_lib (set_errno e (lib w)) w)
    end in
  let* s := script_record_op L 114 fd buf res (lib w) in
  Ok (res, buf, set_lib s w).






End PreloadIO.

(** ** Notions used to state the properties *)

Module Notions.

Import FdMap CLib Preload.
Local Open Scope string_scope.
Local Open Scope list_scope.
Local Open Scope Z_scope.

(** The value of an [unsigned char]. *)
Definition is_byte (c : Z) : Prop := 0 ≤ c < 256.

(** The number that a string of decimal digits writes. *)
Definition dec_value (digits : list Z) : Z :=
  fold_left (λ a c, a * 10 + (c - 48)) digits 0.

(** The sender of a kernel uevent: netlink family, pid 0, the group of
    the udev monitor. *)
Definition netlink_sender : sockaddr_nl :=
  {| nl_family := AF_NETLINK; nl_pid := 0; nl_groups := 2 |}.

(** The paths [trap_path] looks at: [/dev], [/sys] and what lies below. *)
Definition trapped_path (path : string) : bool :=
  starts_with path "/dev/" || streq path "/dev"
  || starts_with path "/sys/" || streq path "/sys".

(** [access(path, F_OK)] succeeds in the real file system. *)
Definition file_exists (L : libc) (path : string) : bool :=
  match k_access L path with
  | SysOk _ => true
  | SysErr _ => false
  end.

(** The root that [get_rdev] formats with "%s". *)
Definition node_root (L : libc) : string :=
  default "(null)" (getenv L "UMOCKDEV_DIR").

(** What a system call with an integer result returns. *)
Definition sys_value (r : sysret Z) : Z :=
  match r with
  | SysOk v => v
  | SysErr _ => -1
  end.

(** Two masks without a common bit. *)
Definition disjoint_bits (a b : Z) : Prop := Z.land a b = 0.

End Notions.

(** ** Further notions: the registry slot by slot *)

Module Slots.

Import FdMap.

(** What [fd_map_add] stores when its loop stops at the free slot [i]. *)
Definition add_at (t : fd_map) (i : nat) (fd p : Z) : fd_map :=
  {| map_set := <[i := 1]> (map_set t);
     map_fd := <[i := fd]> (map_fd t);
     map_data := <[i := p]> (map_data t) |}.

(** What [fd_map_remove] stores when its loop stops at slot [i]. *)
Definition clear_at (t : fd_map) (i : nat) : fd_map :=
  {| map_set := <[i := 0]> (map_set t);
     map_fd := map_fd t;
     map_data := map_data t |}.

End Slots.

(** ** Further notions: the script log *)

Module LogFormat.

Import CLib Preload.
Local Open Scope Z_scope.




(** A reader of the caret notation: a caret and the byte after it stand
    for one byte, any other byte for itself. *)
Fixpoint caret_unescape (l : list Z) : list Z :=
  match l with
  | [] => []
  | c :: r =>
      if c =? 94 then
        match r with
        | [] => [c]
        | d :: r' => (if d =? 94 then 94 else d - 64) :: caret_unescape r'
        end
      else c :: caret_unescape r
  end.


End LogFormat.

(** ** Further notions: the configuration of the script recorder *)

Module ScriptConfig.

Import CLib Preload PreloadIO.
Local Open Scope string_scope.
Local Open Scope Z_scope.





End ScriptConfig.

(** ** Concrete environments and states used in examples *)

Module Scenario.

Import FdMap CLib Preload.
Local Open Scope string_scope.
Local Open Scope list_scope.
Local Open Scope Z_scope.

(** An environment with no variables set, no files and no devices. *)
Definition bare : libc :=
  {| getenv := λ _, None;
     k_access := λ _, SysErr 2;
     k_fstat := λ _, SysErr 9;
     k_readlink := λ _, SysErr 2;
     k_socket := λ _ _ _, SysOk 5;
     k_recvmsg := λ _ _ _, SysErr 11;
     k_ioctl := λ _ _ _, SysErr 25;
     k_fopen := λ _ _, NULL;
     fopen_errno := λ _ _, 2;
     k_ftruncate := λ _, SysOk ();
     k_clock_gettime := λ n, (0, {| tv_sec := Z.of_nat n; tv_nsec := 0 |});
     dest_indeterminate := "";
     sscanf_errno := λ _, None;
     ioctl_tree_read := λ _, NULL;
     ioctl_tree_execute := λ _ _ _ _ r, (NULL, r);
     ioctl_tree_new_from_bin := λ _ _ _, NULL |}.

Definition with_getenv (v : string → option string) (L : libc) : libc :=
  mk_libc v (k_access L) (k_fstat L) (k_readlink L) (k_socket L) (k_recvmsg L)
    (k_ioctl L) (k_fopen L) (fopen_errno L) (k_ftruncate L)
    (k_clock_gettime L) (dest_indeterminate L) (sscanf_errno L)
    (ioctl_tree_read L) (ioctl_tree_execute L) (ioctl_tree_new_from_bin L).

Definition with_k_access (v : string → sysret unit) (L : libc) : libc :=
  mk_libc (getenv L) v (k_fstat L) (k_readlink L) (k_socket L) (k_recvmsg L)
    (k_ioctl L) (k_fopen L) (fopen_errno L) (k_ftruncate L)
    (k_clock_gettime L) (dest_indeterminate L) (sscanf_errno L)
    (ioctl_tree_read L) (ioctl_tree_execute L) (ioctl_tree_new_from_bin L).

Definition with_k_fstat (v : Z → sysret stat) (L : libc) : libc :=
  mk_libc (getenv L) (k_access L) v (k_readlink L) (k_socket L) (k_recvmsg L)
    (k_ioctl L) (k_fopen L) (fopen_errno L) (k_ftruncate L)
    (k_clock_gettime L) (dest_indeterminate L) (sscanf_errno L)
    (ioctl_tree_read L) (ioctl_tree_execute L) (ioctl_tree_new_from_bin L).

Definition with_k_readlink (v : string → sysret string) (L : libc) : libc :=
  mk_libc (getenv L) (k_access L) (k_fstat L) v (k_socket L) (k_recvmsg L)
    (k_ioctl L) (k_fopen L) (fopen_errno L) (k_ftruncate L)
    (k_clock_gettime L) (dest_indeterminate L) (sscanf_errno L)
    (ioctl_tree_read L) (ioctl_tree_execute L) (ioctl_tree_new_from_bin L).

Definition with_k_recvmsg (v : Z → msghdr → Z → sysret (Z * msghdr))
    (L : libc) : libc :=
  mk_libc (getenv L) (k_access L) (k_fstat L) (k_readlink L) (k_socket L) v
    (k_ioctl L) (k_fopen L) (fopen_errno L) (k_ftruncate L)
    (k_clock_gettime L) (dest_indeterminate L) (sscanf_errno L)
    (ioctl_tree_read L) (ioctl_tree_execute L) (ioctl_tree_new_from_bin L).

Definition with_k_ioctl (v : Z → Z → Z → sysret Z) (L : libc) : libc :=
  mk_libc (getenv L) (k_access L) (k_fstat L) (k_readlink L) (k_socket L)
    (k_recvmsg L) v (k_fopen L) (fopen_errno L) (k_ftruncate L)
    (k_clock_gettime L) (dest_indeterminate L) (sscanf_errno L)
    (ioctl_tree_read L) (ioctl_tree_execute L) (ioctl_tree_new_from_bin L).

Definition with_k_fopen (v : string → string → Z) (L : libc) : libc :=
  mk_libc (getenv L) (k_access L) (k_fstat L) (k_readlink L) (k_socket L)
    (k_recvmsg L) (k_ioctl L) v (fopen_errno L) (k_ftruncate L)
    (k_clock_gettime L) (dest_indeterminate L) (sscanf_errno L)
    (ioctl_tree_read L) (ioctl_tree_execute L) (ioctl_tree_new_from_bin L).

Definition with_k_clock_gettime (v : nat → Z * timespec) (L : libc) : libc :=
  mk_libc (getenv L) (k_access L) (k_fstat L) (k_readlink L) (k_socket L)
    (k_recvmsg L) (k_ioctl L) (k_fopen L) (fopen_errno L) (k_ftruncate L) v
    (dest_indeterminate L) (sscanf_errno L) (ioctl_tree_read L)
    (ioctl_tree_execute L) (ioctl_tree_new_from_bin L).

Definition with_ioctl_tree_execute (v : Z → Z → Z → Z → Z → Z * Z)
    (L : libc) : libc :=
  mk_libc (getenv L) (k_access L) (k_fstat L) (k_readlink L) (k_socket L)
    (k_recvmsg L) (k_ioctl L) (k_fopen L) (fopen_errno L) (k_ftruncate L)
    (k_clock_gettime L) (dest_indeterminate L) (sscanf_errno L)
    (ioctl_tree_read L) v (ioctl_tree_new_from_bin L).

Definition with_ioctl_tree_new_from_bin (v : Z → Z → Z → Z) (L : libc)
  : libc :=
  mk_libc (getenv L) (k_access L) (k_fstat L) (k_readlink L) (k_socket L)
    (k_recvmsg L) (k_ioctl L) (k_fopen L) (fopen_errno L) (k_ftruncate L)
    (k_clock_gettime L) (dest_indeterminate L) (sscanf_errno L)
    (ioctl_tree_read L) (ioctl_tree_execute L) v.

Definition with_sscanf_errno (v : string → option Z) (L : libc) : libc :=
  mk_libc (getenv L) (k_access L) (k_fstat L) (k_readlink L) (k_socket L)
    (k_recvmsg L) (k_ioctl L) (k_fopen L) (fopen_errno L) (k_ftruncate L)
    (k_clock_gettime L) (dest_indeterminate L) v (ioctl_tree_read L)
    (ioctl_tree_execute L) (ioctl_tree_new_from_bin L).

(** *** Netlink *)

(** The state after [socket(AF_NETLINK, SOCK_DGRAM, NETLINK_KOBJECT_UEVENT)]
    returned descriptor 5. *)
Definition uevent_socket_state : globals :=
  set_wrapped_sockets
    {| map_set := <[0%nat := 1]> (map_set FdMap.empty);
       map_fd := <[0%nat := 5]> (map_fd FdMap.empty);
       map_data := map_data FdMap.empty |}
    initial.

(** The sender of a datagram that came over the Unix socket, and the
    credentials of the unprivileged process that sent it. *)
Definition unix_sender : sockaddr_nl :=
  {| nl_family := AF_UNIX; nl_pid := 12079; nl_groups := 25701 |}.

Definition user_cred : ucred := {| pid := 4242; uid := 1000; gid := 1000 |}.

Definition empty_msg : msghdr :=
  {| msg_name := Some {| nl_family := 0; nl_pid := 0; nl_groups := 0 |};
     msg_namelen := 12;
     msg_iov := [];
     msg_control := Some {| cmsg_len := 0; cmsg_level := 0; cmsg_type := 0;
                            cmsg_data := {| pid := 0; uid := 0; gid := 0 |} |};
     msg_controllen := 32;
     msg_flags := 0 |}.

Definition received_datagram (payload : list Z) : msghdr :=
  {| msg_name := Some unix_sender;
     msg_namelen := 110;
     msg_iov := payload;
     msg_control := Some {| cmsg_len := 28; cmsg_level := 1; cmsg_type := 2;
                            cmsg_data := user_cred |};
     msg_controllen := 32;
     msg_flags := 0 |}.

(** A kernel whose next receive delivers [payload]. *)
Definition delivering (payload : list Z) : libc :=
  with_k_recvmsg
    (λ _ _ _, SysOk (Z.of_nat (length payload), received_datagram payload))
    bare.

(** *** Script recording *)

(** A table whose first slot holds descriptor [fd] with payload [data]. *)
Definition one_entry (fd data : Z) : fd_map :=
  {| map_set := <[0%nat := 1]> (map_set FdMap.empty);
     map_fd := <[0%nat := fd]> (map_fd FdMap.empty);
     map_data := <[0%nat := data]> (map_data FdMap.empty) |}.

(** The state after [script_record_open(9)] on a recorded device, at the
    monotonic time 100 s: the record lives at address 1000, its log is the
    stream 77. *)
Definition recording_state : globals :=
  set_script_recorded_fds (one_entry 9 1000)
    (set_srinfo_heap
       {[ 1000 := fresh_script_record_info 77
                    {| tv_sec := 100; tv_nsec := 0 |} ]}
       initial).

(** A clock whose successive readings are [times]. *)
Definition clock_reading (times : list timespec) : libc :=
  with_k_clock_gettime
    (λ n, match times !! n with
          | Some t => (0, t)
          | None => (-1, {| tv_sec := 0; tv_nsec := 0 |})
          end)
    bare.

Definition at_msec (ms : Z) : timespec :=
  {| tv_sec := 100 + ms / 1000; tv_nsec := (ms mod 1000) * 1000000 |}.

(** Successive recorded operations on one descriptor. *)
Fixpoint script_run (L : libc) (fd : Z) (calls : list (Z * list Z))
    (s : globals) : outcome globals :=
  match calls with
  | [] => Ok s
  | (kind, buf) :: rest =>
      let* s := script_record_op L kind fd buf (Z.of_nat (length buf)) s in
      script_run L fd rest s
  end.

Definition log_text (f : Z) (r : outcome globals) : option (list Z) :=
  match r with
  | Ok s => Some (written f s)
  | Stop _ => None
  end.

(** *** Testbeds *)

(** The environment of a program run with [UMOCKDEV_DIR=root], where the
    paths [files] exist and every other path does not. *)
Definition testbed (root : string) (files : list string) : libc :=
  with_getenv (λ v, if String.eqb v "UMOCKDEV_DIR" then Some root else None)
    (with_k_access
       (λ p, if bool_decide (p ∈ files) then SysOk () else SysErr 2)
       bare).

(** A string of [n] letters a. *)
Fixpoint letters (n : nat) : string :=
  match n with
  | O => ""
  | S n' => String "a" (letters n')
  end.

(** A root of 8188 characters. *)
Definition long_root : string := letters (Z.to_nat 8188).

(** A testbed with a whole-disk block device node [/dev/sda]: the shadow
    file is a regular file with the sticky bit, its device number 8:0 is
    the target of the link under [.node]. *)
Definition disk_testbed : libc :=
  with_k_readlink
    (λ p, if String.eqb p "/tmp/tb/dev/.node/sda" then SysOk "8:0"
          else SysErr 22)
    (testbed "/tmp/tb" ["/tmp/tb/dev/sda"]).

(** A testbed where the link of the node [/dev/sda] reads
    99999999999999999999:1 and that of [/dev/sdb] reads 8: (nothing after
    the colon), on a C library whose [sscanf] stores ERANGE (34) in errno
    for the first text and 0 for the second. *)
Definition overflowing_node_testbed : libc :=
  with_sscanf_errno
    (λ text, if String.eqb text "99999999999999999999:1" then Some 34
             else if String.eqb text "8:" then Some 0
                  else None)
    (with_k_readlink
       (λ p, if String.eqb p "/tmp/tb/dev/.node/sda"
             then SysOk "99999999999999999999:1"
             else if String.eqb p "/tmp/tb/dev/.node/sdb" then SysOk "8:"
                  else SysErr 22)
       (testbed "/tmp/tb" ["/tmp/tb/dev/sda"; "/tmp/tb/dev/sdb"])).

(** The real [__xstat] of that system: the shadow file has mode
    S_IFREG | S_ISVTX | 0644. *)
Definition disk_xstat (ver : Z) (p : string) : sysret stat :=
  if String.eqb p "/tmp/tb/dev/sda"
  then SysOk {| st_mode := 33700; st_rdev := 0 |}
  else SysErr 2.

(** *** Ioctl replay and recording *)

(** Descriptor 7 is an emulated device whose [struct ioctl_fd_info] lives
    at address 2000, with a loaded tree at 3000 and no cursor yet. *)
Definition replaying_state : globals :=
  set_ioctl_wrapped_fds (one_entry 7 2000)
    (set_fdinfo_heap {[ 2000 := {| tree := 3000; last := NULL |} ]} initial).

(** A system whose replay tree holds [nodes] and whose real ioctl fails
    with ENOTTY. *)
Definition replaying (nodes : list ReplayTree.recorded) : libc :=
  with_ioctl_tree_execute (ReplayTree.execute nodes) bare.

(** A tree of two recorded ioctls: request 0x5501 on argument 42 gave 1,
    request 0x5502 on argument 0 gave 0. *)
Definition two_ioctls : list ReplayTree.recorded :=
  [ {| ReplayTree.node := 3000; ReplayTree.request := 21761;
       ReplayTree.arg := 42; ReplayTree.result := 1 |};
    {| ReplayTree.node := 3100; ReplayTree.request := 21762;
       ReplayTree.arg := 0; ReplayTree.result := 0 |} ].

(** A tree whose only recorded ioctl gave -2. *)
Definition minus_two_ioctl : list ReplayTree.recorded :=
  [ {| ReplayTree.node := 3000; ReplayTree.request := 21761;
       ReplayTree.arg := 42; ReplayTree.result := -2 |} ].

(** A program run with [UMOCKDEV_IOCTL_RECORD_DEV=48128] (the device
    188:0) and [UMOCKDEV_IOCTL_RECORD_FILE=/tmp/rec.ioctl]: every
    descriptor is that char device, and the record file opens as the
    stream 600 and is empty.  Every real ioctl returns 0, and the tree
    library makes a node at 5000 for it. *)
Definition recording : libc :=
  with_getenv
    (λ v, if String.eqb v "UMOCKDEV_IOCTL_RECORD_DEV" then Some "48128"
          else if String.eqb v "UMOCKDEV_IOCTL_RECORD_FILE"
               then Some "/tmp/rec.ioctl"
               else None)
    (with_k_fstat (λ _, SysOk {| st_mode := 8576; st_rdev := 48128 |})
       (with_k_fopen (λ _ _, 600)
          (with_k_ioctl (λ _ _ _, SysOk 0)
             (with_ioctl_tree_new_from_bin (λ _ _ _, 5000) bare)))).

End Scenario.

(** ** Further states and environments used in examples *)

Module Runs.

Import FdMap CLib Preload PreloadIO.
Local Open Scope string_scope.
Local Open Scope list_scope.
Local Open Scope Z_scope.

(** The recording run of [Scenario.recording] after descriptor 3 was
    opened: the record file is the stream 600, nothing is recorded yet. *)
Definition recording_on_3 : globals :=
  set_ioctl_record_fd 3
    (set_ioctl_record_log 600 (set_record_rdev 48128 initial)).

(** A system on which the further calls fail or deliver nothing, and
    whose n-th allocation lies at address 8000 + 16 n. *)
Definition bare_io : libc_io :=
  {| k_unlink := λ _, SysErr 2;
     k_bind := λ _ _ _, SysOk ();
     k_open := λ _ _ _, SysErr 2;
     k_close := λ _, SysOk ();
     k_read := λ _ _, SysOk [];
     k_write := λ _ _ _, SysErr 9;
     k_fread := λ _ _ _, (0, []);
     k_fwrite := λ _ _ _ _, 0;
     k_fgets := λ _ _, None;
     k_ferror := λ _, 0;
     k_fileno := λ _, -1;
     k_malloc := λ n, 8000 + 16 * Z.of_nat n;
     env_addr := λ _, 0 |}.

(** The library with the uevent socket 5 of [Scenario.uevent_socket_state]
    open. *)
Definition uevent_socket_world : world :=
  set_lib Scenario.uevent_socket_state start.

Definition with_ioctl_tree_read (v : Z → Z) (L : libc) : libc :=
  mk_libc (getenv L) (k_access L) (k_fstat L) (k_readlink L) (k_socket L)
    (k_recvmsg L) (k_ioctl L) (k_fopen L) (fopen_errno L) (k_ftruncate L)
    (k_clock_gettime L) (dest_indeterminate L) (sscanf_errno L) v
    (ioctl_tree_execute L) (ioctl_tree_new_from_bin L).

Definition with_k_open (v : string → Z → option Z → sysret Z)
    (IO : libc_io) : libc_io :=
  mk_libc_io (k_unlink IO) (k_bind IO) v (k_close IO) (k_read IO)
    (k_write IO) (k_fread IO) (k_fwrite IO) (k_fgets IO) (k_ferror IO)
    (k_fileno IO) (k_malloc IO) (env_addr IO).


(** The testbed /tmp/tb with the serial device /dev/ttyUSB0, whose
    recorded ioctls are in /tmp/tb/ioctl//dev/ttyUSB0: that file opens as
    the stream 700 and holds the tree at 3000. *)
Definition serial_testbed : libc :=
  with_ioctl_tree_read (λ f, if f =? 700 then 3000 else NULL)
    (Scenario.with_k_fopen
       (λ p _, if String.eqb p "/tmp/tb/ioctl//dev/ttyUSB0" then 700
               else NULL)
       (Scenario.testbed "/tmp/tb" ["/tmp/tb/dev/ttyUSB0"])).

(** A system whose every [open] returns the descriptor [fd]. *)
Definition opening (fd : Z) : libc_io :=
  with_k_open (λ _ _ _, SysOk fd) bare_io.

(** A program run with [UMOCKDEV_SCRIPT_RECORD_DEV_0=48128] (the device
    188:0) and [UMOCKDEV_SCRIPT_RECORD_FILE_0=/tmp/tty.script]: every
    descriptor is that char device, a file opens as the stream 77, and the
    clock reads 100 s and, 5 ms later, 100.005 s. *)
Definition script_recording : libc :=
  Scenario.with_getenv
    (λ v, if String.eqb v "UMOCKDEV_SCRIPT_RECORD_DEV_0" then Some "48128"
          else if String.eqb v "UMOCKDEV_SCRIPT_RECORD_FILE_0"
               then Some "/tmp/tty.script"
               else None)
    (Scenario.with_k_fstat
       (λ _, SysOk {| st_mode := 8576; st_rdev := 48128 |})
       (Scenario.with_k_fopen (λ _ _, 77)
          (Scenario.clock_reading
             [Scenario.at_msec 0; Scenario.at_msec 5]))).

(** The system calls of that run: [read] delivers [data], [write] takes
    all it is given, the environment string of the log file name lies at
    address 9000. *)
Definition script_io (data : list Z) : libc_io :=
  {| k_unlink := λ _, SysErr 2;
     k_bind := λ _ _ _, SysOk ();
     k_open := λ _ _ _, SysOk 9;
     k_close := λ _, SysOk ();
     k_read := λ _ _, SysOk data;
     k_write := λ _ _ count, SysOk count;
     k_fread := λ _ _ _, (0, []);
     k_fwrite := λ _ _ _ _, 0;
     k_fgets := λ _ _, Some data;
     k_ferror := λ _, 0;
     k_fileno := λ _, 9;
     k_malloc := λ n, 8000 + 16 * Z.of_nat n;
     env_addr := λ _, 9000 |}.

(** The library after it has read that configuration. *)
Definition script_configured : world :=
  set_cstrings {[ 9000 := "/tmp/tty.script" ]}
    (set_script_dev_logfile_map (Scenario.one_entry 48128 9000)
       (set_script_dev_logfile_map_inited 1 start)).

(** ... and after descriptor 9 was opened at 100 s: its record lies at
    address 8000. *)
Definition script_opened : world :=
  set_mallocs 1
    (set_lib
       (set_script_recorded_fds (Scenario.one_entry 9 8000)
          (set_srinfo_heap
             {[ 8000 := fresh_script_record_info 77 (Scenario.at_msec 0) ]}
             (set_clock_ticks 1
                (set_streams {[ 77 := [] ]}
                   (add_event (EvFopen "/tmp/tty.script" "w") initial)))))
       script_configured).

End Runs.

(** * Properties *)

(** ** The scanning loop *)

Lemma scan_Some P i n k :
  scan P i n = Some k ↔
  (i ≤ k < i + n)%nat ∧ P k = true ∧ ∀ j, (i ≤ j < k)%nat → P j = false.
Proof.
  revert i. induction n as [|n IH]; intros i; simpl.
  - split; [discriminate | intros [? _]; lia].
  - destruct (P i) eqn:HP.
    + split.
      * intros [= <-]. split; [lia|]. split; [done|]. intros j ?; lia.
      * intros (Hr & Hk & Hlt). f_equal.
        destruct (decide (i = k)) as [|Hne]; [done|].
        rewrite Hlt in HP by lia. discriminate.
    + rewrite IH. split.
      * intros (Hr & Hk & Hlt). split; [lia|]. split; [done|].
        intros j Hj. destruct (decide (j = i)) as [->|]; [done|].
        apply Hlt; lia.
      * intros (Hr & Hk & Hlt).
        assert (i ≠ k) by (intros ->; congruence).
        split; [lia|]. split; [done|]. intros j Hj. apply Hlt; lia.
Qed.

Lemma scan_None P i n :
  scan P i n = None ↔ ∀ j, (i ≤ j < i + n)%nat → P j = false.
Proof.
  revert i. induction n as [|n IH]; intros i; simpl.
  - split; [intros _ j ?; lia | done].
  - destruct (P i) eqn:HP.
    + split; [discriminate|]. intros H. rewrite H in HP by lia. discriminate.
    + rewrite IH. split.
      * intros H j Hj. destruct (decide (j = i)) as [->|]; [done|].
        apply H; lia.
      * intros H j Hj. apply H; lia.
Qed.

(** ** The descriptor registry *)

Section Registry.

Import FdMap.

Lemma rd_insert_eq (a : list Z) (i : nat) (v : Z) :
  (i < length a)%nat → rd (<[i := v]> a) i = v.
Proof. intros H. unfold rd. by rewrite list_lookup_insert_eq. Qed.

Lemma rd_insert_ne (a : list Z) (i j : nat) (v : Z) :
  i ≠ j → rd (<[i := v]> a) j = rd a j.
Proof. intros H. unfold rd. by rewrite list_lookup_insert_ne. Qed.

Lemma filter_all {A} (P : A → Prop) `{∀ x, Decision (P x)} (l : list A) :
  (∀ x, x ∈ l → P x) → filter P l = l.
Proof.
  induction l as [|x l IH]; intros H0; [done|].
  rewrite filter_cons_True by (apply H0; left).
  f_equal. apply IH. intros y Hy. apply H0. by right.
Qed.

(** A table with fewer than [FD_MAP_MAX] entries has a free slot, so the
    loop of [fd_map_add] finds one. *)
Lemma free_slot_found (t : fd_map) :
  (entries t < FD_MAP_MAX)%nat →
  ∃ i, scan (slot_free t) 0 FD_MAP_MAX = Some i.
Proof.
  intros Hlt. destruct (scan (slot_free t) 0 FD_MAP_MAX) as [i|] eqn:Hs.
  - by exists i.
  - exfalso. rewrite scan_None in Hs. unfold entries in Hlt.
    assert (Hall : filter (λ i, slot_free t i = false) (seq 0 FD_MAP_MAX)
                   = seq 0 FD_MAP_MAX).
    { apply filter_all. intros j Hj.
      apply elem_of_seq in Hj. apply Hs. lia. }
    rewrite Hall, length_seq in Hlt. lia.
Qed.

Lemma get_absent_iff (t : fd_map) (fd : Z) :
  fst (fd_map_get t fd) = 0 ↔
  ∀ j, (j < FD_MAP_MAX)%nat → slot_has t fd j = false.
Proof.
  unfold fd_map_get.
  destruct (scan (slot_has t fd) 0 FD_MAP_MAX) as [i|] eqn:Hs; simpl.
  - split; [discriminate|]. intros H.
    apply scan_Some in Hs as (Hr & Hk & _). rewrite H in Hk by lia.
    discriminate.
  - split; [|done]. intros _ j Hj. rewrite scan_None in Hs. apply Hs. lia.
Qed.

Lemma get_absent (t : fd_map) (fd : Z) :
  (∀ j, (j < FD_MAP_MAX)%nat → slot_has t fd j = false) →
  fd_map_get t fd = (0, NULL).
Proof.
  intros H. unfold fd_map_get.
  destruct (scan (slot_has t fd) 0 FD_MAP_MAX) as [i|] eqn:Hs; [|done].
  apply scan_Some in Hs as (Hr & Hk & _). rewrite H in Hk by lia.
  discriminate.
Qed.

(** C7 -- Registry round trip.  For every table [t] (three arrays of
    [FD_MAP_MAX] elements), descriptor [fd] and payload [p], with [fd] not
    present in [t] and [t] holding fewer than 50 entries: [fd_map_add]
    returns, after it [fd_map_get] reports [fd] present with payload [p];
    a subsequent [fd_map_remove] returns, and after it [fd_map_get]
    reports [fd] absent. *)
Theorem fd_map_round_trip (t : fd_map) (fd p : Z) :
  wf t →
  fst (fd_map_get t fd) = 0 →
  (entries t < 50)%nat →
  ∃ t1, fd_map_add t fd p = Ok t1 ∧
        fd_map_get t1 fd = (1, p) ∧
        ∃ t2, fd_map_remove t1 fd = Ok t2 ∧
              fd_map_get t2 fd = (0, NULL).
Proof.
  intros (Hls & Hlf & Hld) Habs Hcnt.
  destruct (free_slot_found t Hcnt) as [i Hi].
  rewrite get_absent_iff in Habs.
  pose proof Hi as Hi'. apply scan_Some in Hi' as (Hr & _ & _).
  assert (Hin : (i < FD_MAP_MAX)%nat) by lia.
  unfold fd_map_add. rewrite Hi.
  set (t1 := {| map_set := <[i := 1]> (map_set t);
                map_fd := <[i := fd]> (map_fd t);
                map_data := <[i := p]> (map_data t) |}).
  assert (Hhas1 : ∀ j, (j < FD_MAP_MAX)%nat →
                       slot_has t1 fd j = bool_decide (j = i)).
  { intros j Hj. unfold slot_has, t1; simpl.
    destruct (decide (j = i)) as [->|Hne].
    - rewrite !rd_insert_eq by lia. rewrite Z.eqb_refl.
      by rewrite bool_decide_eq_true_2.
    - rewrite !rd_insert_ne by congruence.
      rewrite bool_decide_eq_false_2 by done. by apply Habs. }
  assert (Hscan1 : scan (slot_has t1 fd) 0 FD_MAP_MAX = Some i).
  { apply scan_Some. split; [lia|]. split.
    - rewrite Hhas1 by lia. by apply bool_decide_eq_true_2.
    - intros j Hj. rewrite Hhas1 by lia. apply bool_decide_eq_false_2. lia. }
  exists t1. split; [done|]. split.
  { unfold fd_map_get. rewrite Hscan1. f_equal. unfold t1; simpl.
    apply rd_insert_eq. lia. }
  unfold fd_map_remove. rewrite Hscan1. eexists. split; [done|].
  apply get_absent. intros j Hj. unfold slot_has; simpl.
  destruct (decide (j = i)) as [->|Hne].
  - rewrite rd_insert_eq by (rewrite length_insert; lia). done.
  - rewrite rd_insert_ne by congruence.
    specialize (Hhas1 j Hj). unfold slot_has in Hhas1; simpl in Hhas1.
    rewrite Hhas1. by apply bool_decide_eq_false_2.
Qed.

(** The round trip at the empty table, descriptor 7 and payload 4711. *)
Lemma fd_map_round_trip_witness :
  ∃ t1, fd_map_add FdMap.empty 7 4711 = Ok t1 ∧
        fd_map_get t1 7 = (1, 4711) ∧
        ∃ t2, fd_map_remove t1 7 = Ok t2 ∧
              fd_map_get t2 7 = (0, NULL).
Proof.
  apply (fd_map_round_trip FdMap.empty 7 4711).
  - repeat split.
  - reflexivity.
  - vm_compute. lia.
Defined.

End Registry.

(** ** Netlink emulation *)

Section Netlink.

Import FdMap CLib Preload Notions.
Local Open Scope Z_scope.

(** C6, as amended -- [recvmsg] on a wrapped descriptor whose real receive
    returns a positive byte count, with a sender buffer supplied by the
    caller: the sender is overwritten to netlink family, pid 0, group 2,
    and the uid of the first control message, when there is one, to 0; the
    payload is what the real call delivered.  A receive on a descriptor
    that is not wrapped, a failed receive and a receive that returns no
    bytes hand back what the real call produced. *)
Theorem recvmsg_fakes_netlink_sender (L : libc) (sockfd : Z) (msg : msghdr)
    (flags : Z) (s : globals) :
  (∀ n received sender,
     fst (fd_map_get (wrapped_sockets s) sockfd) ≠ 0 →
     k_recvmsg L sockfd msg flags = SysOk (n, received) →
     0 < n →
     msg_name received = Some sender →
     ∃ msg', recvmsg L sockfd msg flags s = Ok (n, msg', s) ∧
             msg_name msg' = Some netlink_sender ∧
             msg_iov msg' = msg_iov received ∧
             ∀ cmsg, CMSG_FIRSTHDR received = Some cmsg →
                     ∃ cmsg', CMSG_FIRSTHDR msg' = Some cmsg' ∧
                              uid (cmsg_data cmsg') = 0) ∧
  (∀ n received,
     fst (fd_map_get (wrapped_sockets s) sockfd) = 0 →
     k_recvmsg L sockfd msg flags = SysOk (n, received) →
     recvmsg L sockfd msg flags s = Ok (n, received, s)) ∧
  (∀ e,
     k_recvmsg L sockfd msg flags = SysErr e →
     recvmsg L sockfd msg flags s = Ok (-1, msg, set_errno e s)) ∧
  (∀ n received,
     k_recvmsg L sockfd msg flags = SysOk (n, received) →
     n ≤ 0 →
     recvmsg L sockfd msg flags s = Ok (n, received, s)).
Proof.
  repeat split.
  - intros n received sender Hw Hk Hn Hname.
    unfold recvmsg. rewrite Hk.
    apply Z.eqb_neq in Hw. rewrite Hw.
    apply Z.ltb_lt in Hn. rewrite Hn. simpl. rewrite Hname.
    eexists. split; [reflexivity|]. simpl. split; [done|]. split; [done|].
    intros cmsg Hc. unfold CMSG_FIRSTHDR in *; simpl.
    destruct (sizeof_cmsghdr <=? msg_controllen received); [|done].
    rewrite Hc. eexists. split; [reflexivity|]. done.
  - intros n received Hw Hk. unfold recvmsg. rewrite Hk, Hw. done.
  - intros e Hk. unfold recvmsg. rewrite Hk.
    replace (0 <? -1) with false by done. by rewrite andb_false_r.
  - intros n received Hk Hn. unfold recvmsg. rewrite Hk.
    replace (0 <? n) with false by (symmetry; apply Z.ltb_ge; lia).
    by rewrite andb_false_r.
Qed.

(** A three-byte uevent datagram on the wrapped descriptor 5: the Unix
    sender and the uid 1000 are replaced. *)
Lemma recvmsg_fakes_netlink_sender_witness :
  ∃ msg', recvmsg (Scenario.delivering [97; 100; 100]) 5 Scenario.empty_msg 0
                  Scenario.uevent_socket_state
          = Ok (3, msg', Scenario.uevent_socket_state) ∧
          msg_name msg' = Some netlink_sender ∧
          msg_iov msg' = [97; 100; 100] ∧
          ∀ cmsg, CMSG_FIRSTHDR (Scenario.received_datagram [97; 100; 100])
                  = Some cmsg →
                  ∃ cmsg', CMSG_FIRSTHDR msg' = Some cmsg' ∧
                           uid (cmsg_data cmsg') = 0.
Proof.
  apply (proj1 (recvmsg_fakes_netlink_sender
                  (Scenario.delivering [97; 100; 100]) 5 Scenario.empty_msg 0
                  Scenario.uevent_socket_state)
               3 (Scenario.received_datagram [97; 100; 100])
               Scenario.unix_sender).
  - vm_compute. discriminate.
  - reflexivity.
  - lia.
  - reflexivity.
Defined.

(** C6, as stated, fails: a successful receive of an empty datagram on the
    wrapped descriptor 5 returns 0 and leaves the Unix sender and the
    sender's uid in the message. *)
Lemma recvmsg_empty_datagram_counterexample :
  ¬ (∀ (L : libc) (sockfd : Z) (msg : msghdr) (flags : Z) (s : globals)
       (n : Z) (received : msghdr),
       fst (fd_map_get (wrapped_sockets s) sockfd) ≠ 0 →
       k_recvmsg L sockfd msg flags = SysOk (n, received) →
       ∃ msg' s', recvmsg L sockfd msg flags s = Ok (n, msg', s') ∧
                  msg_name msg' = Some netlink_sender).
Proof.
  intros H.
  destruct (H (Scenario.delivering []) 5 Scenario.empty_msg 0
              Scenario.uevent_socket_state 0 (Scenario.received_datagram []))
    as (msg' & s' & Hr & Hn).
  - vm_compute. discriminate.
  - reflexivity.
  - vm_compute in Hr. injection Hr as <- <-. vm_compute in Hn. discriminate.
Qed.

End Netlink.

(** ** Script recording *)

Section Script.

Import FdMap CLib Preload TraceFormat Notions.
Local Open Scope Z_scope.

Lemma written_putc_eq (c f : Z) (s : globals) :
  written f (putc c f s) = written f s ++ [c mod 256].
Proof. unfold written at 1, putc. simpl. by rewrite lookup_insert_eq. Qed.

Lemma record_byte_written (f : Z) (s : globals) (c : Z) :
  is_byte c →
  written f (record_byte f s c) = written f s ++ caret_escape c.
Proof.
  intros Hc. unfold record_byte, caret_escape, is_byte in *.
  destruct (c <? 32) eqn:H32.
  - apply Z.ltb_lt in H32.
    rewrite !written_putc_eq, <- app_assoc. simpl.
    rewrite (Z.mod_small (c + 64)) by lia. done.
  - destruct (c =? 94) eqn:H94.
    + apply Z.eqb_eq in H94 as ->.
      rewrite !written_putc_eq, <- app_assoc. done.
    + rewrite written_putc_eq, Z.mod_small by lia. done.
Qed.

Lemma record_byte_frame (f : Z) (s : globals) (c : Z) :
  srinfo_heap (record_byte f s c) = srinfo_heap s.
Proof.
  unfold record_byte.
  destruct (c <? 32); [done|]. by destruct (c =? 94).
Qed.

(** The escaping loop appends the caret notation of each byte, in order. *)
Lemma escape_loop_written (f : Z) (buf : list Z) (s : globals) :
  Forall is_byte buf →
  written f (fold_left (record_byte f) buf s)
  = written f s ++ flat_map caret_escape buf.
Proof.
  revert s. induction buf as [|c buf IH]; intros s Hb; simpl.
  - by rewrite app_nil_r.
  - inversion Hb as [|? ? Hc Hb']; subst.
    rewrite IH by done. rewrite record_byte_written by done.
    by rewrite <- app_assoc.
Qed.

Lemma escape_loop_frame (f : Z) (buf : list Z) (s : globals) :
  srinfo_heap (fold_left (record_byte f) buf s) = srinfo_heap s.
Proof.
  revert s. induction buf as [|c buf IH]; intros s; simpl; [done|].
  by rewrite IH, record_byte_frame.
Qed.


Lemma dec_digits_value (fuel : nat) (n : Z) (acc : list Z) :
  (0 < fuel)%nat →
  0 ≤ n < 2 ^ Z.of_nat fuel →
  ∃ ds, dec_digits fuel n acc = ds ++ acc ∧
        dec_value ds = n ∧
        Forall (λ c, 48 ≤ c ≤ 57) ds.
Proof.
  revert n acc. induction fuel as [|fuel IH]; intros n acc Hf Hn; [lia|].
  simpl dec_digits.
  pose proof (Z.mod_pos_bound n 10 ltac:(lia)) as Hmod.
  pose proof (Z.div_mod n 10 ltac:(lia)) as Hdm.
  destruct (n / 10 =? 0) eqn:Hq.
  - apply Z.eqb_eq in Hq. exists [48 + n mod 10]. split; [done|]. split.
    + unfold dec_value. simpl. lia.
    + constructor; [lia | constructor].
  - apply Z.eqb_neq in Hq.
    assert (Hpos : 0 < 2 ^ Z.of_nat fuel) by (apply Z.pow_pos_nonneg; lia).
    assert (Hpow : 2 ^ Z.of_nat (S fuel) = 2 * 2 ^ Z.of_nat fuel).
    { rewrite Nat2Z.inj_succ, Z.pow_succ_r by lia. done. }
    assert (Hdiv : 0 ≤ n / 10 < 2 ^ Z.of_nat fuel).
    { split; [apply Z.div_pos; lia|].
      apply Z.div_lt_upper_bound; lia. }
    assert (Hfuel : (0 < fuel)%nat).
    { destruct fuel; [|lia]. simpl in Hdiv. lia. }
    destruct (IH (n / 10) ((48 + n mod 10) :: acc) Hfuel Hdiv)
      as (ds & Heq & Hval & Hdig).
    exists (ds ++ [48 + n mod 10]). split; [|split].
    + rewrite Heq. by rewrite <- app_assoc.
    + unfold dec_value in *. rewrite fold_left_app, Hval. simpl. lia.
    + apply Forall_app. split; [done|]. constructor; [lia | constructor].
Qed.

(** [fmt_lu] writes its argument in decimal. *)
Lemma fmt_lu_decimal (n : Z) :
  0 ≤ n →
  dec_value (fmt_lu n) = n ∧ Forall (λ c, 48 ≤ c ≤ 57) (fmt_lu n).
Proof.
  intros Hn. unfold fmt_lu.
  destruct (dec_digits_value (S (Z.to_nat (Z.log2 n))) n [])
    as (ds & Heq & Hv & Hd).
  - lia.
  - split; [done|]. rewrite Nat2Z.inj_succ, Z2Nat.id by apply Z.log2_nonneg.
    destruct (decide (n = 0)) as [->|]; [done|].
    apply Z.log2_spec. lia.
  - rewrite Heq, app_nil_r. done.
Qed.



Lemma written_putc_ne (c f g : Z) (s : globals) :
  f ≠ g → written g (putc c f s) = written g s.
Proof. intros H. unfold written, putc. simpl. by rewrite lookup_insert_ne. Qed.


Lemma to_long_range (z : Z) : - 2 ^ 63 ≤ to_long z < 2 ^ 63.
Proof.
  unfold to_long. pose proof (Z.mod_pos_bound (z + 2 ^ 63) (2 ^ 64)). lia.
Qed.

Lemma to_long_small (z : Z) : - 2 ^ 63 ≤ z < 2 ^ 63 → to_long z = z.
Proof. intros Hz. unfold to_long. rewrite Z.mod_small by lia. lia. Qed.

(** Sums of longs are taken modulo 2^64. *)
Lemma to_long_add (a b : Z) : to_long (to_long a + to_long b) = to_long (a + b).
Proof.
  unfold to_long.
  rewrite (Z.mod_eq (a + 2 ^ 63) (2 ^ 64)), (Z.mod_eq (b + 2 ^ 63) (2 ^ 64))
    by lia.
  set (ka := (a + 2 ^ 63) / 2 ^ 64). set (kb := (b + 2 ^ 63) / 2 ^ 64).
  replace (a + 2 ^ 63 - 2 ^ 64 * ka - 2 ^ 63
           + (b + 2 ^ 63 - 2 ^ 64 * kb - 2 ^ 63) + 2 ^ 63)
    with (a + b + 2 ^ 63 + (- ka - kb) * 2 ^ 64) by lia.
  by rewrite Z.mod_add by lia.
Qed.

(** The [long delta] of [update_msec] is below 2^63. *)
Lemma elapsed_msec_range (tm now : timespec) :
  - 2 ^ 63 ≤ elapsed_msec tm now < 2 ^ 63.
Proof. apply to_long_range. Qed.







(** Two writes with no measured delay make one record; a read after
    them, or a write 12 ms later, starts a new one. *)
Example script_coalescing :
  Scenario.log_text 77
    (Scenario.script_run
       (Scenario.clock_reading
          [Scenario.at_msec 0; Scenario.at_msec 0; Scenario.at_msec 0;
           Scenario.at_msec 12])
       9 [(119, [65; 84]); (119, [90; 13]); (114, [79; 75]); (114, [94])]
       Scenario.recording_state)
  = Some (bytes_of_string "w 0 ATZ^M" ++ [10] ++ bytes_of_string "r 0 OK"
          ++ [10] ++ bytes_of_string "r 12 ^^").
Proof. vm_compute. reflexivity. Qed.

End Script.

(** ** The path trapper *)

(** Case analysis on the comparisons of characters in the goal. *)
Ltac split_chars :=
  repeat match goal with
  | H : context [ascii_dec ?a ?b] |- _ => destruct (ascii_dec a b); subst
  | |- context [ascii_dec ?a ?b] => destruct (ascii_dec a b); subst
  | H : context [Ascii.eqb ?a ?b] |- _ => destruct (Ascii.eqb_spec a b); subst
  | |- context [Ascii.eqb ?a ?b] => destruct (Ascii.eqb_spec a b); subst
  end.

Section Trapper.

Import FdMap CLib Preload Notions.
Local Open Scope string_scope.
Local Open Scope list_scope.
Local Open Scope Z_scope.

Lemma set_errno_same (s : globals) : set_errno (errno s) s = s.
Proof. by destruct s. Qed.

Lemma set_errno_twice (a b : Z) (s : globals) :
  set_errno a (set_errno b s) = set_errno a s.
Proof. done. Qed.

Lemma strlen_nonneg (str : string) : 0 ≤ strlen str.
Proof. unfold strlen. lia. Qed.

Lemma str_take_app (a b : string) :
  str_take (String.length a) (a +:+ b) = a.
Proof. induction a as [|c a IH]; simpl; [by destruct b | by rewrite IH]. Qed.

Lemma str_take_all (n : nat) (str : string) :
  (String.length str ≤ n)%nat → str_take n str = str.
Proof.
  revert n. induction str as [|c str IH]; intros n Hn.
  - by destruct n.
  - destruct n as [|n]; simpl in *; [lia|]. rewrite IH by lia. done.
Qed.

(** A path outside /dev and /sys goes through [trap_path] unchanged, and
    nothing is touched. *)
Lemma trap_path_untrapped (depth : nat) (L : libc) (p : cptr) (s : globals) :
  trapped_path (deref s p) = false →
  trap_path (S depth) L p s = Ok (p, s).
Proof.
  intros Hun. simpl. unfold trap_path_body.
  destruct (is_null p); [done|].
  destruct (getenv L "UMOCKDEV_DIR"); [|done].
  unfold trapped_path in Hun.
  apply orb_false_iff in Hun as [Hun Hsys].
  apply orb_false_iff in Hun as [Hun Hsyss].
  rewrite Hun, Hsyss, Hsys. done.
Qed.

(** The probe of a path outside /dev and /sys asks the real file system
    and leaves the whole state as it was. *)
Lemma path_exists_untrapped (depth : nat) (L : libc) (p : cptr)
    (s : globals) :
  is_null p = false →
  trapped_path (deref s p) = false →
  path_exists (S depth) L p s
  = Ok (if file_exists L (deref s p) then 0 else -1, s).
Proof.
  intros Hp Hun. unfold path_exists, path_exists_with, access_with, wrap_with.
  rewrite trap_path_untrapped by done. simpl. rewrite Hp.
  unfold real_access, file_exists.
  destruct (k_access L (deref s p)); simpl.
  - by rewrite set_errno_same.
  - by rewrite set_errno_twice, set_errno_same.
Qed.

(** What [trap_path] does with a /dev path when the testbed's own files
    are not themselves under /dev or /sys and <root>/disabled fits the
    buffer: the shadow path if the testbed is not disabled and the shadow
    file exists, the original path otherwise. *)
Lemma trap_path_dev (depth : nat) (L : libc) (root path : string)
    (s : globals) :
  getenv L "UMOCKDEV_DIR" = Some root →
  starts_with path "/dev/" = true ∨ path = "/dev" →
  strlen root + strlen path < sizeof_buf →
  strlen root + 9 < sizeof_buf →
  trapped_path (root +:+ "/disabled") = false →
  trapped_path (root +:+ path) = false →
  trap_path (S (S depth)) L (PStr path) s
  = if file_exists L (root +:+ "/disabled")
    then Ok (PStr path, set_trap_buf (root +:+ "/disabled") s)
    else if file_exists L (root +:+ path)
         then Ok (PBuf, set_trap_buf (root +:+ path) s)
         else Ok (PStr path, set_trap_buf (root +:+ path) s).
Proof.
  intros Henv Hdev Hlen Hroot Hd Hp.
  change (trap_path (S (S depth)) L (PStr path) s)
    with (trap_path_body (trap_path (S depth) L) L (PStr path) s).
  unfold trap_path_body. simpl is_null. cbv iota. rewrite Henv. simpl deref.
  assert (Hce : starts_with path "/dev/" || streq path "/dev" = true).
  { destruct Hdev as [-> | ->]; [done | by rewrite orb_true_r]. }
  rewrite Hce. simpl negb. cbv iota. simpl andb. cbv iota.
  pose proof (strlen_nonneg root). pose proof (strlen_nonneg path).
  unfold wrap64. rewrite Z.mod_small by (unfold sizeof_buf, PATH_MAX in *; lia).
  replace (sizeof_buf <=? strlen path + strlen root) with false
    by (symmetry; apply Z.leb_gt; lia).
  replace (sizeof_buf <? strlen root + 10) with false
    by (symmetry; apply Z.ltb_ge; lia).
  fold (path_exists (S depth) L).
  rewrite path_exists_untrapped by done. simpl deref.
  unfold rbind at 1.
  destruct (file_exists L (root +:+ "/disabled")); [done|].
  change (-1 =? 0) with false. cbv iota.
  unfold rbind at 1. simpl trap_buf.
  unfold strlen. rewrite Nat2Z.id, str_take_app.
  rewrite path_exists_untrapped by done. simpl deref.
  unfold rbind.
  destruct (file_exists L (root +:+ path)); done.
Qed.

Lemma app_cons (c : ascii) (r x : string) :
  String c r +:+ x = String c (r +:+ x).
Proof. done. Qed.

Lemma app_nil (x : string) : "" +:+ x = x.
Proof. done. Qed.

Lemma app_assoc_str (a b c : string) : (a +:+ b) +:+ c = a +:+ (b +:+ c).
Proof.
  induction a as [|x a IH]; [done|]. rewrite !app_cons. by rewrite IH.
Qed.

(** Below a root that is not empty and not itself under /dev or /sys,
    nothing is under /dev or /sys. *)
Lemma outside_root (root rest : string) :
  root ≠ "" → trapped_path root = false →
  trapped_path (root +:+ String "/" rest) = false.
Proof.
  intros Hne Hun.
  unfold trapped_path, starts_with, streq in *.
  destruct root as [|c1 [|c2 [|c3 [|c4 [|c5 r]]]]]; [done|..];
    rewrite ?app_cons, ?app_nil;
    cbn [String.prefix String.eqb] in *;
    split_chars; try done; try congruence.
  all: destruct r; simpl in *; done.
Qed.

Lemma trapped_path_slash (path : string) :
  trapped_path path = true → ∃ rest, path = String "/" rest.
Proof.
  unfold trapped_path, starts_with, streq.
  destruct path as [|c rest]; [done|].
  cbn [String.prefix String.eqb]. split_chars; [eauto | done | done | done].
Qed.

(** The /dev rule of the path trapper, where it holds.  With a testbed
    root that is not empty and not itself under /dev or /sys, root and
    path shorter together than the buffer, and room in the buffer for
    <root>/disabled: for a path equal to /dev or starting with /dev/,
    [trap_path] returns the shadow path <root><path> (in its static
    buffer) if the <root>/disabled marker does not exist and the shadow
    path exists, and the path it was given otherwise; errno is left as it
    was. *)
Lemma trap_path_dev_outside_root (depth : nat) (L : libc)
    (root path : string) (s : globals) :
  getenv L "UMOCKDEV_DIR" = Some root →
  root ≠ "" →
  trapped_path root = false →
  starts_with path "/dev/" = true ∨ path = "/dev" →
  strlen root + strlen path < sizeof_buf →
  strlen root + 9 < sizeof_buf →
  ∃ p s', trap_path (S (S depth)) L (PStr path) s = Ok (p, s') ∧
          errno s' = errno s ∧
          (file_exists L (root +:+ "/disabled") = false ∧
           file_exists L (root +:+ path) = true →
           p = PBuf ∧ trap_buf s' = root +:+ path) ∧
          (¬ (file_exists L (root +:+ "/disabled") = false ∧
              file_exists L (root +:+ path) = true) →
           p = PStr path).
Proof.
  intros Henv Hne Hun Hdev Hlen Hroot.
  assert (Htr : trapped_path path = true).
  { unfold trapped_path. destruct Hdev as [-> | ->]; [done|].
    by rewrite orb_true_r. }
  destruct (trapped_path_slash path Htr) as [rest ->].
  rewrite (trap_path_dev depth L root (String "/" rest) s Henv Hdev Hlen
             Hroot);
    [| by apply (outside_root root "disabled") | by apply outside_root ].
  destruct (file_exists L (root +:+ "/disabled")).
  - eexists _, _. split; [done|]. split; [done|]. split.
    + by intros [? _].
    + done.
  - destruct (file_exists L (root +:+ String "/" rest)).
    + eexists _, _. split; [done|]. split; [done|]. split; [done|].
      intros H. exfalso. by apply H.
    + eexists _, _. split; [done|]. split; [done|]. split.
      * by intros [_ ?].
      * done.
Qed.

Lemma strlen_app (a b : string) : strlen (a +:+ b) = strlen a + strlen b.
Proof.
  unfold strlen. induction a as [|c a IH]; cbn [String.length].
  - done.
  - change (String c a +:+ b) with (String c (a +:+ b)).
    cbn [String.length]. lia.
Qed.

(** With a testbed root that is itself under /dev or /sys, the probe of
    <root>/disabled is trapped again, and again: the recursion through the
    [access] wrapper does not end. *)
Lemma trap_path_nested_overflow (depth : nat) (L : libc) (root : string)
    (s : globals) :
  getenv L "UMOCKDEV_DIR" = Some root →
  trapped_path (root +:+ "/disabled") = true →
  2 * strlen root + 9 < sizeof_buf →
  trap_buf s = root +:+ "/disabled" →
  trap_path depth L PBuf s = Stop StackOverflow.
Proof.
  intros Henv Htr Hlen. revert s.
  induction depth as [|depth IH]; intros s Hbuf; [done|].
  simpl. unfold trap_path_body. simpl is_null. cbv iota.
  rewrite Henv. simpl deref. rewrite Hbuf.
  unfold trapped_path in Htr.
  destruct (starts_with (root +:+ "/disabled") "/dev/"
            || streq (root +:+ "/disabled") "/dev") eqn:Hce.
  - simpl negb. simpl andb. cbv iota.
    rewrite strlen_app. change (strlen "/disabled") with 9.
    pose proof (strlen_nonneg root).
    unfold wrap64.
    rewrite Z.mod_small by (unfold sizeof_buf, PATH_MAX in *; lia).
    replace (sizeof_buf <=? strlen root + 9 + strlen root) with false
      by (symmetry; apply Z.leb_gt; lia).
    replace (sizeof_buf <? strlen root + 10) with false
      by (symmetry; apply Z.ltb_ge; lia).
    unfold path_exists_with, access_with, wrap_with.
    rewrite IH by done. done.
  - simpl in Htr. simpl negb.
    destruct (starts_with (root +:+ "/disabled") "/sys/"); simpl in *.
    + rewrite strlen_app. change (strlen "/disabled") with 9.
      pose proof (strlen_nonneg root).
      unfold wrap64.
      rewrite Z.mod_small by (unfold sizeof_buf, PATH_MAX in *; lia).
      replace (sizeof_buf <=? strlen root + 9 + strlen root) with false
        by (symmetry; apply Z.leb_gt; lia).
      replace (sizeof_buf <? strlen root + 10) with false
        by (symmetry; apply Z.ltb_ge; lia).
      unfold path_exists_with, access_with, wrap_with.
      rewrite IH by done. done.
    + rewrite Htr. simpl.
      rewrite strlen_app. change (strlen "/disabled") with 9.
      pose proof (strlen_nonneg root).
      unfold wrap64.
      rewrite Z.mod_small by (unfold sizeof_buf, PATH_MAX in *; lia).
      replace (sizeof_buf <=? strlen root + 9 + strlen root) with false
        by (symmetry; apply Z.leb_gt; lia).
      replace (sizeof_buf <? strlen root + 10) with false
        by (symmetry; apply Z.ltb_ge; lia).
      unfold path_exists_with, access_with, wrap_with.
      rewrite IH by done. done.
Qed.

Lemma trap_path_overflow (depth : nat) (L : libc) (root path : string)
    (s : globals) :
  getenv L "UMOCKDEV_DIR" = Some root →
  trapped_path (root +:+ "/disabled") = true →
  2 * strlen root + 9 < sizeof_buf →
  trapped_path path = true →
  strlen root + strlen path < sizeof_buf →
  trap_path depth L (PStr path) s = Stop StackOverflow.
Proof.
  intros Henv Htr Hlen Hp Hplen.
  destruct depth as [|depth]; [done|].
  simpl. unfold trap_path_body. simpl is_null. cbv iota.
  rewrite Henv. simpl deref.
  assert (Hcond : negb (starts_with path "/dev/" || streq path "/dev")
                  && negb (starts_with path "/sys/")
                  && negb (streq path "/sys") = false).
  { unfold trapped_path in Hp.
    destruct (starts_with path "/dev/" || streq path "/dev"); [done|].
    destruct (starts_with path "/sys/"); [done|].
    simpl in *. by rewrite Hp. }
  rewrite Hcond.
  pose proof (strlen_nonneg root). pose proof (strlen_nonneg path).
  unfold wrap64. rewrite Z.mod_small by (unfold sizeof_buf, PATH_MAX in *; lia).
  replace (sizeof_buf <=? strlen path + strlen root) with false
    by (symmetry; apply Z.leb_gt; lia).
  replace (sizeof_buf <? strlen root + 10) with false
    by (symmetry; apply Z.ltb_ge; lia).
  unfold path_exists_with, access_with, wrap_with.
  rewrite (trap_path_nested_overflow depth L root) by done. done.
Qed.

(** C1 -- at the failing input.  With [UMOCKDEV_DIR=/dev/shm/tb], no
    [disabled] marker and an existing shadow file
    [/dev/shm/tb/dev/null], [trap_path("/dev/null")] does not return the
    shadow path: whatever the stack holds, the recursion through the
    library's own [access] wrapper exhausts it. *)
Theorem trap_path_root_under_dev (depth : nat) (s : globals) :
  trap_path depth
    (Scenario.testbed "/dev/shm/tb" ["/dev/shm/tb/dev/null"])
    (PStr "/dev/null") s
  = Stop StackOverflow.
Proof. by apply (trap_path_overflow depth _ "/dev/shm/tb"). Qed.

(** C8 -- Name too long.  For a /dev or /sys path and a configured root
    whose combined length reaches [sizeof(buf)], [trap_path] returns NULL
    with errno ENAMETOOLONG, and nothing else changes; the WRAP_nARGS
    wrappers then return their failure value and the __xstat wrappers -1,
    without calling the real function. *)
Theorem trap_path_name_too_long (depth : nat) (L : libc) (root path : string)
    (s : globals) :
  trapped_path path = true →
  getenv L "UMOCKDEV_DIR" = Some root →
  sizeof_buf ≤ strlen root + strlen path < 2 ^ 64 →
  trap_path (S depth) L (PStr path) s
  = Ok (PNull, set_errno ENAMETOOLONG s) ∧
  (∀ (R : Type) (failret : R) (fn : string → globals → R * globals),
     wrap_path (S depth) L failret fn (PStr path) s
     = Ok (failret, set_errno ENAMETOOLONG s)) ∧
  (∀ (fn : Z → string → sysret stat) (ver : Z) (st : stat),
     xstat (S depth) L fn ver (PStr path) st s
     = Ok (-1, st, set_errno ENAMETOOLONG s)).
Proof.
  intros Hp Henv Hlen.
  assert (Htrap : trap_path (S depth) L (PStr path) s
                  = Ok (PNull, set_errno ENAMETOOLONG s)).
  { simpl. unfold trap_path_body. simpl is_null. cbv iota.
    rewrite Henv. simpl deref.
    assert (Hcond : negb (starts_with path "/dev/" || streq path "/dev")
                    && negb (starts_with path "/sys/")
                    && negb (streq path "/sys") = false).
    { unfold trapped_path in Hp.
      destruct (starts_with path "/dev/" || streq path "/dev"); [done|].
      destruct (starts_with path "/sys/"); [done|].
      simpl in *. by rewrite Hp. }
    rewrite Hcond. unfold wrap64. rewrite Z.mod_small.
    - replace (sizeof_buf <=? strlen path + strlen root) with true
        by (symmetry; apply Z.leb_le; lia).
      done.
    - pose proof (strlen_nonneg root). pose proof (strlen_nonneg path). lia. }
  split; [exact Htrap|]. split.
  - intros R failret fn. unfold wrap_path, wrap_with. by rewrite Htrap.
  - intros fn ver st. unfold xstat. by rewrite Htrap.
Qed.

(** A root of 8188 characters and the path [/dev]: 8192 in all. *)
Lemma trap_path_name_too_long_witness :
  let L := Scenario.testbed Scenario.long_root [] in
  trap_path 1 L (PStr "/dev") initial
  = Ok (PNull, set_errno ENAMETOOLONG initial) ∧
  (∀ (R : Type) (failret : R) (fn : string → globals → R * globals),
     wrap_path 1 L failret fn (PStr "/dev") initial
     = Ok (failret, set_errno ENAMETOOLONG initial)) ∧
  (∀ (fn : Z → string → sysret stat) (ver : Z) (st : stat),
     xstat 1 L fn ver (PStr "/dev") st initial
     = Ok (-1, st, set_errno ENAMETOOLONG initial)).
Proof.
  apply (trap_path_name_too_long 0 _ Scenario.long_root "/dev" initial).
  - reflexivity.
  - reflexivity.
  - vm_compute. split; [discriminate | reflexivity].
Defined.

End Trapper.

(** ** Probes and errno *)

Section Probes.

Import FdMap CLib Preload Notions.
Local Open Scope string_scope.
Local Open Scope list_scope.
Local Open Scope Z_scope.

Lemma path_exists_errno (depth : nat) (L : libc) (path : cptr)
    (s s' : globals) (res : Z) :
  path_exists depth L path s = Ok (res, s') → errno s' = errno s.
Proof.
  unfold path_exists, path_exists_with.
  destruct (access_with _ L path s) as [[res1 s1]|]; simpl; [|done].
  by intros [= <- <-].
Qed.

Lemma dev_of_fd_state (L : libc) (fd : Z) (s : globals) :
  snd (dev_of_fd L fd s) = s.
Proof.
  unfold dev_of_fd. destruct (k_fstat L fd) as [st|e]; simpl.
  - rewrite set_errno_same.
    by destruct (S_ISCHR (st_mode st) || S_ISBLK (st_mode st)).
  - by rewrite set_errno_twice, set_errno_same.
Qed.

Lemma is_emulated_device_errno (depth : nat) (L : libc) (path : cptr)
    (mode : Z) (s s' : globals) (b : bool) :
  is_emulated_device depth L path mode s = Ok (b, s') → errno s' = errno s.
Proof.
  unfold is_emulated_device. destruct (S_ISLNK mode).
  - destruct (readlink _ _ _ _ _) as [[[res stored] s1]|]; simpl; [|done].
    destruct (0 <? res); simpl; [|done]. by intros [= <- <-].
  - by intros [= <- <-].
Qed.

(** The link of a node lies below the root. *)
Lemma readlink_untrapped (depth : nat) (L : libc) (str : string)
    (bufsiz : Z) (s : globals) :
  trapped_path str = false →
  readlink (S depth) L (PStr str) bufsiz s
  = Ok (real_readlink L bufsiz str s).
Proof.
  intros Hun. unfold readlink, wrap_path, wrap_with.
  by rewrite trap_path_untrapped.
Qed.


(** What [get_rdev] returns, for a testbed root that is not empty and not
    under /dev or /sys and a node name that fits the buffer.  The errno
    of entry is put back after the [readlink]; the [sscanf] that follows
    is the last call, and what it stores in errno stays there. *)
Lemma get_rdev_reads_link (depth : nat) (L : libc) (nodename : string)
    (s : globals) :
  node_root L ≠ "" →
  trapped_path (node_root L) = false →
  strlen (node_root L) + 11 + strlen nodename < PATH_MAX →
  get_rdev (S depth) L nodename s
  = match k_readlink L (node_root L +:+ "/dev/.node/"
                        +:+ str_map slash_to_underscore nodename) with
    | SysErr _ => Ok (0, s)
    | SysOk target =>
        let text :=
          overlay (str_take (Z.to_nat PATH_MAX) target) (get_rdev_link s) in
        let s1 := set_get_rdev_link text s in
        let s2 := match sscanf_errno L text with
                  | Some e => set_errno e s1
                  | None => s1
                  end in
        let '(n, major, minor) := sscanf_i_colon_i text in
        Ok (if n =? 2 then makedev major minor else 0, s2)
    end.
Proof.
  intros Hne Hun Hlen.
  pose proof (strlen_nonneg (node_root L)) as Hr0.
  pose proof (strlen_nonneg nodename) as Hn0.
  unfold get_rdev. fold (node_root L).
  rewrite strlen_app. change (strlen "/dev/.node/") with 11.
  unfold wrap64. rewrite Z.mod_small by (unfold PATH_MAX in *; lia).
  replace (PATH_MAX <=? PATH_MAX - (strlen (node_root L) + 11) - 1)
    with false by (symmetry; apply Z.leb_gt; lia).
  rewrite str_take_all by (unfold strlen, PATH_MAX in *; lia).
  rewrite (app_assoc_str (node_root L)).
  rewrite readlink_untrapped by (by apply outside_root).
  unfold rbind, real_readlink.
  destruct (k_readlink L _) as [target|e].
  - generalize (str_take (Z.to_nat PATH_MAX) target). intros stored.
    replace (strlen stored <? 0) with false
      by (symmetry; apply Z.ltb_ge; apply strlen_nonneg).
    cbv zeta. cbn [get_rdev_link set_get_rdev_link set_errno].
    set (text := overlay stored (get_rdev_link s)).
    change (errno s) with (errno (set_get_rdev_link text s)).
    rewrite set_errno_same.
    destruct (sscanf_i_colon_i text) as [[n major] minor].
    by destruct (n =? 2).
  - change (-1 <? 0) with true. cbv iota.
    by rewrite set_errno_twice, set_errno_same.
Qed.

(** C10 -- Probes and errno.  The existence check [path_exists], the
    device-number lookup [dev_of_fd] and the link probe of
    [is_emulated_device] put errno back after their system call: whenever
    they return, errno has the value it had at entry, and the existence
    check of a path outside /dev and /sys returns, 0 or -1, with the whole
    state as it was.  The .node link resolution [get_rdev] (for a testbed
    root that is not empty and not under /dev or /sys, and a node name
    that fits the buffer) does so only when the link cannot be read: it
    then returns 0 with the state as it was.  When the link can be read,
    errno is put back before the [sscanf] that decodes the link text, not
    after it: [get_rdev] returns with whatever that [sscanf] stored in
    errno, and with the errno of entry only if it stored nothing. *)
Theorem probes_errno (depth : nat) (L : libc) (nodename : string)
    (s : globals) :
  node_root L ≠ "" →
  trapped_path (node_root L) = false →
  strlen (node_root L) + 11 + strlen nodename < PATH_MAX →
  let link :=
    node_root L +:+ "/dev/.node/" +:+ str_map slash_to_underscore nodename in
  (∀ path res s',
     path_exists depth L path s = Ok (res, s') → errno s' = errno s) ∧
  (∀ fd, errno (snd (dev_of_fd L fd s)) = errno s) ∧
  (∀ path mode b s',
     is_emulated_device depth L path mode s = Ok (b, s') →
     errno s' = errno s) ∧
  (∀ str,
     trapped_path str = false →
     path_exists (S depth) L (PStr str) s
     = Ok (if file_exists L str then 0 else -1, s)) ∧
  (∀ e, k_readlink L link = SysErr e →
        get_rdev (S depth) L nodename s = Ok (0, s)) ∧
  (∀ target,
     k_readlink L link = SysOk target →
     ∃ rdev s',
       get_rdev (S depth) L nodename s = Ok (rdev, s') ∧
       get_rdev_link s'
       = overlay (str_take (Z.to_nat PATH_MAX) target) (get_rdev_link s) ∧
       errno s' = default (errno s) (sscanf_errno L (get_rdev_link s'))).
Proof.
  intros Hne Hun Hlen link.
  pose proof (get_rdev_reads_link depth L nodename s Hne Hun Hlen) as Hrd.
  fold link in Hrd.
  split; [|split; [|split; [|split; [|split]]]].
  - intros path res s'. apply path_exists_errno.
  - intros fd. by rewrite dev_of_fd_state.
  - intros path mode b s'. apply is_emulated_device_errno.
  - intros str Hun'. by apply (path_exists_untrapped depth L (PStr str)).
  - intros e He. by rewrite Hrd, He.
  - intros target Ht. rewrite Hrd, Ht. cbv zeta.
    set (text := overlay (str_take (Z.to_nat PATH_MAX) target)
                   (get_rdev_link s)).
    destruct (sscanf_i_colon_i text) as [[n major] minor].
    eexists _, _. split; [reflexivity|].
    destruct (sscanf_errno L text) as [e|] eqn:He; simpl; by rewrite He.
Qed.

(** The node [sda] of the testbed under /tmp/tb whose link reads
    99999999999999999999:1, with errno 5 at entry: the link is read, the
    [sscanf] stores ERANGE, and [get_rdev] returns with errno 34. *)
Lemma probes_errno_witness :
  let L := Scenario.overflowing_node_testbed in
  let s := set_errno 5 initial in
  path_exists 1 L (PStr "/tmp/tb/disabled") s = Ok (-1, s) ∧
  errno (snd (dev_of_fd L 3 s)) = 5 ∧
  get_rdev 1 L "nil" s = Ok (0, s) ∧
  ∃ rdev s', get_rdev 1 L "sda" s = Ok (rdev, s') ∧
             get_rdev_link s' = "99999999999999999999:1" ∧
             errno s' = 34.
Proof.
  intros L s.
  destruct (probes_errno 0 L "sda" s ltac:(discriminate) eq_refl eq_refl)
    as (_ & Hdev & _ & Hpe & _ & Hrd).
  destruct (probes_errno 0 L "nil" s ltac:(discriminate) eq_refl eq_refl)
    as (_ & _ & _ & _ & Hnil & _).
  split; [|split; [|split]].
  - apply (Hpe "/tmp/tb/disabled"). reflexivity.
  - apply (Hdev 3).
  - apply (Hnil 22). reflexivity.
  - destruct (Hrd "99999999999999999999:1" eq_refl)
      as (rdev & s' & Hres & Hlink & Herr).
    exists rdev, s'. split; [exact Hres|]. split; [exact Hlink|].
    rewrite Herr, Hlink. reflexivity.
Defined.

End Probes.

(** ** Device node classification *)

Section Classifier.

Import FdMap CLib Preload Notions.
Local Open Scope string_scope.
Local Open Scope list_scope.
Local Open Scope Z_scope.

Lemma disjoint_bits_at (a b : Z) (n : Z) :
  disjoint_bits a b → Z.testbit a n && Z.testbit b n = false.
Proof.
  intros H. rewrite <- Z.land_spec, H. apply Z.bits_0.
Qed.

Ltac bitwise n :=
  apply Z.bits_inj'; intros n ?;
  repeat first [ rewrite Z.land_spec | rewrite Z.lor_spec
               | rewrite Z.lnot_spec by lia | rewrite Z.bits_0 ].


Lemma cleared_second_stays_clear (m a b c : Z) :
  disjoint_bits c b →
  Z.land (Z.lor (Z.land (Z.land m (Z.lnot a)) (Z.lnot b)) c) b = 0.
Proof.
  intros H. bitwise n. pose proof (disjoint_bits_at c b n H).
  destruct (Z.testbit m n), (Z.testbit a n), (Z.testbit b n),
    (Z.testbit c n); done.
Qed.



Lemma clear_other_keeps (m a b : Z) :
  disjoint_bits b a →
  Z.land (Z.land m (Z.lnot a)) b = Z.land m b.
Proof.
  intros H. bitwise n. pose proof (disjoint_bits_at b a n H).
  destruct (Z.testbit m n), (Z.testbit a n), (Z.testbit b n); done.
Qed.







(** The run behind it: mode S_IFREG | S_ISVTX | 0644 comes back as it
    is. *)
Example lstat_reports_shadow_mode :
  lstat 2 Scenario.disk_testbed (Scenario.disk_xstat 3) (PStr "/dev/sda")
    {| st_mode := 0; st_rdev := 0 |} initial
  = Ok ((0, {| st_mode := 33700; st_rdev := 0 |}),
        set_trap_buf "/tmp/tb/dev/sda" initial).
Proof. vm_compute. reflexivity. Qed.

(** The same call, evaluated: S_IFBLK | 0644 is 24996. *)
Example xstat_block_device :
  xstat 2 Scenario.disk_testbed Scenario.disk_xstat 3 (PStr "/dev/sda")
    {| st_mode := 0; st_rdev := 0 |} initial
  = Ok (0, {| st_mode := 24996; st_rdev := 2048 |},
        set_get_rdev_link "8:0" (set_trap_buf "/tmp/tb/dev/sda" initial)).
Proof. vm_compute. reflexivity. Qed.

End Classifier.

(** ** Ioctl replay and recording *)

Section Ioctl.

Import FdMap CLib Preload Notions.
Local Open Scope string_scope.
Local Open Scope list_scope.
Local Open Scope Z_scope.

(** C2, as amended -- Ioctl replay.  For a descriptor registered with a
    loaded tree: when [ioctl_tree_execute] finds a node for
    [(request, arg)] at the descriptor's cursor and the recorded result is
    not -2, [ioctl] returns the recorded result, makes no call outside (in
    particular not the real ioctl) and moves the cursor to the node; when
    it finds none, [ioctl] calls the real ioctl once, returns its result,
    and leaves the cursor where it was.  Every node found with the
    recorded result -2 is treated as unmatched: [ioctl] calls the real
    ioctl once and returns its result, not the -2; the cursor has
    nevertheless moved to the node. *)
Theorem ioctl_replay (L : libc) (d request arg : Z) (s : globals)
    (fdinfo : Z) (info : ioctl_fd_info) :
  fd_map_get (ioctl_wrapped_fds s) d = (1, fdinfo) →
  fdinfo_heap s !! fdinfo = Some info →
  tree info ≠ NULL →
  (∀ node z,
     ioctl_tree_execute L (tree info) (last info) request arg (-2)
     = (node, z) →
     node ≠ NULL →
     z ≠ -2 →
     ∃ s', ioctl L d request arg s = Ok (z, s') ∧
           trace s' = trace s ∧
           fdinfo_heap s' !! fdinfo
           = Some {| tree := tree info; last := node |}) ∧
  (ioctl_tree_execute L (tree info) (last info) request arg (-2)
   = (NULL, -2) →
   (ioctl_record_fd s = d → ioctl_record_log s ≠ NULL) →
   ∃ s' recorded,
     ioctl L d request arg s
     = Ok (sys_value (k_ioctl L d request arg), s') ∧
     trace s' = trace s ++ EvIoctl d request arg :: recorded ∧
     (∀ ev, ev ∈ recorded → ∃ t n, ev = EvTreeInsert t n) ∧
     fdinfo_heap s' !! fdinfo = Some info) ∧
  (∀ node,
     ioctl_tree_execute L (tree info) (last info) request arg (-2)
     = (node, -2) →
     node ≠ NULL →
     (ioctl_record_fd s = d → ioctl_record_log s ≠ NULL) →
     ∃ s' recorded,
       ioctl L d request arg s
       = Ok (sys_value (k_ioctl L d request arg), s') ∧
       trace s' = trace s ++ EvIoctl d request arg :: recorded ∧
       (∀ ev, ev ∈ recorded → ∃ t n, ev = EvTreeInsert t n) ∧
       fdinfo_heap s' !! fdinfo
       = Some {| tree := tree info; last := node |}).
Proof.
  intros Hget Hheap Htree.
  (* the result -2, with or without a node: the real ioctl is called *)
  assert (Hreal : ∀ node,
            ioctl_tree_execute L (tree info) (last info) request arg (-2)
            = (node, -2) →
            (ioctl_record_fd s = d → ioctl_record_log s ≠ NULL) →
            ∃ s' recorded,
              ioctl L d request arg s
              = Ok (sys_value (k_ioctl L d request arg), s') ∧
              trace s' = trace s ++ EvIoctl d request arg :: recorded ∧
              (∀ ev, ev ∈ recorded → ∃ t n, ev = EvTreeInsert t n) ∧
              fdinfo_heap s' !! fdinfo
              = Some (if node =? NULL then info
                      else {| tree := tree info; last := node |})).
  { intros node Hex Hrec.
    unfold ioctl, ioctl_emulate. rewrite Hget. change (1 =? 0) with false.
    simpl negb. cbv iota. rewrite Hheap, Hex.
    set (s0 := if negb (node =? NULL)
               then set_fdinfo_heap
                      (<[fdinfo := {| tree := tree info; last := node |}]>
                         (fdinfo_heap s)) s
               else s).
    assert (Htr0 : trace s0 = trace s)
      by (unfold s0; by destruct (node =? NULL)).
    assert (Hfd0 : ioctl_record_fd s0 = ioctl_record_fd s)
      by (unfold s0; by destruct (node =? NULL)).
    assert (Hlog0 : ioctl_record_log s0 = ioctl_record_log s)
      by (unfold s0; by destruct (node =? NULL)).
    assert (Hh0 : fdinfo_heap s0 !! fdinfo
                  = Some (if node =? NULL then info
                          else {| tree := tree info; last := node |})).
    { unfold s0. destruct (node =? NULL); simpl; [done|].
      by rewrite lookup_insert_eq. }
    rewrite <- Hfd0, <- Hlog0 in Hrec. rewrite <- Htr0, <- Hh0.
    clearbody s0.
    unfold rbind at 1. change (-2 =? -2) with true. simpl negb. cbv iota.
    destruct (k_ioctl L d request arg) as [r|e]; simpl sys_value.
    + destruct (negb (r =? -1) && (ioctl_record_fd (add_event _ s0) =? d))
        eqn:Hc.
      * apply andb_true_iff in Hc as [_ Hfd]. apply Z.eqb_eq in Hfd.
        simpl in Hfd. specialize (Hrec Hfd).
        unfold record_ioctl. simpl ioctl_record_log.
        apply Z.eqb_neq in Hrec. rewrite Hrec. simpl negb.
        unfold assert. unfold rbind at 2.
        destruct (ioctl_tree_new_from_bin L request arg r =? NULL).
        -- unfold rbind. eexists _, []. split; [reflexivity|].
           split; [done|]. split; [|done]. intros ev He. by inversion He.
        -- destruct (ioctl_record _ =? NULL); unfold rbind;
             eexists _, [_]; (split; [reflexivity|]);
             (split; [simpl; by rewrite <- app_assoc|]);
             (split; [|done]); intros ev He; apply list_elem_of_singleton in He;
             subst; eauto.
      * eexists _, []. split; [reflexivity|]. split; [done|].
        split; [|done]. intros ev He. by inversion He.
    + change (negb (-1 =? -1)) with false. simpl andb. cbv iota.
      eexists _, []. split; [reflexivity|]. split; [done|].
      split; [|done]. intros ev He. by inversion He. }
  split; [|split].
  - intros node z Hex Hnode Hz.
    unfold ioctl, ioctl_emulate. rewrite Hget. change (1 =? 0) with false.
    simpl negb. cbv iota. rewrite Hheap, Hex.
    apply Z.eqb_neq in Hnode. rewrite Hnode. simpl negb. cbv iota.
    unfold rbind. apply Z.eqb_neq in Hz. rewrite Hz. simpl negb. cbv iota.
    eexists. split; [reflexivity|]. split; [done|].
    simpl. by rewrite lookup_insert_eq.
  - intros Hex Hrec. apply (Hreal NULL Hex Hrec).
  - intros node Hex Hnode Hrec.
    destruct (Hreal node Hex Hrec) as (s' & recorded & Hr & Ht & Hev & Hh).
    exists s', recorded. split; [exact Hr|]. split; [exact Ht|].
    split; [exact Hev|].
    apply Z.eqb_neq in Hnode. by rewrite Hnode in Hh.
Qed.

(** Replay of the first recorded ioctl on descriptor 7, an ioctl the
    tree does not know, and an ioctl whose recorded result is -2. *)
Lemma ioctl_replay_witness :
  (∃ s', ioctl (Scenario.replaying Scenario.two_ioctls) 7 21761 42
           Scenario.replaying_state = Ok (1, s') ∧
         trace s' = [] ∧
         fdinfo_heap s' !! 2000 = Some {| tree := 3000; last := 3000 |}) ∧
  (∃ s' recorded,
     ioctl (Scenario.replaying Scenario.two_ioctls) 7 21777 0
       Scenario.replaying_state = Ok (-1, s') ∧
     trace s' = [] ++ EvIoctl 7 21777 0 :: recorded ∧
     (∀ ev, ev ∈ recorded → ∃ t n, ev = EvTreeInsert t n) ∧
     fdinfo_heap s' !! 2000 = Some {| tree := 3000; last := NULL |}) ∧
  (∃ s' recorded,
     ioctl (Scenario.replaying Scenario.minus_two_ioctl) 7 21761 42
       Scenario.replaying_state = Ok (-1, s') ∧
     trace s' = [] ++ EvIoctl 7 21761 42 :: recorded ∧
     (∀ ev, ev ∈ recorded → ∃ t n, ev = EvTreeInsert t n) ∧
     fdinfo_heap s' !! 2000 = Some {| tree := 3000; last := 3000 |}).
Proof.
  split; [|split].
  - apply (proj1 (ioctl_replay (Scenario.replaying Scenario.two_ioctls)
                    7 21761 42 Scenario.replaying_state 2000
                    {| tree := 3000; last := NULL |}
                    eq_refl eq_refl ltac:(discriminate)) 3000 1).
    + reflexivity.
    + discriminate.
    + discriminate.
  - apply (proj1 (proj2
             (ioctl_replay (Scenario.replaying Scenario.two_ioctls)
                7 21777 0 Scenario.replaying_state 2000
                {| tree := 3000; last := NULL |}
                eq_refl eq_refl ltac:(discriminate)))).
    + reflexivity.
    + discriminate.
  - apply (proj2 (proj2
             (ioctl_replay (Scenario.replaying Scenario.minus_two_ioctl)
                7 21761 42 Scenario.replaying_state 2000
                {| tree := 3000; last := NULL |}
                eq_refl eq_refl ltac:(discriminate))) 3000).
    + reflexivity.
    + discriminate.
    + discriminate.
Defined.

(** C2, as stated, fails: when the recorded result of the matching node is
    -2, [ioctl] takes it for "unhandled" and calls the real ioctl, whose
    result (here -1) it returns. *)
Lemma ioctl_replay_minus_two_counterexample :
  ¬ (∀ (L : libc) (d request arg : Z) (s : globals) (fdinfo : Z)
       (info : ioctl_fd_info) (node z : Z),
       fd_map_get (ioctl_wrapped_fds s) d = (1, fdinfo) →
       fdinfo_heap s !! fdinfo = Some info →
       tree info ≠ NULL →
       ioctl_tree_execute L (tree info) (last info) request arg (-2)
       = (node, z) →
       node ≠ NULL →
       ∃ s', ioctl L d request arg s = Ok (z, s') ∧ trace s' = trace s).
Proof.
  intros H.
  destruct (H (Scenario.replaying Scenario.minus_two_ioctl) 7 21761 42
              Scenario.replaying_state 2000 {| tree := 3000; last := NULL |}
              3000 (-2))
    as (s' & Hr & Ht).
  - reflexivity.
  - reflexivity.
  - discriminate.
  - reflexivity.
  - discriminate.
  - vm_compute in Hr. discriminate.
Qed.

(** The run behind it: the real ioctl is called and its -1 returned. *)
Example ioctl_replay_minus_two_run :
  ∃ s', ioctl (Scenario.replaying Scenario.minus_two_ioctl) 7 21761 42
          Scenario.replaying_state = Ok (-1, s') ∧
        trace s' = [EvIoctl 7 21761 42] ∧
        fdinfo_heap s' !! 2000 = Some {| tree := 3000; last := 3000 |}.
Proof. eexists. split; [vm_compute; reflexivity|]. split; reflexivity. Qed.

(** C9 -- A second open takes over the recording.  While a recording
    session is active on some descriptor (the record file is open and the
    target device is configured), [ioctl_record_open] on another opened
    descriptor of the target device returns with that descriptor as the
    recording descriptor; the record file, the recorded tree and every
    other variable are as before, and no call is made: the earlier
    session is neither closed nor flushed. *)
Theorem ioctl_record_open_reassigns (depth : nat) (L : libc) (fd : Z)
    (s : globals) :
  0 ≤ ioctl_record_fd s →
  ioctl_record_log s ≠ NULL →
  record_rdev s ≠ dev_t_minus_1 →
  record_rdev s ≠ 0 →
  0 ≤ fd →
  fst (dev_of_fd L fd s) = record_rdev s →
  ioctl_record_open depth L fd s = Ok (set_ioctl_record_fd fd s) ∧
  ioctl_record_fd (set_ioctl_record_fd fd s) = fd ∧
  ioctl_record_log (set_ioctl_record_fd fd s) = ioctl_record_log s ∧
  ioctl_record (set_ioctl_record_fd fd s) = ioctl_record s ∧
  trace (set_ioctl_record_fd fd s) = trace s.
Proof.
  intros Hactive Hlog Hinit Hrdev Hfd Hdev.
  split; [|done].
  unfold ioctl_record_open.
  replace (fd <? 0) with false by (symmetry; apply Z.ltb_ge; lia).
  apply Z.eqb_neq in Hinit. rewrite Hinit.
  apply Z.eqb_neq in Hrdev. rewrite Hrdev.
  pose proof (dev_of_fd_state L fd s) as Hst.
  destruct (dev_of_fd L fd s) as [dev s0]. simpl in Hdev, Hst. subst dev s0.
  rewrite Z.eqb_refl. simpl negb. cbv iota.
  apply Z.eqb_neq in Hlog. simpl ioctl_record_log. rewrite Hlog. done.
Qed.

(** Two opens of the recorded device, descriptors 3 and 4, from the
    initial state. *)
Lemma ioctl_record_open_reassigns_witness :
  ∃ s1, ioctl_record_open 1 Scenario.recording 3 initial = Ok s1 ∧
        ioctl_record_fd s1 = 3 ∧
        ioctl_record_open 1 Scenario.recording 4 s1
        = Ok (set_ioctl_record_fd 4 s1) ∧
        ioctl_record_fd (set_ioctl_record_fd 4 s1) = 4 ∧
        ioctl_record_log (set_ioctl_record_fd 4 s1) = ioctl_record_log s1 ∧
        ioctl_record (set_ioctl_record_fd 4 s1) = ioctl_record s1 ∧
        trace (set_ioctl_record_fd 4 s1) = trace s1.
Proof.
  eexists. split; [vm_compute; reflexivity|]. split; [reflexivity|].
  apply (ioctl_record_open_reassigns 1 Scenario.recording 4).
  - vm_compute. discriminate.
  - vm_compute. discriminate.
  - vm_compute. discriminate.
  - vm_compute. discriminate.
  - lia.
  - vm_compute. reflexivity.
Defined.

(** The trace of those two opens, followed by an ioctl on each of the two
    descriptors: the record file is opened and read once, by the first
    open; nothing is written or flushed by the second; afterwards the
    ioctl on descriptor 3 is no longer recorded, the one on descriptor 4
    is. *)
Example two_opens_trace :
  (let* s1 := ioctl_record_open 1 Scenario.recording 3 initial in
   let* s2 := ioctl_record_open 1 Scenario.recording 4 s1 in
   let* (_, s3) := ioctl Scenario.recording 3 21761 42 s2 in
   let* (_, s4) := ioctl Scenario.recording 4 21761 42 s3 in
   Ok (ioctl_record_fd s2, trace s2, trace s4))
  = Ok (4,
        [EvFopen "/tmp/rec.ioctl" "a+"; EvTreeRead 600],
        [EvFopen "/tmp/rec.ioctl" "a+"; EvTreeRead 600;
         EvIoctl 3 21761 42;
         EvIoctl 4 21761 42; EvTreeInsert NULL 5000]).
Proof. vm_compute. reflexivity. Qed.

End Ioctl.

(** * Further properties *)

(** ** The descriptor registry: capacity, absence, interference *)

Section RegistryMore.

Import FdMap Slots.

Lemma scan_ext (P Q : nat → bool) (i n : nat) :
  (∀ j, (i ≤ j < i + n)%nat → P j = Q j) → scan P i n = scan Q i n.
Proof.
  revert i. induction n as [|n IH]; intros i H; simpl; [done|].
  rewrite <- (H i) by lia. destruct (P i); [done|].
  apply IH. intros j Hj. apply H. lia.
Qed.

Lemma filter_agree (P Q : nat → Prop) `{∀ x, Decision (P x)}
    `{∀ x, Decision (Q x)} (l : list nat) :
  (∀ j, j ∈ l → (P j ↔ Q j)) → filter P l = filter Q l.
Proof.
  induction l as [|x l IH]; intros Hiff; [done|].
  assert (Hl : filter P l = filter Q l).
  { apply IH. intros j Hj. apply Hiff. by right. }
  destruct (decide (P x)) as [HPx|HPx].
  - rewrite (filter_cons_True P) by done.
    rewrite (filter_cons_True Q) by (apply Hiff; [left|done]).
    by rewrite Hl.
  - rewrite (filter_cons_False P) by done.
    rewrite (filter_cons_False Q); [done|].
    intros HQx. apply HPx, Hiff; [left|done].
Qed.

(** Turning the predicate on at one element of a duplicate-free list adds
    one to the count. *)
Lemma filter_length_flip (P Q : nat → Prop) `{∀ x, Decision (P x)}
    `{∀ x, Decision (Q x)} (l : list nat) (i : nat) :
  NoDup l → i ∈ l → ¬ P i → Q i → (∀ j, j ≠ i → (P j ↔ Q j)) →
  length (filter Q l) = S (length (filter P l)).
Proof.
  intros Hnd Hin HnP HQ Hiff.
  induction l as [|x l IH]; [by apply elem_of_nil in Hin|].
  apply NoDup_cons in Hnd as [Hx Hnd].
  destruct (decide (x = i)) as [->|Hne].
  - rewrite (filter_cons_True Q) by done.
    rewrite (filter_cons_False P) by done. simpl. f_equal.
    f_equal. symmetry. apply filter_agree.
    intros j Hj. apply Hiff. intros ->. done.
  - apply elem_of_cons in Hin as [->|Hin]; [done|].
    specialize (IH Hnd Hin).
    destruct (decide (P x)) as [HPx|HPx].
    + rewrite (filter_cons_True P) by done.
      rewrite (filter_cons_True Q) by (by apply Hiff). simpl. by rewrite IH.
    + rewrite (filter_cons_False P) by done.
      rewrite (filter_cons_False Q) by (intros HQx; by apply HPx, Hiff).
      done.
Qed.

Lemma entries_le (t : fd_map) : (entries t ≤ FD_MAP_MAX)%nat.
Proof.
  unfold entries.
  etransitivity; [apply length_filter|]. by rewrite length_seq.
Qed.

Lemma add_at_wf t i fd p : wf t → wf (add_at t i fd p).
Proof.
  intros (Hs & Hf & Hd). unfold wf, add_at; simpl.
  by rewrite !length_insert.
Qed.

Lemma clear_at_wf t i : wf t → wf (clear_at t i).
Proof.
  intros (Hs & Hf & Hd). unfold wf, clear_at; simpl.
  by rewrite !length_insert.
Qed.

Lemma add_at_entries t i fd p :
  wf t → (i < FD_MAP_MAX)%nat → slot_free t i = true →
  entries (add_at t i fd p) = S (entries t).
Proof.
  intros (Hs & _ & _) Hi Hfree. unfold entries.
  apply (filter_length_flip _ _ _ i).
  - apply NoDup_seq.
  - apply elem_of_seq. lia.
  - by rewrite Hfree.
  - unfold slot_free, add_at; simpl. by rewrite rd_insert_eq by lia.
  - intros j Hj. unfold slot_free, add_at; simpl.
    by rewrite rd_insert_ne by done.
Qed.

Lemma clear_at_entries t i :
  wf t → (i < FD_MAP_MAX)%nat → slot_free t i = false →
  S (entries (clear_at t i)) = entries t.
Proof.
  intros (Hs & _ & _) Hi Hused. unfold entries. symmetry.
  apply (filter_length_flip _ _ _ i).
  - apply NoDup_seq.
  - apply elem_of_seq. lia.
  - unfold slot_free, clear_at; simpl. by rewrite rd_insert_eq by lia.
  - done.
  - intros j Hj. unfold slot_free, clear_at; simpl.
    by rewrite rd_insert_ne by done.
Qed.

Lemma slot_has_used t fd i : slot_has t fd i = true → slot_free t i = false.
Proof.
  unfold slot_has, slot_free. intros H.
  apply andb_true_iff in H as [H _]. by apply negb_true_iff in H.
Qed.

Lemma get_present_iff (t : fd_map) (fd : Z) :
  fst (fd_map_get t fd) = 1 ↔
  ∃ j, (j < FD_MAP_MAX)%nat ∧ slot_has t fd j = true.
Proof.
  unfold fd_map_get.
  destruct (scan (slot_has t fd) 0 FD_MAP_MAX) as [i|] eqn:Hs; simpl.
  - split; [|done]. intros _. apply scan_Some in Hs as (Hr & Hk & _).
    exists i. split; [lia|done].
  - split; [discriminate|]. intros (j & Hj & Hhas).
    rewrite scan_None in Hs. rewrite Hs in Hhas by lia. discriminate.
Qed.

Lemma get_fst_cases (t : fd_map) (fd : Z) :
  fst (fd_map_get t fd) = 0 ∨ fst (fd_map_get t fd) = 1.
Proof.
  unfold fd_map_get. destruct (scan _ _ _); simpl; auto.
Qed.

(** X1 -- Capacity of the registry.  A table (three arrays of 50 elements)
    never holds more than 50 entries.  While it holds fewer, [fd_map_add]
    returns, the table stays well formed, holds one entry more and reports
    the descriptor present; once it holds 50, [fd_map_add] aborts the
    process. *)
Theorem fd_map_add_capacity (t : fd_map) (fd p : Z) :
  wf t →
  (entries t ≤ 50)%nat ∧
  ((entries t < 50)%nat →
     ∃ t1, fd_map_add t fd p = Ok t1 ∧ wf t1 ∧
           entries t1 = S (entries t) ∧ fst (fd_map_get t1 fd) = 1) ∧
  (entries t = 50%nat → fd_map_add t fd p = Stop Aborted).
Proof.
  intros Hwf. split; [apply entries_le|]. split.
  - intros Hlt. destruct (free_slot_found t Hlt) as [i Hi].
    pose proof Hi as Hi'. apply scan_Some in Hi' as (Hr & Hfree & _).
    assert (Hin : (i < FD_MAP_MAX)%nat) by lia.
    exists (add_at t i fd p). unfold fd_map_add. rewrite Hi.
    split; [done|]. split; [by apply add_at_wf|].
    split; [by apply add_at_entries|].
    apply get_present_iff. exists i. split; [done|].
    destruct Hwf as (Hs & Hf & _).
    unfold slot_has, add_at; simpl.
    rewrite !rd_insert_eq by lia. by rewrite Z.eqb_refl.
  - intros Hfull. unfold fd_map_add.
    destruct (scan (slot_free t) 0 FD_MAP_MAX) as [i|] eqn:Hs; [|done].
    exfalso. apply scan_Some in Hs as (Hr & Hfree & _).
    (* a free slot would add a 51st entry *)
    pose proof (add_at_entries t i 0 0 Hwf ltac:(lia) Hfree) as Hadd.
    pose proof (entries_le (add_at t i 0 0)) as Hle.
    unfold FD_MAP_MAX in Hle. lia.
Qed.

(** The capacity rule at the empty table. *)
Lemma fd_map_add_capacity_witness :
  (entries FdMap.empty ≤ 50)%nat ∧
  ((entries FdMap.empty < 50)%nat →
     ∃ t1, fd_map_add FdMap.empty 3 9 = Ok t1 ∧ wf t1 ∧
           entries t1 = S (entries FdMap.empty) ∧
           fst (fd_map_get t1 3) = 1) ∧
  (entries FdMap.empty = 50%nat →
     fd_map_add FdMap.empty 3 9 = Stop Aborted).
Proof.
  apply (fd_map_add_capacity FdMap.empty 3 9). by vm_compute.
Defined.

(** X2 -- Removing from the registry.  On a well-formed table,
    [fd_map_remove] returns exactly when [fd_map_get] reports the
    descriptor present, and then the table stays well formed and holds one
    entry less; for a descriptor that is not registered it aborts the
    process. *)
Theorem fd_map_remove_needs_entry (t : fd_map) (fd : Z) :
  wf t →
  (fst (fd_map_get t fd) = 1 →
     ∃ t1, fd_map_remove t fd = Ok t1 ∧ wf t1 ∧
           S (entries t1) = entries t) ∧
  (fst (fd_map_get t fd) = 0 → fd_map_remove t fd = Stop Aborted).
Proof.
  intros Hwf. unfold fd_map_get, fd_map_remove.
  destruct (scan (slot_has t fd) 0 FD_MAP_MAX) as [i|] eqn:Hs; simpl.
  - split; [|discriminate]. intros _.
    apply scan_Some in Hs as (Hr & Hhas & _).
    exists (clear_at t i). split; [done|].
    split; [by apply clear_at_wf|].
    apply clear_at_entries; [done|lia|]. by apply (slot_has_used t fd).
  - split; [discriminate|done].
Qed.

(** Removing descriptor 5 from a table that holds it. *)
Lemma fd_map_remove_needs_entry_witness :
  (fst (fd_map_get (Scenario.one_entry 5 9) 5) = 1 →
     ∃ t1, fd_map_remove (Scenario.one_entry 5 9) 5 = Ok t1 ∧ wf t1 ∧
           S (entries t1) = entries (Scenario.one_entry 5 9)) ∧
  (fst (fd_map_get (Scenario.one_entry 5 9) 5) = 0 →
     fd_map_remove (Scenario.one_entry 5 9) 5 = Stop Aborted).
Proof.
  apply (fd_map_remove_needs_entry (Scenario.one_entry 5 9) 5).
  by vm_compute.
Defined.

Lemma add_at_has_other t i fd fd' p j :
  wf t → slot_free t i = true → fd ≠ fd' →
  slot_has (add_at t i fd p) fd' j = slot_has t fd' j.
Proof.
  intros (Hs & Hf & _) Hfree Hne. unfold slot_has, add_at; simpl.
  destruct (decide (j = i)) as [->|Hji].
  - unfold slot_free in Hfree. rewrite Hfree. simpl.
    destruct (decide (i < length (map_set t))%nat) as [Hi|Hi].
    + rewrite !rd_insert_eq by lia. simpl. apply Z.eqb_neq. done.
    + rewrite !list_insert_ge by lia. by rewrite Hfree.
  - by rewrite !rd_insert_ne by done.
Qed.

Lemma clear_at_has_other t i fd fd' j :
  slot_has t fd i = true → fd ≠ fd' →
  slot_has (clear_at t i) fd' j = slot_has t fd' j.
Proof.
  intros Hhas Hne. unfold slot_has, clear_at in *; simpl.
  apply andb_true_iff in Hhas as [Hset Hfd]. apply Z.eqb_eq in Hfd.
  destruct (decide (j = i)) as [->|Hji].
  - rewrite Hfd. replace (fd =? fd') with false
      by (symmetry; by apply Z.eqb_neq).
    by rewrite !andb_false_r.
  - by rewrite rd_insert_ne by done.
Qed.

(** X3 -- Registry entries do not interfere.  On a well-formed table,
    adding or removing a descriptor leaves what [fd_map_get] answers for
    every other descriptor (presence and payload) as it was. *)
Theorem fd_map_other_descriptors (t : fd_map) (fd fd' p : Z) :
  wf t → fd ≠ fd' →
  (∀ t1, fd_map_add t fd p = Ok t1 →
         fd_map_get t1 fd' = fd_map_get t fd') ∧
  (∀ t1, fd_map_remove t fd = Ok t1 →
         fd_map_get t1 fd' = fd_map_get t fd').
Proof.
  intros Hwf Hne. split; intros t1.
  - unfold fd_map_add.
    destruct (scan (slot_free t) 0 FD_MAP_MAX) as [i|] eqn:Hs; [|done].
    intros [= <-]. apply scan_Some in Hs as (Hr & Hfree & _).
    fold (add_at t i fd p). unfold fd_map_get.
    rewrite (scan_ext (slot_has (add_at t i fd p) fd') (slot_has t fd'))
      by (intros j _; by apply add_at_has_other).
    destruct (scan (slot_has t fd') 0 FD_MAP_MAX) as [k|] eqn:Hk; [|done].
    f_equal. apply scan_Some in Hk as (_ & Hhas & _).
    assert (k ≠ i).
    { intros ->. apply slot_has_used in Hhas. congruence. }
    unfold add_at; simpl. by rewrite rd_insert_ne by done.
  - unfold fd_map_remove.
    destruct (scan (slot_has t fd) 0 FD_MAP_MAX) as [i|] eqn:Hs; [|done].
    intros [= <-]. apply scan_Some in Hs as (Hr & Hhas & _).
    fold (clear_at t i). unfold fd_map_get.
    rewrite (scan_ext (slot_has (clear_at t i) fd') (slot_has t fd'))
      by (intros j _; by apply (clear_at_has_other t i fd)).
    done.
Qed.

(** Descriptor 7 next to descriptor 5. *)
Lemma fd_map_other_descriptors_witness :
  (∀ t1, fd_map_add (Scenario.one_entry 5 9) 7 4 = Ok t1 →
         fd_map_get t1 5 = fd_map_get (Scenario.one_entry 5 9) 5) ∧
  (∀ t1, fd_map_remove (Scenario.one_entry 5 9) 7 = Ok t1 →
         fd_map_get t1 5 = fd_map_get (Scenario.one_entry 5 9) 5).
Proof.
  apply (fd_map_other_descriptors (Scenario.one_entry 5 9) 7 5 4);
    by vm_compute.
Defined.

(** X4 -- A descriptor registered twice.  [fd_map_add] does not look for
    the descriptor: adding one that is already present takes a second
    slot, and after one [fd_map_remove] the descriptor is still reported
    present. *)
Theorem fd_map_add_twice (t : fd_map) (fd p : Z) :
  wf t →
  fst (fd_map_get t fd) = 1 →
  (entries t < 50)%nat →
  ∃ t1 t2, fd_map_add t fd p = Ok t1 ∧
           entries t1 = S (entries t) ∧
           fd_map_remove t1 fd = Ok t2 ∧
           fst (fd_map_get t2 fd) = 1.
Proof.
  intros Hwf Hpres Hcnt.
  destruct (free_slot_found t Hcnt) as [i Hi].
  pose proof Hi as Hi'. apply scan_Some in Hi' as (Hr & Hfree & _).
  apply get_present_iff in Hpres as (j & Hj & Hhasj).
  assert (Hji : j ≠ i).
  { intros ->. apply slot_has_used in Hhasj. congruence. }
  pose proof Hwf as (Hls & Hlf & Hld).
  assert (Hhas1i : slot_has (add_at t i fd p) fd i = true).
  { unfold slot_has, add_at; simpl.
    rewrite !rd_insert_eq by lia. by rewrite Z.eqb_refl. }
  assert (Hhas1j : slot_has (add_at t i fd p) fd j = true).
  { unfold slot_has, add_at; simpl.
    by rewrite !rd_insert_ne by done. }
  destruct (scan (slot_has (add_at t i fd p) fd) 0 FD_MAP_MAX)
    as [k|] eqn:Hk.
  - exists (add_at t i fd p), (clear_at (add_at t i fd p) k).
    split; [unfold fd_map_add; by rewrite Hi|].
    split; [apply add_at_entries; [done|lia|done]|].
    split; [unfold fd_map_remove; by rewrite Hk|].
    apply get_present_iff.
    (* of the two slots that hold fd, the one not cleared remains *)
    assert (Hkeep : ∀ m, m ≠ k →
              slot_has (clear_at (add_at t i fd p) k) fd m
              = slot_has (add_at t i fd p) fd m).
    { intros m Hm. unfold slot_has, clear_at; simpl.
      by rewrite rd_insert_ne by done. }
    destruct (decide (k = i)) as [->|Hki].
    + exists j. split; [done|]. by rewrite Hkeep.
    + exists i. split; [lia|]. by rewrite Hkeep.
  - exfalso. rewrite scan_None in Hk. rewrite Hk in Hhas1i by lia.
    discriminate.
Qed.

(** Descriptor 5 registered a second time. *)
Lemma fd_map_add_twice_witness :
  ∃ t1 t2, fd_map_add (Scenario.one_entry 5 9) 5 4 = Ok t1 ∧
           entries t1 = S (entries (Scenario.one_entry 5 9)) ∧
           fd_map_remove t1 5 = Ok t2 ∧
           fst (fd_map_get t2 5) = 1.
Proof.
  apply (fd_map_add_twice (Scenario.one_entry 5 9) 5 4);
    [by vm_compute | by vm_compute | vm_compute; lia].
Defined.

(** Adding an absent descriptor at the free slot the loop finds, and
    removing it again. *)
Lemma add_at_found (t : fd_map) (fd p : Z) (i : nat) :
  wf t →
  fst (fd_map_get t fd) = 0 →
  scan (slot_free t) 0 FD_MAP_MAX = Some i →
  scan (slot_has (add_at t i fd p) fd) 0 FD_MAP_MAX = Some i.
Proof.
  intros (Hs & Hf & Hd) Habs Hi.
  rewrite get_absent_iff in Habs.
  apply scan_Some in Hi as (Hr & _ & _).
  apply scan_Some. split; [lia|]. split.
  - unfold slot_has, add_at; simpl.
    rewrite !rd_insert_eq by lia. by rewrite Z.eqb_refl.
  - intros j Hj. unfold slot_has, add_at; simpl.
    rewrite !rd_insert_ne by lia. apply Habs. lia.
Qed.

Lemma add_at_get (t : fd_map) (fd p : Z) (i : nat) :
  wf t →
  fst (fd_map_get t fd) = 0 →
  scan (slot_free t) 0 FD_MAP_MAX = Some i →
  fd_map_get (add_at t i fd p) fd = (1, p).
Proof.
  intros Hwf Habs Hi. unfold fd_map_get.
  rewrite (add_at_found t fd p i Hwf Habs Hi).
  apply scan_Some in Hi as (Hr & _ & _).
  destruct Hwf as (_ & _ & Hd).
  unfold add_at; simpl. by rewrite rd_insert_eq by lia.
Qed.

Lemma add_at_removed (t : fd_map) (fd p : Z) (i : nat) :
  wf t →
  fst (fd_map_get t fd) = 0 →
  scan (slot_free t) 0 FD_MAP_MAX = Some i →
  fd_map_remove (add_at t i fd p) fd = Ok (clear_at (add_at t i fd p) i) ∧
  fd_map_get (clear_at (add_at t i fd p) i) fd = (0, NULL) ∧
  entries (clear_at (add_at t i fd p) i) = entries t.
Proof.
  intros Hwf Habs Hi.
  pose proof (add_at_found t fd p i Hwf Habs Hi) as Hfound.
  pose proof Hi as Hi'. apply scan_Some in Hi' as (Hr & Hfree & _).
  split; [unfold fd_map_remove; by rewrite Hfound|].
  split.
  - apply get_absent. intros j Hj.
    rewrite get_absent_iff in Habs.
    destruct Hwf as (Hs & Hf & _).
    unfold slot_has, clear_at, add_at; simpl.
    destruct (decide (j = i)) as [->|Hne].
    + rewrite rd_insert_eq by (rewrite length_insert; lia). done.
    + rewrite !rd_insert_ne by done. by apply Habs.
  - pose proof (add_at_entries t i fd p Hwf ltac:(lia) Hfree) as Hadd.
    pose proof (clear_at_entries (add_at t i fd p) i
                  (add_at_wf t i fd p Hwf) ltac:(lia)) as Hclr.
    assert (Hused : slot_free (add_at t i fd p) i = false).
    { destruct Hwf as (Hs & _ & _). unfold slot_free, add_at; simpl.
      by rewrite rd_insert_eq by lia. }
    specialize (Hclr Hused). lia.
Qed.

End RegistryMore.

(** ** The path wrappers: what the real function is called on *)

Section Redirect.

Import FdMap CLib Preload Notions.
Local Open Scope string_scope.
Local Open Scope list_scope.
Local Open Scope Z_scope.

(** What [trap_path] does with a /sys path when the testbed's own files
    are not themselves under /dev or /sys and <root>/disabled fits the
    buffer. *)
Lemma trap_path_sys (depth : nat) (L : libc) (root path : string)
    (s : globals) :
  getenv L "UMOCKDEV_DIR" = Some root →
  starts_with path "/dev/" || streq path "/dev" = false →
  starts_with path "/sys/" = true ∨ path = "/sys" →
  strlen root + strlen path < sizeof_buf →
  strlen root + 9 < sizeof_buf →
  trapped_path (root +:+ "/disabled") = false →
  trap_path (S (S depth)) L (PStr path) s
  = if file_exists L (root +:+ "/disabled")
    then Ok (PStr path, set_trap_buf (root +:+ "/disabled") s)
    else Ok (PBuf, set_trap_buf (root +:+ path) s).
Proof.
  intros Henv Hnodev Hsys Hlen Hroot Hd.
  change (trap_path (S (S depth)) L (PStr path) s)
    with (trap_path_body (trap_path (S depth) L) L (PStr path) s).
  unfold trap_path_body. simpl is_null. cbv iota. rewrite Henv. simpl deref.
  rewrite Hnodev. simpl negb.
  assert (Hcond : negb (starts_with path "/sys/") && negb (streq path "/sys")
                  = false).
  { destruct Hsys as [-> | ->]; [done|]. by rewrite andb_false_r. }
  rewrite andb_true_l, Hcond.
  pose proof (strlen_nonneg root). pose proof (strlen_nonneg path).
  unfold wrap64. rewrite Z.mod_small by (unfold sizeof_buf, PATH_MAX in *; lia).
  replace (sizeof_buf <=? strlen path + strlen root) with false
    by (symmetry; apply Z.leb_gt; lia).
  replace (sizeof_buf <? strlen root + 10) with false
    by (symmetry; apply Z.ltb_ge; lia).
  fold (path_exists (S depth) L).
  rewrite path_exists_untrapped by done. simpl deref.
  unfold rbind at 1.
  destruct (file_exists L (root +:+ "/disabled")); [done|].
  change (-1 =? 0) with false. cbv iota.
  unfold rbind. simpl trap_buf.
  unfold strlen. by rewrite Nat2Z.id, str_take_app.
Qed.

(** A root so long that <root>/disabled and its terminator do not fit the
    buffer, with a /dev or /sys path short enough to pass the length
    check: the copy of "/disabled" runs over the end of the buffer. *)
Lemma trap_path_disabled_overrun (depth : nat) (L : libc)
    (root path : string) (s : globals) :
  getenv L "UMOCKDEV_DIR" = Some root →
  trapped_path path = true →
  strlen root + strlen path < sizeof_buf →
  sizeof_buf ≤ strlen root + 9 →
  trap_path (S depth) L (PStr path) s = Stop Faulted.
Proof.
  intros Henv Htr Hlen Hroot.
  simpl. unfold trap_path_body. simpl is_null. cbv iota.
  rewrite Henv. simpl deref.
  assert (Hcond : negb (starts_with path "/dev/" || streq path "/dev")
                  && negb (starts_with path "/sys/")
                  && negb (streq path "/sys") = false).
  { unfold trapped_path in Htr.
    destruct (starts_with path "/dev/" || streq path "/dev"); [done|].
    destruct (starts_with path "/sys/"); [done|].
    simpl in *. by rewrite Htr. }
  rewrite Hcond.
  pose proof (strlen_nonneg root). pose proof (strlen_nonneg path).
  unfold wrap64. rewrite Z.mod_small by (unfold sizeof_buf, PATH_MAX in *; lia).
  replace (sizeof_buf <=? strlen path + strlen root) with false
    by (symmetry; apply Z.leb_gt; lia).
  replace (sizeof_buf <? strlen root + 10) with true
    by (symmetry; apply Z.ltb_lt; lia).
  done.
Qed.

(** X5 -- Paths the wrappers leave alone.  For a NULL path, with
    UMOCKDEV_DIR unset, or for a path that is neither /dev, /sys nor below
    them, [trap_path] returns the pointer it was given and changes nothing,
    not even its static buffer.  A wrapper made by WRAP_1ARG, WRAP_2ARGS or
    WRAP_3ARGS then calls the real function on the caller's path; for a
    NULL path it returns its failure value without calling the real
    function and without setting errno. *)
Theorem wrappers_pass_through (depth : nat) (L : libc) (p : cptr)
    (s : globals) :
  p = PNull ∨ getenv L "UMOCKDEV_DIR" = None
  ∨ trapped_path (deref s p) = false →
  trap_path (S depth) L p s = Ok (p, s) ∧
  ∀ (R : Type) (failret : R) (fn : string → globals → R * globals),
    wrap_path (S depth) L failret fn p s
    = Ok (match p with
          | PNull => (failret, s)
          | _ => fn (deref s p) s
          end).
Proof.
  intros Hcase.
  assert (Htrap : trap_path (S depth) L p s = Ok (p, s)).
  { destruct Hcase as [-> | [Henv | Hun]].
    - done.
    - simpl. unfold trap_path_body. rewrite Henv. by destruct (is_null p).
    - by apply trap_path_untrapped. }
  split; [done|]. intros R failret fn.
  unfold wrap_path, wrap_with. rewrite Htrap. simpl.
  by destruct p.
Qed.

(** A path under /etc in a testbed. *)
Lemma wrappers_pass_through_witness :
  let L := Scenario.testbed "/tmp/tb" ["/tmp/tb/dev/null"] in
  trap_path 1 L (PStr "/etc/fstab") initial
  = Ok (PStr "/etc/fstab", initial) ∧
  ∀ (R : Type) (failret : R) (fn : string → globals → R * globals),
    wrap_path 1 L failret fn (PStr "/etc/fstab") initial
    = Ok (fn "/etc/fstab" initial).
Proof.
  apply (wrappers_pass_through 0 _ (PStr "/etc/fstab") initial).
  right. right. reflexivity.
Defined.

(** X6 -- Where the wrappers send a /dev or /sys path.  With a testbed
    root that is not empty and not itself under /dev or /sys, root and
    path shorter together than the static buffer, and a root short enough
    for <root>/disabled and its terminator to fit that buffer (at most
    sizeof(buf) - 10 characters), a wrapper made by WRAP_1ARG, WRAP_2ARGS
    or WRAP_3ARGS calls the real function exactly once: on the caller's
    path if <root>/disabled exists, or if the path is /dev or below it and
    the shadow <root><path> does not exist; on the shadow <root><path>
    otherwise -- for a /sys path whether or not the shadow exists.  Up to
    that call, only the static buffer of [trap_path] has changed; errno
    has not. *)
Theorem wrappers_redirect (depth : nat) (L : libc) (root path : string)
    (s : globals) :
  getenv L "UMOCKDEV_DIR" = Some root →
  root ≠ "" →
  trapped_path root = false →
  trapped_path path = true →
  strlen root + strlen path < sizeof_buf →
  strlen root + 9 < sizeof_buf →
  let under_dev := starts_with path "/dev/" || streq path "/dev" in
  let target :=
    if file_exists L (root +:+ "/disabled") then path
    else if under_dev && negb (file_exists L (root +:+ path)) then path
         else root +:+ path in
  ∃ buf,
    ∀ (R : Type) (failret : R) (fn : string → globals → R * globals),
      wrap_path (S (S depth)) L failret fn (PStr path) s
      = Ok (fn target (set_trap_buf buf s)).
Proof.
  intros Henv Hne Hun Htr Hlen Hroot under_dev target.
  destruct (trapped_path_slash path Htr) as [rest ->].
  assert (Hd : trapped_path (root +:+ "/disabled") = false)
    by (by apply (outside_root root "disabled")).
  assert (Hsh : trapped_path (root +:+ String "/" rest) = false)
    by (by apply outside_root).
  destruct under_dev eqn:Hdev; subst under_dev.
  - assert (Hdev' : starts_with (String "/" rest) "/dev/" = true
                    ∨ String "/" rest = "/dev").
    { apply orb_true_iff in Hdev as [H|H]; [by left|right].
      by apply String.eqb_eq in H. }
    pose proof (trap_path_dev depth L root (String "/" rest) s
                  Henv Hdev' Hlen Hroot Hd Hsh) as Htrap.
    subst target.
    destruct (file_exists L (root +:+ "/disabled")).
    + eexists. intros R failret fn.
      unfold wrap_path, wrap_with. by rewrite Htrap.
    + destruct (file_exists L (root +:+ String "/" rest)).
      * eexists. intros R failret fn.
        unfold wrap_path, wrap_with. by rewrite Htrap.
      * eexists. intros R failret fn.
        unfold wrap_path, wrap_with. by rewrite Htrap.
  - assert (Hsys : starts_with (String "/" rest) "/sys/" = true
                   ∨ String "/" rest = "/sys").
    { unfold trapped_path in Htr. rewrite Hdev, orb_false_l in Htr.
      apply orb_true_iff in Htr as [H|H]; [by left|right].
      by apply String.eqb_eq in H. }
    pose proof (trap_path_sys depth L root (String "/" rest) s
                  Henv Hdev Hsys Hlen Hroot Hd) as Htrap.
    subst target. simpl andb.
    destruct (file_exists L (root +:+ "/disabled")).
    + eexists. intros R failret fn.
      unfold wrap_path, wrap_with. by rewrite Htrap.
    + eexists. intros R failret fn.
      unfold wrap_path, wrap_with. by rewrite Htrap.
Qed.

(** [/dev/null] in a testbed that has it, and no [disabled] marker. *)
Lemma wrappers_redirect_witness :
  ∃ buf,
    ∀ (R : Type) (failret : R) (fn : string → globals → R * globals),
      wrap_path 2 (Scenario.testbed "/tmp/tb" ["/tmp/tb/dev/null"])
        failret fn (PStr "/dev/null") initial
      = Ok (fn "/tmp/tb/dev/null" (set_trap_buf buf initial)).
Proof.
  apply (wrappers_redirect 0
           (Scenario.testbed "/tmp/tb" ["/tmp/tb/dev/null"])
           "/tmp/tb" "/dev/null" initial).
  - reflexivity.
  - discriminate.
  - reflexivity.
  - reflexivity.
  - vm_compute. reflexivity.
  - vm_compute. reflexivity.
Defined.

End Redirect.

(** ** Netlink emulation: what else the wrappers do *)

Section NetlinkMore.

Import FdMap CLib Preload Notions.
Local Open Scope Z_scope.

(** X7 -- The socket wrapper.  A request for a netlink uevent socket is
    answered by the real [socket(AF_UNIX, type, 0)], and the descriptor it
    returns is registered -- also the -1 of a failed call, which takes a
    slot of the table like any other.  With all 50 slots taken the wrapper
    aborts the process, after the real call.  Every other request goes to
    the real [socket] unchanged and registers nothing. *)
Theorem socket_uevent_replacement (L : libc) (domain type protocol : Z)
    (s : globals) :
  wf (wrapped_sockets s) →
  (domain = AF_NETLINK ∧ protocol = NETLINK_KOBJECT_UEVENT →
   ((entries (wrapped_sockets s) < 50)%nat →
    ∃ s', socket L domain type protocol s
          = Ok (sys_value (k_socket L AF_UNIX type 0), s') ∧
          fst (fd_map_get (wrapped_sockets s')
                 (sys_value (k_socket L AF_UNIX type 0))) = 1 ∧
          entries (wrapped_sockets s') = S (entries (wrapped_sockets s))) ∧
   (entries (wrapped_sockets s) = 50%nat →
    socket L domain type protocol s = Stop Aborted)) ∧
  (¬ (domain = AF_NETLINK ∧ protocol = NETLINK_KOBJECT_UEVENT) →
   ∃ s', socket L domain type protocol s
         = Ok (sys_value (k_socket L domain type protocol), s') ∧
         wrapped_sockets s' = wrapped_sockets s).
Proof.
  intros Hwf. split.
  - intros [-> ->]. unfold socket. simpl andb. cbv iota.
    set (fd := sys_value (k_socket L AF_UNIX type 0)).
    assert (Hreal : ∃ s0, (match k_socket L AF_UNIX type 0 with
                           | SysOk fd => (fd, s)
                           | SysErr e => (-1, set_errno e s)
                           end) = (fd, s0)
                          ∧ wrapped_sockets s0 = wrapped_sockets s).
    { unfold fd. destruct (k_socket L AF_UNIX type 0); eexists; done. }
    destruct Hreal as (s0 & -> & Hsame). rewrite Hsame.
    split.
    + intros Hlt. destruct (free_slot_found _ Hlt) as [i Hi].
      pose proof Hi as Hi'. apply scan_Some in Hi' as (Hr & Hfree & _).
      unfold fd_map_add. rewrite Hi. simpl.
      eexists. split; [reflexivity|]. simpl.
      fold (Slots.add_at (wrapped_sockets s) i fd NULL).
      split.
      * apply get_present_iff. exists i. split; [lia|].
        destruct Hwf as (Hs & Hf & _).
        unfold slot_has, Slots.add_at; simpl.
        rewrite !rd_insert_eq by lia. by rewrite Z.eqb_refl.
      * apply add_at_entries; [done|lia|done].
    + intros Hfull. unfold fd_map_add.
      destruct (scan (slot_free (wrapped_sockets s)) 0 FD_MAP_MAX)
        as [i|] eqn:Hs; [|done].
      exfalso. apply scan_Some in Hs as (Hr & Hfree & _).
      pose proof (add_at_entries (wrapped_sockets s) i 0 0 Hwf
                    ltac:(lia) Hfree) as Hadd.
      pose proof (entries_le (Slots.add_at (wrapped_sockets s) i 0 0)) as Hle.
      unfold FD_MAP_MAX in Hle. lia.
  - intros Hnot. unfold socket.
    assert (Hcond : (domain =? AF_NETLINK)
                    && (protocol =? NETLINK_KOBJECT_UEVENT) = false).
    { apply andb_false_iff.
      destruct (Z.eqb_spec domain AF_NETLINK) as [Hd|Hd]; [|by left].
      destruct (Z.eqb_spec protocol NETLINK_KOBJECT_UEVENT) as [Hp|Hp];
        [|by right].
      exfalso. by apply Hnot. }
    rewrite Hcond. unfold sys_value.
    destruct (k_socket L domain type protocol); eexists; done.
Qed.

(** A uevent socket on a system whose [socket] returns descriptor 5. *)
Lemma socket_uevent_replacement_witness :
  ∃ s', socket Scenario.bare AF_NETLINK 2 NETLINK_KOBJECT_UEVENT initial
        = Ok (5, s') ∧
        fst (fd_map_get (wrapped_sockets s') 5) = 1 ∧
        entries (wrapped_sockets s') = 1%nat.
Proof.
  apply (proj1 (proj1 (socket_uevent_replacement Scenario.bare AF_NETLINK 2
                         NETLINK_KOBJECT_UEVENT initial ltac:(by vm_compute))
                      (conj eq_refl eq_refl))).
  vm_compute. lia.
Defined.

(** X8 -- What [recvmsg] leaves alone.  On a wrapped descriptor whose real
    receive returned a positive count: without a sender buffer
    ([msg_name] NULL) the wrapper writes through the NULL pointer; with
    one, the call returns the real count and leaves the state as it is,
    reports 8 -- the size of a pointer -- as the length of the sender
    address, and hands back the payload, the flags, the control length and
    every field of the first control message except the uid as the real
    call stored them.  The uid is zeroed whatever the level and type of
    the control message are; a control buffer too short for a header is
    not touched. *)
Theorem recvmsg_rewrites_only_sender (L : libc) (sockfd : Z) (msg : msghdr)
    (flags n : Z) (received : msghdr) (s : globals) :
  fst (fd_map_get (wrapped_sockets s) sockfd) ≠ 0 →
  k_recvmsg L sockfd msg flags = SysOk (n, received) →
  0 < n →
  (msg_name received = None →
   recvmsg L sockfd msg flags s = Stop Faulted) ∧
  (msg_name received ≠ None →
   ∃ msg', recvmsg L sockfd msg flags s = Ok (n, msg', s) ∧
           msg_namelen msg' = 8 ∧
           msg_iov msg' = msg_iov received ∧
           msg_flags msg' = msg_flags received ∧
           msg_controllen msg' = msg_controllen received ∧
           (msg_controllen received < 16 →
            msg_control msg' = msg_control received) ∧
           (msg_control received = None → msg_control msg' = None) ∧
           ∀ c, msg_control received = Some c →
                ∃ c', msg_control msg' = Some c' ∧
                      cmsg_len c' = cmsg_len c ∧
                      cmsg_level c' = cmsg_level c ∧
                      cmsg_type c' = cmsg_type c ∧
                      pid (cmsg_data c') = pid (cmsg_data c) ∧
                      gid (cmsg_data c') = gid (cmsg_data c) ∧
                      (16 ≤ msg_controllen received →
                       uid (cmsg_data c') = 0)).
Proof.
  intros Hw Hk Hn. unfold recvmsg. rewrite Hk.
  apply Z.eqb_neq in Hw. rewrite Hw.
  apply Z.ltb_lt in Hn. rewrite Hn. simpl andb. cbv iota.
  split.
  - by intros ->.
  - intros Hname. destruct (msg_name received) as [sender|]; [|done].
    eexists. split; [reflexivity|]. simpl.
    split; [done|]. split; [done|]. split; [done|]. split; [done|].
    unfold CMSG_FIRSTHDR, sizeof_cmsghdr.
    split; [|split].
    + intros Hshort.
      replace (16 <=? msg_controllen received) with false
        by (symmetry; apply Z.leb_gt; lia).
      done.
    + intros Hnone. rewrite Hnone.
      by destruct (16 <=? msg_controllen received).
    + intros c Hc. rewrite Hc.
      destruct (Z.leb_spec 16 (msg_controllen received)) as [Hle|Hgt].
      * eexists. split; [reflexivity|]. simpl. done.
      * exists c. repeat (split; [done|]). lia.
Qed.

(** The datagram of an unprivileged sender on the wrapped descriptor 5. *)
Lemma recvmsg_rewrites_only_sender_witness :
  ∃ msg', recvmsg (Scenario.delivering [97; 100; 100]) 5 Scenario.empty_msg 0
            Scenario.uevent_socket_state
          = Ok (3, msg', Scenario.uevent_socket_state) ∧
          msg_namelen msg' = 8 ∧
          msg_control msg'
          = Some {| cmsg_len := 28; cmsg_level := 1; cmsg_type := 2;
                    cmsg_data := {| pid := 4242; uid := 0; gid := 1000 |} |}.
Proof.
  destruct (proj2 (recvmsg_rewrites_only_sender
                     (Scenario.delivering [97; 100; 100]) 5
                     Scenario.empty_msg 0 3
                     (Scenario.received_datagram [97; 100; 100])
                     Scenario.uevent_socket_state
                     ltac:(vm_compute; discriminate) eq_refl ltac:(lia))
                  ltac:(discriminate))
    as (msg' & Hrun & Hlen & _).
  exists msg'. split; [exact Hrun|]. split; [exact Hlen|].
  vm_compute in Hrun. injection Hrun as <-. reflexivity.
Defined.

End NetlinkMore.

(** ** Ioctl recording: how a session starts, and what is recorded *)

Section IoctlMore.

Import FdMap CLib Preload Notions.
Local Open Scope string_scope.
Local Open Scope list_scope.
Local Open Scope Z_scope.


Lemma dev_of_fd_eq (L : libc) (fd : Z) (s : globals) :
  dev_of_fd L fd s = (fst (dev_of_fd L fd s), s).
Proof.
  rewrite <- (dev_of_fd_state L fd s) at 3. by destruct (dev_of_fd L fd s).
Qed.





(** X11 -- An ioctl on a descriptor that is not emulated.  The real ioctl
    is called exactly once and its result returned, with the errno of a
    failure.  The call is recorded exactly when its result is not -1 and
    the descriptor is the recording descriptor: then the node the tree
    library makes for it is inserted into the recorded tree, and becomes
    the tree if there was none.  Nothing else of the state changes. *)
Theorem ioctl_not_emulated (L : libc) (d request arg : Z) (s : globals) :
  fst (fd_map_get (ioctl_wrapped_fds s) d) = 0 →
  let r := sys_value (k_ioctl L d request arg) in
  let s0 :=
    match k_ioctl L d request arg with
    | SysOk _ => add_event (EvIoctl d request arg) s
    | SysErr e => set_errno e (add_event (EvIoctl d request arg) s)
    end in
  let node := ioctl_tree_new_from_bin L request arg r in
  (r = -1 ∨ ioctl_record_fd s ≠ d → ioctl L d request arg s = Ok (r, s0)) ∧
  (r ≠ -1 → ioctl_record_fd s = d → ioctl_record_log s ≠ NULL →
   ioctl L d request arg s
   = Ok (r,
         if node =? NULL then s0
         else if ioctl_record s =? NULL
              then set_ioctl_record node
                     (add_event (EvTreeInsert NULL node) s0)
              else add_event (EvTreeInsert (ioctl_record s) node) s0)).
Proof.
  intros Hun r s0 node.
  assert (Hemul : ioctl_emulate L d request arg s = Ok (-2, s)).
  { unfold ioctl_emulate.
    destruct (fd_map_get (ioctl_wrapped_fds s) d) as [found fdinfo].
    simpl in Hun. subst found. done. }
  assert (Hreal : (match k_ioctl L d request arg with
                   | SysOk r => (r, add_event (EvIoctl d request arg) s)
                   | SysErr e =>
                       (-1, set_errno e (add_event (EvIoctl d request arg) s))
                   end) = (r, s0)).
  { unfold r, s0, sys_value. by destruct (k_ioctl L d request arg). }
  assert (Hfd0 : ioctl_record_fd s0 = ioctl_record_fd s).
  { unfold s0. by destruct (k_ioctl L d request arg). }
  assert (Hlog0 : ioctl_record_log s0 = ioctl_record_log s).
  { unfold s0. by destruct (k_ioctl L d request arg). }
  assert (Hrec0 : ioctl_record s0 = ioctl_record s).
  { unfold s0. by destruct (k_ioctl L d request arg). }
  assert (Hgen : ioctl L d request arg s
                 = if negb (r =? -1) && (ioctl_record_fd s =? d)
                   then let* s3 := record_ioctl L request arg r s0 in
                        Ok (r, s3)
                   else Ok (r, s0)).
  { unfold ioctl. rewrite Hemul. unfold rbind at 1.
    change (negb (-2 =? -2)) with false. cbv iota zeta.
    by rewrite Hreal, Hfd0. }
  rewrite Hgen. split.
  - intros [Hr | Hd].
    + rewrite Hr. done.
    + apply Z.eqb_neq in Hd. rewrite Hd. by rewrite andb_false_r.
  - intros Hr Hd Hlog.
    apply Z.eqb_neq in Hr. rewrite Hr. rewrite Hd, Z.eqb_refl. simpl andb.
    cbv iota. unfold record_ioctl. rewrite Hlog0.
    apply Z.eqb_neq in Hlog. rewrite Hlog. simpl negb.
    unfold assert. unfold rbind at 2. fold node.
    destruct (node =? NULL); [done|].
    simpl ioctl_record. rewrite Hrec0.
    destruct (ioctl_record s =? NULL) eqn:Hroot; [|done].
    apply Z.eqb_eq in Hroot. by rewrite Hroot.
Qed.

(** The first ioctl on the recording descriptor 3 of the recording run:
    the node at 5000 becomes the recorded tree. *)
Lemma ioctl_not_emulated_witness :
  ∃ s2, ioctl Scenario.recording 3 21761 42 Runs.recording_on_3
        = Ok (0, s2) ∧
        ioctl_record s2 = 5000 ∧
        trace s2 = [EvIoctl 3 21761 42; EvTreeInsert NULL 5000].
Proof.
  eexists. split.
  - apply (proj2 (ioctl_not_emulated Scenario.recording 3 21761 42
                    Runs.recording_on_3 eq_refl)).
    + vm_compute. discriminate.
    + reflexivity.
    + vm_compute. discriminate.
  - split; reflexivity.
Defined.

End IoctlMore.

(** ** The script log: time stamps, separators, decoding *)

Section ScriptMore.

Import FdMap CLib Preload TraceFormat Notions LogFormat.
Local Open Scope Z_scope.




(** X13 -- Time stamps do not drift.  [update_msec] returns the whole
    milliseconds between the stored time and the reading, computed in a
    [long], and stores the reading.  When neither delta is negative (the
    assertion of [update_msec]), two successive calls return, and their
    deltas add up, in [long] arithmetic, to the delta between the first
    stored time and the second reading -- exactly so when the sum is
    below 2^63: what the rounding to milliseconds drops from one record,
    the next one gets. *)
Theorem update_msec_telescopes (L : libc) (p : Z) (s : globals)
    (info : script_record_info) (now1 now2 : timespec) :
  srinfo_heap s !! p = Some info →
  k_clock_gettime L (clock_ticks s) = (0, now1) →
  k_clock_gettime L (S (clock_ticks s)) = (0, now2) →
  0 ≤ elapsed_msec (time info) now1 →
  0 ≤ elapsed_msec now1 now2 →
  ∃ d1 s1 d2 s2,
    update_msec L p s = Ok (d1, s1) ∧
    update_msec L p s1 = Ok (d2, s2) ∧
    to_long (d1 + d2) = elapsed_msec (time info) now2 ∧
    (d1 + d2 < 2 ^ 63 → d1 + d2 = elapsed_msec (time info) now2) ∧
    time <$> srinfo_heap s2 !! p = Some now2.
Proof.
  intros Hinfo Hc1 Hc2 Hd1 Hd2.
  assert (Hstep : ∀ s0 info0 now,
            srinfo_heap s0 !! p = Some info0 →
            k_clock_gettime L (clock_ticks s0) = (0, now) →
            0 ≤ elapsed_msec (time info0) now →
            ∃ s', update_msec L p s0
                  = Ok (elapsed_msec (time info0) now, s') ∧
                  srinfo_heap s' !! p
                  = Some {| log := log info0; time := now; op := op info0 |} ∧
                  clock_ticks s' = S (clock_ticks s0)).
  { intros s0 info0 now Hi Hc Hd. unfold update_msec.
    pose proof (elapsed_msec_range (time info0) now) as Hrange.
    rewrite Hi, Hc. cbv beta iota zeta. simpl assert. unfold rbind at 1.
    replace (0 <=? elapsed_msec (time info0) now) with true
      by (symmetry; apply Z.leb_le; lia).
    simpl assert. unfold rbind. unfold wrap64. rewrite Z.mod_small by lia.
    eexists. split; [reflexivity|]. simpl.
    by rewrite lookup_insert_eq. }
  destruct (Hstep s info now1 Hinfo Hc1 Hd1) as (s1 & Hu1 & Hh1 & Ht1).
  destruct (Hstep s1 _ now2 Hh1 ltac:(by rewrite Ht1) Hd2)
    as (s2 & Hu2 & Hh2 & _).
  exists (elapsed_msec (time info) now1), s1, (elapsed_msec now1 now2), s2.
  assert (Hsum : to_long (elapsed_msec (time info) now1
                          + elapsed_msec now1 now2)
                 = elapsed_msec (time info) now2).
  { unfold elapsed_msec. rewrite to_long_add. f_equal. lia. }
  split; [exact Hu1|]. split; [exact Hu2|]. split; [exact Hsum|]. split.
  - intros Hfit. rewrite <- Hsum. symmetry. apply to_long_small. lia.
  - by rewrite Hh2.
Qed.

(** Readings 0.6 ms and 1.2 ms after the descriptor was opened: the deltas
    are 0 and 1. *)
Lemma update_msec_telescopes_witness :
  let first := {| tv_sec := 100; tv_nsec := 600000 |} in
  let second := {| tv_sec := 100; tv_nsec := 1200000 |} in
  ∃ d1 s1 d2 s2,
    update_msec (Scenario.clock_reading [first; second]) 1000
      Scenario.recording_state = Ok (d1, s1) ∧
    update_msec (Scenario.clock_reading [first; second]) 1000 s1
    = Ok (d2, s2) ∧
    to_long (d1 + d2) = 1 ∧
    (d1 + d2 < 2 ^ 63 → d1 + d2 = 1) ∧
    time <$> srinfo_heap s2 !! 1000 = Some second.
Proof.
  apply (update_msec_telescopes
           (Scenario.clock_reading
              [{| tv_sec := 100; tv_nsec := 600000 |};
               {| tv_sec := 100; tv_nsec := 1200000 |}])
           1000 Scenario.recording_state
           (fresh_script_record_info 77 {| tv_sec := 100; tv_nsec := 0 |})
           {| tv_sec := 100; tv_nsec := 600000 |}
           {| tv_sec := 100; tv_nsec := 1200000 |}).
  - reflexivity.
  - reflexivity.
  - reflexivity.
  - vm_compute. discriminate.
  - vm_compute. discriminate.
Defined.

Lemma caret_unescape_escape (c : Z) (rest : list Z) :
  is_byte c → c ≠ 30 →
  caret_unescape (caret_escape c ++ rest) = c :: caret_unescape rest.
Proof.
  unfold is_byte, caret_escape. intros Hc H30.
  destruct (Z.ltb_spec c 32) as [Hlt|Hge].
  - cbn [app caret_unescape]. change (94 =? 94) with true. cbv iota.
    replace (c + 64 =? 94) with false by (symmetry; apply Z.eqb_neq; lia).
    f_equal. lia.
  - destruct (Z.eqb_spec c 94) as [->|Hne].
    + done.
    + cbn [app caret_unescape].
      replace (c =? 94) with false by (symmetry; by apply Z.eqb_neq).
      done.
Qed.

(** X14 -- Reading the caret notation back.  What the escaping loop of
    [script_record_op] writes for a buffer that does not hold the byte
    0x1E decodes to the buffer: a caret and the byte after it stand for
    one byte.  The byte 0x1E is written as two carets, like the caret
    itself, and cannot be told from it. *)
Theorem script_escape_decodes (f : Z) (buf : list Z) (s : globals) :
  Forall is_byte buf →
  (30 ∉ buf →
   ∃ body, written f (fold_left (record_byte f) buf s)
           = written f s ++ body ∧
           caret_unescape body = buf) ∧
  written f (record_byte f s 30) = written f (record_byte f s 94).
Proof.
  intros Hbytes. split.
  - intros H30. exists (flat_map caret_escape buf).
    split; [by apply escape_loop_written|].
    clear s. induction buf as [|c buf IH]; [done|].
    inversion Hbytes as [|? ? Hc Hb]; subst.
    apply not_elem_of_cons in H30 as [Hne H30].
    cbn [flat_map]. rewrite caret_unescape_escape by done.
    by rewrite IH.
  - rewrite !record_byte_written by (unfold is_byte; lia). done.
Qed.

(** The bytes A, LF, caret. *)
Lemma script_escape_decodes_witness :
  (30 ∉ [65; 10; 94] →
   ∃ body, written 77 (fold_left (record_byte 77) [65; 10; 94]
                         Scenario.recording_state)
           = written 77 Scenario.recording_state ++ body ∧
           caret_unescape body = [65; 10; 94]) ∧
  written 77 (record_byte 77 Scenario.recording_state 30)
  = written 77 (record_byte 77 Scenario.recording_state 94).
Proof.
  apply (script_escape_decodes 77 [65; 10; 94] Scenario.recording_state).
  repeat constructor; unfold is_byte; lia.
Defined.





End ScriptMore.

(** ** The stat wrappers: results that pass through, and the device type *)

Section StatMore.

Import FdMap CLib Preload Notions.
Local Open Scope string_scope.
Local Open Scope list_scope.
Local Open Scope Z_scope.

(** X16 -- Results the __xstat wrappers hand back as they are.  Once
    [trap_path] has returned a path: a failed real call returns -1 with
    its errno and leaves the caller's buffer alone; a successful one on a
    path that was not redirected, or on a redirected path that does not
    begin with /dev/ -- a /sys path, or /dev itself -- returns what the
    real call stored; and so does one on a redirected /dev/ path whose
    shadow is not classified as a device (a directory, a symbolic link
    that leads elsewhere). *)
Theorem xstat_unchanged_results (depth : nat) (L : libc)
    (fn : Z → string → sysret stat) (ver : Z) (path : string) (st : stat)
    (s s1 : globals) (p : cptr) :
  trap_path depth L (PStr path) s = Ok (p, s1) →
  is_null p = false →
  (∀ e, fn ver (deref s1 p) = SysErr e →
        xstat depth L fn ver (PStr path) st s
        = Ok (-1, st, set_errno e s1)) ∧
  (∀ filled,
     fn ver (deref s1 p) = SysOk filled →
     (p = PStr path ∨ starts_with path "/dev/" = false →
      xstat depth L fn ver (PStr path) st s = Ok (0, filled, s1)) ∧
     (∀ s2,
        p = PBuf → starts_with path "/dev/" = true →
        is_emulated_device depth L p (st_mode filled) s1 = Ok (false, s2) →
        xstat depth L fn ver (PStr path) st s = Ok (0, filled, s2))).
Proof.
  intros Htrap Hp. split.
  - intros e He. unfold xstat. rewrite Htrap. unfold rbind. rewrite Hp, He.
    done.
  - intros filled Hfn. split.
    + intros Hcase. unfold xstat. rewrite Htrap. unfold rbind.
      rewrite Hp, Hfn. change (0 =? 0) with true. rewrite andb_true_l.
      destruct Hcase as [-> | Hdev].
      * simpl ptr_eqb. by rewrite String.eqb_refl.
      * simpl deref. rewrite Hdev. by rewrite andb_false_r.
    + intros s2 -> Hdev Hemu. unfold xstat. rewrite Htrap. unfold rbind at 1.
      simpl is_null. cbv iota. simpl deref in *. rewrite Hfn.
      change (0 =? 0) with true. simpl ptr_eqb. simpl negb. simpl andb.
      rewrite Hdev. cbv iota. rewrite Hemu. done.
Qed.

(** [__xstat] of a regular file outside /dev and /sys. *)
Lemma xstat_unchanged_results_witness :
  xstat 1 Scenario.disk_testbed
    (λ _ _, SysOk {| st_mode := 33188; st_rdev := 0 |}) 3
    (PStr "/etc/fstab") {| st_mode := 0; st_rdev := 0 |} initial
  = Ok (0, {| st_mode := 33188; st_rdev := 0 |}, initial).
Proof.
  apply (proj1 (proj2 (xstat_unchanged_results 1 Scenario.disk_testbed
                         (λ _ _, SysOk {| st_mode := 33188; st_rdev := 0 |})
                         3 "/etc/fstab"
                         {| st_mode := 0; st_rdev := 0 |} initial initial
                         (PStr "/etc/fstab") eq_refl eq_refl)
                      {| st_mode := 33188; st_rdev := 0 |} eq_refl)).
  left. reflexivity.
Defined.

Lemma land_swap (a b c : Z) : Z.land (Z.land a b) c = Z.land (Z.land a c) b.
Proof.
  by rewrite <- !Z.land_assoc, (Z.land_comm b c).
Qed.

(** The bits of a mode that are neither the file type nor the sticky
    bit. *)
Lemma mode_char_kept (m : Z) :
  Z.land (Z.lor (Z.land m (Z.lnot S_IFREG)) S_IFCHR)
         (Z.lnot (Z.lor S_IFMT S_ISVTX))
  = Z.land m (Z.lnot (Z.lor S_IFMT S_ISVTX)).
Proof.
  rewrite Z.land_lor_distr_l, <- Z.land_assoc.
  replace (Z.land S_IFCHR (Z.lnot (Z.lor S_IFMT S_ISVTX))) with 0
    by reflexivity.
  replace (Z.land (Z.lnot S_IFREG) (Z.lnot (Z.lor S_IFMT S_ISVTX)))
    with (Z.lnot (Z.lor S_IFMT S_ISVTX)) by reflexivity.
  by rewrite Z.lor_0_r.
Qed.

Lemma mode_block_kept (m : Z) :
  Z.land (Z.lor (Z.land (Z.land m (Z.lnot S_IFREG)) (Z.lnot S_ISVTX)) S_IFBLK)
         (Z.lnot (Z.lor S_IFMT S_ISVTX))
  = Z.land m (Z.lnot (Z.lor S_IFMT S_ISVTX)).
Proof.
  rewrite Z.land_lor_distr_l, <- !Z.land_assoc.
  replace (Z.land S_IFBLK (Z.lnot (Z.lor S_IFMT S_ISVTX))) with 0
    by reflexivity.
  replace (Z.land (Z.lnot S_IFREG)
             (Z.land (Z.lnot S_ISVTX) (Z.lnot (Z.lor S_IFMT S_ISVTX))))
    with (Z.lnot (Z.lor S_IFMT S_ISVTX)) by reflexivity.
  by rewrite Z.lor_0_r.
Qed.

Lemma mode_char_type (m t : Z) :
  Z.land m S_IFMT = t → t = S_IFREG ∨ t = S_IFLNK →
  Z.land (Z.lor (Z.land m (Z.lnot S_IFREG)) S_IFCHR) S_IFMT = S_IFCHR.
Proof.
  intros Hm Ht. rewrite Z.land_lor_distr_l, land_swap, Hm.
  by destruct Ht as [-> | ->].
Qed.

Lemma mode_block_type (m t : Z) :
  Z.land m S_IFMT = t → t = S_IFREG ∨ t = S_IFLNK →
  Z.land (Z.lor (Z.land (Z.land m (Z.lnot S_IFREG)) (Z.lnot S_ISVTX)) S_IFBLK)
         S_IFMT
  = S_IFBLK.
Proof.
  intros Hm Ht. rewrite Z.land_lor_distr_l.
  rewrite (land_swap (Z.land m (Z.lnot S_IFREG))), (land_swap m), Hm.
  by destruct Ht as [-> | ->].
Qed.

(** X17 -- The type of an emulated device node.  Where an __xstat wrapper
    rewrites the mode of a shadow file that is a regular file or a
    symbolic link, the result is a block device ([S_ISBLK]) if the shadow
    has the sticky bit and a character device ([S_ISCHR]) if not, with the
    sticky bit clear; the permission bits and every other bit outside the
    file type and the sticky bit are those of the shadow file. *)
Theorem xstat_device_type (depth : nat) (L : libc)
    (fn : Z → string → sysret stat) (ver : Z) (path : string) (st : stat)
    (s s1 s2 s3 : globals) (filled : stat) (rdev : Z) :
  trap_path depth L (PStr path) s = Ok (PBuf, s1) →
  fn ver (trap_buf s1) = SysOk filled →
  starts_with path "/dev/" = true →
  is_emulated_device depth L PBuf (st_mode filled) s1 = Ok (true, s2) →
  get_rdev depth L (str_drop 5 path) s2 = Ok (rdev, s3) →
  Z.land (st_mode filled) S_IFMT = S_IFREG
  ∨ Z.land (st_mode filled) S_IFMT = S_IFLNK →
  ∃ mode,
    xstat depth L fn ver (PStr path) st s
    = Ok (0, {| st_mode := mode; st_rdev := rdev |}, s3) ∧
    S_ISBLK mode = negb (Z.land (st_mode filled) S_ISVTX =? 0) ∧
    S_ISCHR mode = (Z.land (st_mode filled) S_ISVTX =? 0) ∧
    Z.land mode S_ISVTX = 0 ∧
    Z.land mode (Z.lnot (Z.lor S_IFMT S_ISVTX))
    = Z.land (st_mode filled) (Z.lnot (Z.lor S_IFMT S_ISVTX)).
Proof.
  intros Htrap Hfn Hdev Hemu Hrdev Htype.
  unfold xstat. rewrite Htrap. unfold rbind at 1.
  simpl is_null. cbv iota. simpl deref. rewrite Hfn.
  change (0 =? 0) with true. simpl ptr_eqb. simpl negb. simpl andb.
  rewrite Hdev. cbv iota.
  rewrite Hemu. unfold rbind at 1. cbv iota.
  rewrite Hrdev. unfold rbind.
  eexists. split; [reflexivity|].
  assert (Ht : ∃ t, Z.land (st_mode filled) S_IFMT = t
                    ∧ (t = S_IFREG ∨ t = S_IFLNK)).
  { destruct Htype as [H|H]; eexists; (split; [exact H|]); auto. }
  destruct Ht as (t & Hm & Ht).
  rewrite (clear_other_keeps (st_mode filled) S_IFREG S_ISVTX)
    by reflexivity.
  unfold S_ISBLK, S_ISCHR.
  destruct (Z.land (st_mode filled) S_ISVTX =? 0) eqn:Hvtx; simpl negb;
    cbv iota.
  - apply Z.eqb_eq in Hvtx.
    rewrite (mode_char_type _ t Hm Ht).
    split; [done|]. split; [done|]. split.
    + rewrite Z.land_lor_distr_l, land_swap, Hvtx. done.
    + apply mode_char_kept.
  - rewrite (mode_block_type _ t Hm Ht).
    split; [done|]. split; [done|]. split.
    + by apply cleared_second_stays_clear.
    + apply mode_block_kept.
Qed.

(** [/dev/sda] in the disk testbed: S_IFREG | S_ISVTX | 0644 becomes
    S_IFBLK | 0644. *)
Lemma xstat_device_type_witness :
  ∃ mode,
    xstat 2 Scenario.disk_testbed Scenario.disk_xstat 3 (PStr "/dev/sda")
      {| st_mode := 0; st_rdev := 0 |} initial
    = Ok (0, {| st_mode := mode; st_rdev := 2048 |},
          set_get_rdev_link "8:0" (set_trap_buf "/tmp/tb/dev/sda" initial)) ∧
    S_ISBLK mode = true ∧
    S_ISCHR mode = false ∧
    Z.land mode S_ISVTX = 0 ∧
    Z.land mode (Z.lnot (Z.lor S_IFMT S_ISVTX)) = 420.
Proof.
  apply (xstat_device_type 2 Scenario.disk_testbed
           Scenario.disk_xstat 3 "/dev/sda" {| st_mode := 0; st_rdev := 0 |}
           initial (set_trap_buf "/tmp/tb/dev/sda" initial)
           (set_trap_buf "/tmp/tb/dev/sda" initial)
           (set_get_rdev_link "8:0" (set_trap_buf "/tmp/tb/dev/sda" initial))
           {| st_mode := 33700; st_rdev := 0 |} 2048).
  - vm_compute. reflexivity.
  - reflexivity.
  - reflexivity.
  - vm_compute. reflexivity.
  - vm_compute. reflexivity.
  - left. reflexivity.
Defined.



Lemma str_map_length (f : ascii → ascii) (str : string) :
  String.length (str_map f str) = String.length str.
Proof. induction str as [|c str IH]; simpl; [done|]. by rewrite IH. Qed.



Lemma starts_with_take10 (target rest : string) :
  5 ≤ strlen target →
  starts_with (str_take 10 target +:+ rest) "/dev/"
  = starts_with target "/dev/".
Proof.
  unfold strlen, starts_with.
  destruct target as [|c1 [|c2 [|c3 [|c4 [|c5 r]]]]];
    cbn [String.length]; try lia.
  intros _. cbn [str_take]. rewrite !app_cons. cbn [String.prefix].
  split_chars; try done.
  transitivity true; [|by destruct r].
  by destruct (_ +:+ rest).
Qed.

(** X19 -- Which symbolic links count as device nodes.  For a symbolic
    link, [is_emulated_device] reads the link into a buffer of 10 bytes:
    if the link cannot be read, or reads as empty, the process is aborted;
    if its target has 5 characters or more, the link counts as an emulated
    device exactly when the target begins with /dev/.  errno and the rest
    of the state are as before. *)
Theorem is_emulated_device_symlink (depth : nat) (L : libc) (p : cptr)
    (mode : Z) (s : globals) :
  is_null p = false →
  trapped_path (deref s p) = false →
  S_ISLNK mode = true →
  (∀ e, k_readlink L (deref s p) = SysErr e →
        is_emulated_device (S depth) L p mode s = Stop Aborted) ∧
  (k_readlink L (deref s p) = SysOk "" →
   is_emulated_device (S depth) L p mode s = Stop Aborted) ∧
  (∀ target,
     k_readlink L (deref s p) = SysOk target →
     5 ≤ strlen target →
     is_emulated_device (S depth) L p mode s
     = Ok (starts_with target "/dev/", s)).
Proof.
  intros Hp Hun Hlnk.
  assert (Hhead : is_emulated_device (S depth) L p mode s
            = let* (r, s0) := Ok (real_readlink L 10 (deref s p) s) in
              let '(res, stored) := r in
              let dest := overlay stored (dest_indeterminate L) in
              let s1 := set_errno (errno s) s0 in
              let* _ := assert (0 <? res) in
              Ok (starts_with dest "/dev/", s1)).
  { unfold is_emulated_device. rewrite Hlnk.
    unfold readlink, wrap_path, wrap_with.
    rewrite trap_path_untrapped by done. unfold rbind at 2.
    by rewrite Hp. }
  rewrite Hhead. clear Hhead. unfold real_readlink.
  split; [|split].
  - by intros e ->.
  - by intros ->.
  - intros target -> Hlen5. cbv zeta.
    change (Z.to_nat 10) with 10%nat.
    assert (Hpos : (0 <? strlen (str_take 10 target)) = true).
    { apply Z.ltb_lt. unfold strlen in *.
      destruct target as [|c r]; simpl in *; lia. }
    unfold rbind at 1. rewrite Hpos. simpl assert. unfold rbind.
    unfold overlay. rewrite starts_with_take10 by done.
    by rewrite set_errno_same.
Qed.

(** A link to a pseudo terminal, and a link that leads elsewhere. *)
Lemma is_emulated_device_symlink_witness :
  let L := Scenario.with_k_readlink
             (λ p, if String.eqb p "/tmp/tb/dev/tty" then SysOk "/dev/pts/3"
                   else SysOk "../run/log")
             Scenario.bare in
  is_emulated_device 1 L (PStr "/tmp/tb/dev/tty") S_IFLNK initial
  = Ok (true, initial) ∧
  is_emulated_device 1 L (PStr "/tmp/tb/dev/log") S_IFLNK initial
  = Ok (false, initial).
Proof.
  intros L. split.
  - apply (proj2 (proj2 (is_emulated_device_symlink 0 L
                           (PStr "/tmp/tb/dev/tty") S_IFLNK initial
                           eq_refl eq_refl eq_refl))
                 "/dev/pts/3" eq_refl).
    vm_compute. discriminate.
  - apply (proj2 (proj2 (is_emulated_device_symlink 0 L
                           (PStr "/tmp/tb/dev/log") S_IFLNK initial
                           eq_refl eq_refl eq_refl))
                 "../run/log" eq_refl).
    vm_compute. discriminate.
Defined.

End StatMore.

(** ** Netlink emulation: binding and closing the replacement socket *)

Section Bind.

Import FdMap CLib Preload PreloadIO Notions.
Local Open Scope string_scope.
Local Open Scope list_scope.
Local Open Scope Z_scope.

Lemma str_take_length_le (n : nat) (str : string) :
  (String.length (str_take n str) ≤ n)%nat.
Proof.
  revert str. induction n as [|n IH]; intros str; [done|].
  destruct str as [|c str]; simpl; [lia|]. specialize (IH str). lia.
Qed.

(** X20 -- Binding a uevent socket.  In a testbed, [bind] on a descriptor
    that [socket] has registered ignores the address of the caller: it
    removes the file <root>/event<fd> -- the name cut to the 107
    characters that fit [sun_path] -- and binds the descriptor to that
    Unix address, returning the result of the real [bind].  On any other
    descriptor, and outside a testbed, it is the real [bind] with the
    caller's address. *)
Theorem bind_uevent_socket (L : libc) (IO : libc_io) (sockfd addr addrlen : Z)
    (w : world) :
  (∀ root,
     fst (fd_map_get (wrapped_sockets (lib w)) sockfd) ≠ 0 →
     getenv L "UMOCKDEV_DIR" = Some root →
     let p := str_take 107 (root +:+ "/event" +:+ fmt_i sockfd) in
     let sa := SaUn {| sun_family := AF_UNIX; sun_path := p |} in
     calls (snd (bind L IO sockfd addr addrlen w))
     = calls w ++ [CallUnlink p; CallBind sockfd sa 110] ∧
     fst (bind L IO sockfd addr addrlen w)
     = match k_bind IO sockfd sa 110 with
       | SysOk _ => 0
       | SysErr _ => -1
       end ∧
     strlen p ≤ 107 ∧
     ∀ addr' addrlen',
       bind L IO sockfd addr' addrlen' w = bind L IO sockfd addr addrlen w) ∧
  (fst (fd_map_get (wrapped_sockets (lib w)) sockfd) = 0
   ∨ getenv L "UMOCKDEV_DIR" = None →
   bind L IO sockfd addr addrlen w
   = ret_unit (k_bind IO sockfd (SaCaller addr) addrlen)
       (add_call (CallBind sockfd (SaCaller addr) addrlen) w)).
Proof.
  split.
  - intros root Hreg Henv p sa.
    assert (Hrun : ∀ a len,
              bind L IO sockfd a len w
              = ret_unit (k_bind IO sockfd sa 110)
                  (add_call (CallBind sockfd sa 110)
                     (snd (ret_unit (k_unlink IO p)
                             (add_call (CallUnlink p) w))))).
    { intros a len. unfold bind. rewrite Henv.
      apply Z.eqb_neq in Hreg. rewrite Hreg. done. }
    split; [|split; [|split]].
    + rewrite Hrun. unfold ret_unit.
      destruct (k_bind IO sockfd sa 110), (k_unlink IO p); simpl;
        by rewrite <- app_assoc.
    + rewrite Hrun. unfold ret_unit.
      by destruct (k_bind IO sockfd sa 110).
    + unfold p, strlen. pose proof (str_take_length_le 107
        (root +:+ "/event" +:+ fmt_i sockfd)). lia.
    + intros addr' addrlen'. by rewrite !Hrun.
  - intros Hcase. unfold bind.
    destruct (getenv L "UMOCKDEV_DIR") as [root|]; [|done].
    destruct Hcase as [Hun | Hnone]; [|done].
    by rewrite Hun.
Qed.

(** The uevent socket 5 in the testbed /tmp/tb. *)
Lemma bind_uevent_socket_witness :
  calls (snd (bind (Scenario.testbed "/tmp/tb" []) Runs.bare_io 5 4096 12
                Runs.uevent_socket_world))
  = [CallUnlink "/tmp/tb/event5";
     CallBind 5 (SaUn {| sun_family := AF_UNIX;
                         sun_path := "/tmp/tb/event5" |}) 110].
Proof.
  apply (proj1 (proj1 (bind_uevent_socket (Scenario.testbed "/tmp/tb" [])
                         Runs.bare_io 5 4096 12 Runs.uevent_socket_world)
                      "/tmp/tb" ltac:(vm_compute; discriminate) eq_refl)).
Defined.

Lemma dec_digits_length (k fuel : nat) (n : Z) (acc : list Z) :
  (1 ≤ k)%nat → 0 ≤ n < 10 ^ Z.of_nat k →
  (length (dec_digits fuel n acc) ≤ length acc + k)%nat.
Proof.
  revert k n acc. induction fuel as [|fuel IH]; intros k n acc Hk Hn;
    simpl; [lia|].
  destruct (Z.eqb_spec (n / 10) 0) as [Hq|Hq]; [simpl; lia|].
  assert (H10 : 10 ≤ n).
  { destruct (Z_lt_le_dec n 10) as [Hlt|]; [|done].
    exfalso. apply Hq. apply Z.div_small. lia. }
  destruct k as [|[|k]]; [lia| simpl in Hn; lia |].
  etransitivity; [apply (IH (S k)); [lia|]|simpl; lia].
  split; [apply Z.div_pos; lia|].
  apply Z.div_lt_upper_bound; [lia|].
  rewrite <- Z.pow_succ_r by lia. rewrite <- Nat2Z.inj_succ. lia.
Qed.

Lemma string_of_bytes_length (l : list Z) :
  String.length (string_of_bytes l) = length l.
Proof.
  unfold string_of_bytes. induction l as [|c l IH]; simpl; [done|].
  by rewrite IH.
Qed.

Lemma string_of_bytes_inj (l1 l2 : list Z) :
  Forall (λ c, 48 ≤ c ≤ 57) l1 → Forall (λ c, 48 ≤ c ≤ 57) l2 →
  string_of_bytes l1 = string_of_bytes l2 → l1 = l2.
Proof.
  unfold string_of_bytes. intros H1. revert l2.
  induction H1 as [|c l1 Hc _ IH]; intros l2 H2 Heq.
  - by destruct l2.
  - destruct H2 as [|d l2 Hd H2]; [done|].
    simpl in Heq. injection Heq as Hcd Hrest.
    f_equal; [|by apply IH].
    assert (Hn : Z.to_N c = Z.to_N d).
    { rewrite <- (N_ascii_embedding (Z.to_N c)), <- (N_ascii_embedding (Z.to_N d))
        by lia.
      by rewrite Hcd. }
    lia.
Qed.

Lemma fmt_i_inj (a b : Z) : 0 ≤ a → 0 ≤ b → fmt_i a = fmt_i b → a = b.
Proof.
  intros Ha Hb. unfold fmt_i.
  replace (a <? 0) with false by (symmetry; apply Z.ltb_ge; lia).
  replace (b <? 0) with false by (symmetry; apply Z.ltb_ge; lia).
  intros Heq.
  destruct (fmt_lu_decimal a Ha) as [Hva Hda].
  destruct (fmt_lu_decimal b Hb) as [Hvb Hdb].
  apply string_of_bytes_inj in Heq; [|done|done].
  rewrite <- Hva, <- Hvb. by rewrite Heq.
Qed.

Lemma fmt_i_length (a : Z) :
  0 ≤ a < 2 ^ 31 → (String.length (fmt_i a) ≤ 10)%nat.
Proof.
  intros Ha. unfold fmt_i.
  replace (a <? 0) with false by (symmetry; apply Z.ltb_ge; lia).
  rewrite string_of_bytes_length. unfold fmt_lu.
  apply (dec_digits_length 10 _ a []); [lia|].
  change (10 ^ Z.of_nat 10) with 10000000000. lia.
Qed.

Lemma app_inv_head_str (a x y : string) : a +:+ x = a +:+ y → x = y.
Proof.
  induction a as [|c a IH]; [done|].
  rewrite !app_cons. intros [= H]. by apply IH.
Qed.

Lemma str_take_app_le (n : nat) (a b : string) :
  (n ≤ String.length a)%nat → str_take n (a +:+ b) = str_take n a.
Proof.
  revert a. induction n as [|n IH]; intros a Hn; [done|].
  destruct a as [|c a]; simpl in Hn; [lia|].
  rewrite app_cons. simpl. rewrite IH by lia. done.
Qed.

Lemma length_app_str (a b : string) :
  String.length (a +:+ b) = (String.length a + String.length b)%nat.
Proof.
  pose proof (strlen_app a b) as H. unfold strlen in H. lia.
Qed.

(** X21 -- One socket file per descriptor.  In a testbed whose root has at
    most 91 characters, two registered descriptors that [bind] binds to
    the same socket path are the same descriptor.  With a root of 107
    characters or more the descriptor number is cut off the name, and
    every registered descriptor is bound to the same path. *)
Theorem bind_one_path_per_descriptor (L : libc) (IO : libc_io)
    (root : string) (fd1 fd2 addr1 addr2 len1 len2 : Z) (w1 w2 : world) :
  getenv L "UMOCKDEV_DIR" = Some root →
  0 ≤ fd1 < 2 ^ 31 →
  0 ≤ fd2 < 2 ^ 31 →
  ∀ sa1 sa2 n1 n2,
    list.last (calls (snd (bind L IO fd1 addr1 len1 w1)))
    = Some (CallBind fd1 (SaUn sa1) n1) →
    list.last (calls (snd (bind L IO fd2 addr2 len2 w2)))
    = Some (CallBind fd2 (SaUn sa2) n2) →
    (strlen root ≤ 91 → sun_path sa1 = sun_path sa2 → fd1 = fd2) ∧
    (107 ≤ strlen root → sun_path sa1 = sun_path sa2).
Proof.
  intros Henv Hfd1 Hfd2 sa1 sa2 n1 n2 Hb1 Hb2.
  assert (Hpath : ∀ fd a len w sa n,
            list.last (calls (snd (bind L IO fd a len w)))
            = Some (CallBind fd (SaUn sa) n) →
            sun_path sa = str_take 107 (root +:+ "/event" +:+ fmt_i fd)).
  { intros fd a len w sa n. unfold bind. rewrite Henv.
    destruct (negb _).
    - unfold ret_unit.
      destruct (k_bind IO fd _ _), (k_unlink IO _); simpl;
        rewrite last_snoc; by intros [= <- _].
    - unfold ret_unit.
      destruct (k_bind IO fd _ _); simpl; rewrite last_snoc; by intros [=]. }
  rewrite (Hpath _ _ _ _ _ _ Hb1), (Hpath _ _ _ _ _ _ Hb2).
  split.
  - intros Hshort Heq.
    pose proof (fmt_i_length fd1 Hfd1). pose proof (fmt_i_length fd2 Hfd2).
    rewrite !str_take_all in Heq
      by (rewrite !length_app_str; unfold strlen in Hshort;
          change (String.length "/event") with 6%nat; lia).
    apply app_inv_head_str, app_inv_head_str in Heq.
    apply fmt_i_inj; [lia|lia|done].
  - intros Hlong.
    rewrite !str_take_app_le by (unfold strlen in Hlong; lia). done.
Qed.

(** The descriptors 5 and 6 in the testbed /tmp/tb. *)
Lemma bind_one_path_per_descriptor_witness :
  (strlen "/tmp/tb" ≤ 91 → "/tmp/tb/event5" = "/tmp/tb/event6" → 5 = 6) ∧
  (107 ≤ strlen "/tmp/tb" → "/tmp/tb/event5" = "/tmp/tb/event6").
Proof.
  apply (bind_one_path_per_descriptor (Scenario.testbed "/tmp/tb" [])
           Runs.bare_io "/tmp/tb" 5 6 0 0 0 0
           Runs.uevent_socket_world
           (set_lib (set_wrapped_sockets (Scenario.one_entry 6 0) initial)
              start)
           eq_refl ltac:(lia) ltac:(lia)
           {| sun_family := AF_UNIX; sun_path := "/tmp/tb/event5" |}
           {| sun_family := AF_UNIX; sun_path := "/tmp/tb/event6" |}
           110 110).
  - reflexivity.
  - reflexivity.
Defined.

End Bind.

(** ** Closing descriptors *)

Section Close.

Import FdMap CLib Preload PreloadIO Notions Slots.
Local Open Scope string_scope.
Local Open Scope list_scope.
Local Open Scope Z_scope.

Lemma set_lib_same (w : world) : set_lib (lib w) w = w.
Proof. by destruct w. Qed.

Lemma rbind_Ok {A B} (a : A) (k : A → outcome B) : rbind (Ok a) k = k a.
Proof. done. Qed.

Lemma get_absent_pair (t : fd_map) (fd : Z) :
  fst (fd_map_get t fd) = 0 → fd_map_get t fd = (0, NULL).
Proof.
  unfold fd_map_get. by destruct (scan (slot_has t fd) 0 FD_MAP_MAX).
Qed.

(** Closing a descriptor that no registry holds and that is not the
    recording descriptor is the real [close]. *)
Lemma close_unregistered (L : libc) (IO : libc_io) (fd : Z) (w : world) :
  fst (fd_map_get (wrapped_sockets (lib w)) fd) = 0 →
  fst (fd_map_get (ioctl_wrapped_fds (lib w)) fd) = 0 →
  fst (fd_map_get (script_recorded_fds (lib w)) fd) = 0 →
  fd ≠ ioctl_record_fd (lib w) →
  close L IO fd w
  = Ok (ret_unit (k_close IO fd) (add_call (CallClose fd) w)).
Proof.
  intros Hs Hi Hr Hrec. unfold close.
  rewrite Hs. change (negb (0 =? 0)) with false. cbv iota.
  unfold rbind at 1. rewrite (get_absent_pair _ _ Hi).
  change (negb (0 =? 0)) with false. cbv iota.
  unfold rbind at 1. rewrite set_lib_same.
  apply Z.eqb_neq in Hrec. rewrite Hrec.
  unfold rbind at 1. unfold script_record_close.
  rewrite (get_absent_pair _ _ Hr). done.
Qed.

(** X22 -- A uevent socket from [socket] to [close].  For a descriptor
    that no registry of the library holds yet: the [socket] wrapper
    registers the descriptor it returns, and [close] on it takes the entry
    out again -- the descriptor is no longer treated as a uevent socket
    and the table holds as many entries as before -- and returns the
    result of the real [close], which it calls once. *)
Theorem uevent_socket_round_trip (L : libc) (IO : libc_io) (type : Z)
    (w : world) :
  let fd := sys_value (k_socket L AF_UNIX type 0) in
  wf (wrapped_sockets (lib w)) →
  (entries (wrapped_sockets (lib w)) < 50)%nat →
  fst (fd_map_get (wrapped_sockets (lib w)) fd) = 0 →
  fst (fd_map_get (ioctl_wrapped_fds (lib w)) fd) = 0 →
  fst (fd_map_get (script_recorded_fds (lib w)) fd) = 0 →
  fd ≠ ioctl_record_fd (lib w) →
  ∃ s1 w2,
    socket L AF_NETLINK type NETLINK_KOBJECT_UEVENT (lib w) = Ok (fd, s1) ∧
    fd_map_get (wrapped_sockets s1) fd = (1, NULL) ∧
    close L IO fd (set_lib s1 w)
    = Ok (match k_close IO fd with SysOk _ => 0 | SysErr _ => -1 end, w2) ∧
    fd_map_get (wrapped_sockets (lib w2)) fd = (0, NULL) ∧
    entries (wrapped_sockets (lib w2)) = entries (wrapped_sockets (lib w)) ∧
    calls w2 = calls w ++ [CallClose fd].
Proof.
  intros fd Hwf Hlt Habs Hio Hsr Hrec.
  destruct (free_slot_found _ Hlt) as [i Hi].
  set (t := wrapped_sockets (lib w)) in *.
  destruct (add_at_removed t fd NULL i Hwf Habs Hi) as (Hrem & Hgone & Hcnt).
  pose proof (add_at_get t fd NULL i Hwf Habs Hi) as Hget.
  (* the state after the real socket call *)
  set (s0 := match k_socket L AF_UNIX type 0 with
             | SysOk _ => lib w
             | SysErr e => set_errno e (lib w)
             end).
  assert (Hreal : (match k_socket L AF_UNIX type 0 with
                   | SysOk fd => (fd, lib w)
                   | SysErr e => (-1, set_errno e (lib w))
                   end) = (fd, s0)).
  { unfold fd, s0, sys_value. by destruct (k_socket L AF_UNIX type 0). }
  assert (Hs0 : wrapped_sockets s0 = t
                ∧ ioctl_wrapped_fds s0 = ioctl_wrapped_fds (lib w)
                ∧ script_recorded_fds s0 = script_recorded_fds (lib w)
                ∧ ioctl_record_fd s0 = ioctl_record_fd (lib w)).
  { unfold s0. by destruct (k_socket L AF_UNIX type 0). }
  destruct Hs0 as (Hs0a & Hs0b & Hs0c & Hs0d).
  exists (set_wrapped_sockets (add_at t i fd NULL) s0).
  exists (snd (ret_unit (k_close IO fd)
                 (add_call (CallClose fd)
                    (set_lib
                       (set_wrapped_sockets (clear_at (add_at t i fd NULL) i)
                          (set_wrapped_sockets (add_at t i fd NULL) s0))
                       w)))).
  split.
  { unfold socket. simpl andb. cbv iota. rewrite Hreal.
    rewrite Hs0a. unfold fd_map_add. rewrite Hi. done. }
  split; [exact Hget|].
  split.
  { unfold close. cbn [lib set_lib wrapped_sockets set_wrapped_sockets].
    rewrite Hget. cbn [fst]. change (negb (1 =? 0)) with true. cbv iota.
    rewrite Hrem, !rbind_Ok.
    cbn [ioctl_wrapped_fds set_wrapped_sockets].
    rewrite Hs0b, (get_absent_pair _ _ Hio).
    change (negb (0 =? 0)) with false. cbv iota. rewrite rbind_Ok.
    cbn [lib set_lib ioctl_record_fd set_wrapped_sockets]. rewrite Hs0d.
    apply Z.eqb_neq in Hrec. rewrite Hrec. rewrite rbind_Ok.
    unfold script_record_close.
    cbn [lib set_lib script_recorded_fds set_wrapped_sockets].
    rewrite Hs0c, (get_absent_pair _ _ Hsr).
    change (0 =? 0) with true. cbv iota. rewrite rbind_Ok.
    unfold ret_unit. destruct (k_close IO fd); reflexivity. }
  unfold ret_unit.
  destruct (k_close IO fd); cbn [snd lib set_lib calls add_call set_calls
    wrapped_sockets set_wrapped_sockets set_errno]; by rewrite Hgone, Hcnt.
Qed.

(** The uevent socket 5, opened and closed from the initial state. *)
Lemma uevent_socket_round_trip_witness :
  ∃ s1 w2,
    socket Scenario.bare AF_NETLINK 2 NETLINK_KOBJECT_UEVENT (lib start)
    = Ok (5, s1) ∧
    fd_map_get (wrapped_sockets s1) 5 = (1, NULL) ∧
    close Scenario.bare Runs.bare_io 5 (set_lib s1 start) = Ok (0, w2) ∧
    fd_map_get (wrapped_sockets (lib w2)) 5 = (0, NULL) ∧
    entries (wrapped_sockets (lib w2)) = entries (wrapped_sockets (lib start)) ∧
    calls w2 = calls start ++ [CallClose 5].
Proof.
  apply (uevent_socket_round_trip Scenario.bare Runs.bare_io 2 start).
  - by vm_compute.
  - vm_compute. lia.
  - reflexivity.
  - reflexivity.
  - reflexivity.
  - vm_compute. discriminate.
Defined.

Lemma ioctl_record_close_recorded (L : libc) (s : globals) :
  ioctl_record s ≠ NULL →
  k_ftruncate L (ioctl_record_log s) = SysOk () →
  ioctl_record_close L s
  = Ok (add_event (EvFflush (ioctl_record_log s))
          (add_event (EvTreeWrite (ioctl_record_log s) (ioctl_record s))
             (add_event (EvFtruncate (ioctl_record_log s))
                (add_event (EvRewind (ioctl_record_log s)) s)))).
Proof.
  intros Hrec Htr. unfold ioctl_record_close.
  apply Z.eqb_neq in Hrec. rewrite Hrec. simpl negb. cbv iota.
  by rewrite Htr.
Qed.

(** X23 -- Closing and the ioctl record.  For a descriptor that no
    registry holds: closing any descriptor but the recording one is the
    real [close] and nothing else.  Closing the recording descriptor ends
    the recording on it; if anything has been recorded, the record file is
    first rewound, truncated, written with the whole recorded tree and
    flushed, in this order -- the process is aborted, before the real
    [close], if truncating fails.  The record file stays open and the
    recorded tree is kept. *)
Theorem close_recording_descriptor (L : libc) (IO : libc_io) (fd : Z)
    (w : world) :
  fst (fd_map_get (wrapped_sockets (lib w)) fd) = 0 →
  fst (fd_map_get (ioctl_wrapped_fds (lib w)) fd) = 0 →
  fst (fd_map_get (script_recorded_fds (lib w)) fd) = 0 →
  let s := lib w in
  let f := ioctl_record_log s in
  (fd ≠ ioctl_record_fd s →
   close L IO fd w
   = Ok (ret_unit (k_close IO fd) (add_call (CallClose fd) w))) ∧
  (fd = ioctl_record_fd s → ioctl_record s = NULL →
   close L IO fd w
   = Ok (ret_unit (k_close IO fd)
           (add_call (CallClose fd)
              (set_lib (set_ioctl_record_fd (-1) s) w)))) ∧
  (fd = ioctl_record_fd s → ioctl_record s ≠ NULL →
   (∀ e, k_ftruncate L f = SysErr e → close L IO fd w = Stop Aborted) ∧
   (k_ftruncate L f = SysOk () →
    ∃ r w', close L IO fd w = Ok (r, w') ∧
            trace (lib w')
            = trace s ++ [EvRewind f; EvFtruncate f;
                          EvTreeWrite f (ioctl_record s); EvFflush f] ∧
            ioctl_record_fd (lib w') = -1 ∧
            ioctl_record_log (lib w') = f ∧
            ioctl_record (lib w') = ioctl_record s ∧
            calls w' = calls w ++ [CallClose fd])).
Proof.
  intros Hs Hi Hr s f.
  assert (Hhead : close L IO fd w
            = let* w1 :=
                if fd =? ioctl_record_fd s then
                  let* s1 := ioctl_record_close L s in
                  Ok (set_lib (set_ioctl_record_fd (-1) s1) w)
                else Ok w in
              let* w2 := script_record_close fd w1 in
              Ok (ret_unit (k_close IO fd) (add_call (CallClose fd) w2))).
  { unfold close, s.
    rewrite Hs. change (negb (0 =? 0)) with false. cbv iota.
    rewrite rbind_Ok. rewrite (get_absent_pair _ _ Hi).
    change (negb (0 =? 0)) with false. cbv iota.
    rewrite rbind_Ok. by rewrite set_lib_same. }
  assert (Hscr : ∀ s1, script_recorded_fds s1 = script_recorded_fds s →
                       script_record_close fd (set_lib s1 w)
                       = Ok (set_lib s1 w)).
  { intros s1 Heq. unfold script_record_close. cbn [lib set_lib].
    rewrite Heq. unfold s. by rewrite (get_absent_pair _ _ Hr). }
  split; [|split].
  - intros Hne. by apply close_unregistered.
  - intros Heq Hnone. rewrite Hhead. rewrite <- Heq, Z.eqb_refl.
    unfold ioctl_record_close. rewrite Hnone.
    change (negb (NULL =? NULL)) with false. cbv iota.
    rewrite !rbind_Ok. by rewrite Hscr.
  - intros Heq Hrec. split.
    + intros e He. rewrite Hhead. rewrite <- Heq, Z.eqb_refl.
      unfold ioctl_record_close.
      apply Z.eqb_neq in Hrec. rewrite Hrec. simpl negb. cbv iota.
      fold f. by rewrite He.
    + intros Htr. rewrite Hhead. rewrite <- Heq, Z.eqb_refl.
      rewrite (ioctl_record_close_recorded L s Hrec Htr), !rbind_Ok.
      rewrite Hscr by done. rewrite rbind_Ok.
      match goal with
      | |- ∃ r w', Ok ?res = _ ∧ _ => exists (fst res), (snd res)
      end.
      split; [by destruct (ret_unit _ _)|].
      unfold ret_unit. fold f.
      destruct (k_close IO fd); cbn; rewrite <- ?app_assoc; done.
Qed.

(** Closing the recording descriptor 3 after one recorded ioctl, and
    closing descriptor 4. *)
Lemma close_recording_descriptor_witness :
  let w := set_lib (set_ioctl_record 5000 Runs.recording_on_3) start in
  close Scenario.recording Runs.bare_io 4 w
  = Ok (0, add_call (CallClose 4) w) ∧
  ∃ r w', close Scenario.recording Runs.bare_io 3 w = Ok (r, w') ∧
          trace (lib w')
          = [EvRewind 600; EvFtruncate 600; EvTreeWrite 600 5000;
             EvFflush 600] ∧
          ioctl_record_fd (lib w') = -1 ∧
          ioctl_record_log (lib w') = 600 ∧
          ioctl_record (lib w') = 5000 ∧
          calls w' = [CallClose 3].
Proof.
  intros w. split.
  - apply (proj1 (close_recording_descriptor Scenario.recording Runs.bare_io
                    4 w eq_refl eq_refl eq_refl)).
    vm_compute. discriminate.
  - apply (proj2 (proj2 (proj2 (close_recording_descriptor Scenario.recording
                                  Runs.bare_io 3 w eq_refl eq_refl eq_refl))
                        eq_refl ltac:(vm_compute; discriminate))).
    reflexivity.
Defined.

End Close.

(** ** Opening an emulated device *)

Section Open.

Import FdMap CLib Preload PreloadIO Notions Slots.
Local Open Scope string_scope.
Local Open Scope list_scope.
Local Open Scope Z_scope.

(** The [fopen] wrapper on a path outside /dev and /sys. *)
Lemma fopen_untrapped (depth : nat) (L : libc) (path mode : string)
    (s : globals) :
  trapped_path path = false →
  fopen (S depth) L (PStr path) mode s = Ok (real_fopen L mode path s).
Proof.
  intros Hun. unfold fopen, wrap_path, wrap_with.
  by rewrite trap_path_untrapped.
Qed.

Lemma starts_with_slash (path pre : string) :
  starts_with path (String "/" pre) = true → ∃ rest, path = String "/" rest.
Proof.
  unfold starts_with. destruct path as [|c rest]; [done|].
  cbn [String.prefix]. split_chars; [eauto | done].
Qed.

(** What [ioctl_wrap_open] does for a path under /dev/ and a descriptor
    that is not registered yet. *)
Lemma ioctl_wrap_open_registers (depth : nat) (L : libc) (IO : libc_io)
    (fd : Z) (path : string) (w : world) (root : string) :
  getenv L "UMOCKDEV_DIR" = Some root →
  root ≠ "" →
  trapped_path root = false →
  starts_with path "/dev/" = true →
  strlen root + 7 + strlen path < PATH_MAX →
  k_malloc IO (mallocs w) ≠ NULL →
  wf (ioctl_wrapped_fds (lib w)) →
  (entries (ioctl_wrapped_fds (lib w)) < 50)%nat →
  fst (fd_map_get (ioctl_wrapped_fds (lib w)) fd) = 0 →
  let a := k_malloc IO (mallocs w) in
  let ioctl_path := root +:+ "/ioctl/" +:+ path in
  let f := k_fopen L ioctl_path "r" in
  let t := ioctl_tree_read L f in
  (f ≠ NULL → t = NULL →
   ioctl_wrap_open (S depth) L IO fd path w = Stop (Exited 1)) ∧
  (f = NULL ∨ t ≠ NULL →
   ∃ w', ioctl_wrap_open (S depth) L IO fd path w = Ok w' ∧
         fd_map_get (ioctl_wrapped_fds (lib w')) fd = (1, a) ∧
         fdinfo_heap (lib w') !! a
         = Some {| tree := if f =? NULL then NULL else t; last := NULL |} ∧
         calls w'
         = calls w ++ (if f =? NULL then [] else [CallFclose f]) ∧
         trace (lib w')
         = trace (lib w) ++ EvFopen ioctl_path "r"
             :: (if f =? NULL then [] else [EvTreeRead f])).
Proof.
  intros Henv Hne Hun Hdev Hlen Hma Hwf Hlt Habs a ioctl_path f t.
  destruct (free_slot_found _ Hlt) as [i Hi].
  pose proof (add_at_get _ fd a i Hwf Habs Hi) as Hget.
  pose proof (strlen_nonneg root) as Hr0.
  pose proof (strlen_nonneg path) as Hp0.
  assert (Hpath : str_take (Z.to_nat (PATH_MAX - 1))
                    (default "(null)" (getenv L "UMOCKDEV_DIR")
                     +:+ "/ioctl/" +:+ path) = ioctl_path).
  { rewrite Henv. cbn [from_option id]. apply str_take_all. unfold ioctl_path.
    rewrite !length_app_str. change (String.length "/ioctl/") with 7%nat.
    unfold strlen, PATH_MAX in *. lia. }
  assert (Hout : trapped_path ioctl_path = false).
  { unfold ioctl_path. by apply (outside_root root ("ioctl/" +:+ path)). }
  assert (Hrun : ioctl_wrap_open (S depth) L IO fd path w
            = let s1 :=
                add_event (EvFopen ioctl_path "r")
                  (set_ioctl_wrapped_fds
                     (add_at (ioctl_wrapped_fds (lib w)) i fd a)
                     (set_fdinfo_heap
                        (<[a := {| tree := NULL; last := NULL |}]>
                           (fdinfo_heap (lib w))) (lib w))) in
              let w1 := set_mallocs (S (mallocs w)) w in
              if f =? NULL
              then Ok (set_lib
                         (set_errno (fopen_errno L ioctl_path "r") s1) w1)
              else
                let s2 :=
                  set_fdinfo_heap
                    (<[a := {| tree := t; last := NULL |}]>
                       (fdinfo_heap (add_event (EvTreeRead f) s1)))
                    (add_event (EvTreeRead f) s1) in
                if t =? NULL then Stop (Exited 1)
                else Ok (add_call (CallFclose f) (set_lib s2 w1))).
  { unfold ioctl_wrap_open. rewrite Hdev. simpl negb. cbv iota.
    unfold malloc. fold a.
    apply Z.eqb_neq in Hma. fold a in Hma. rewrite Hma.
    cbn [lib set_mallocs ioctl_wrapped_fds set_fdinfo_heap].
    unfold fd_map_add. rewrite Hi. rewrite rbind_Ok.
    rewrite Hpath. rewrite fopen_untrapped by done.
    unfold real_fopen. fold f.
    destruct (f =? NULL) eqn:Hf; rewrite rbind_Ok, ?Hf; fold t; done. }
  rewrite Hrun. clear Hrun. cbv zeta.
  split.
  - intros Hf Ht. apply Z.eqb_neq in Hf. rewrite Hf, Ht. done.
  - intros Hcase. destruct (Z.eqb_spec f NULL) as [Hf|Hf].
    + eexists. split; [reflexivity|].
      cbn. rewrite lookup_insert_eq, app_nil_r. done.
    + destruct Hcase as [Hf'|Ht]; [done|].
      apply Z.eqb_neq in Ht. rewrite Ht.
      eexists. split; [reflexivity|].
      cbn. rewrite lookup_insert_eq, <- !app_assoc. done.
Qed.

(** X24 -- Opening an emulated device.  In a testbed that is not
    disabled, [open] of a path under /dev/ whose shadow file exists calls
    the real [open] on the shadow file and registers the descriptor it
    returns -- also the -1 of a failed call -- for ioctl emulation, with a
    newly allocated record.  If the file <root>/ioctl/<path> can be opened
    it is read as the ioctl tree of the descriptor and closed again; if it
    holds no tree the process exits with status 1.  Without such a file
    the descriptor is registered with no tree.  The recorders are not
    consulted. *)
Theorem open_emulated_device (fuel depth : nat) (L : libc) (IO : libc_io)
    (path : string) (flags mode : Z) (w : world) (root : string) :
  getenv L "UMOCKDEV_DIR" = Some root →
  root ≠ "" →
  trapped_path root = false →
  starts_with path "/dev/" = true →
  strlen root + 7 + strlen path < PATH_MAX →
  file_exists L (root +:+ "/disabled") = false →
  file_exists L (root +:+ path) = true →
  k_malloc IO (mallocs w) ≠ NULL →
  wf (ioctl_wrapped_fds (lib w)) →
  (entries (ioctl_wrapped_fds (lib w)) < 50)%nat →
  let m := if negb (Z.land flags O_CREAT =? 0) then Some mode else None in
  let fd := sys_value (k_open IO (root +:+ path) flags m) in
  fst (fd_map_get (ioctl_wrapped_fds (lib w)) fd) = 0 →
  let a := k_malloc IO (mallocs w) in
  let f := k_fopen L (root +:+ "/ioctl/" +:+ path) "r" in
  let t := ioctl_tree_read L f in
  (f ≠ NULL → t = NULL →
   open fuel (S (S depth)) L IO (PStr path) flags mode w
   = Some (Stop (Exited 1))) ∧
  (f = NULL ∨ t ≠ NULL →
   ∃ w', open fuel (S (S depth)) L IO (PStr path) flags mode w
         = Some (Ok (fd, w')) ∧
         fd_map_get (ioctl_wrapped_fds (lib w')) fd = (1, a) ∧
         fdinfo_heap (lib w') !! a
         = Some {| tree := if f =? NULL then NULL else t; last := NULL |} ∧
         calls w'
         = calls w ++ CallOpen (root +:+ path) flags m
             :: (if f =? NULL then [] else [CallFclose f]) ∧
         record_rdev (lib w') = record_rdev (lib w) ∧
         script_dev_logfile_map_inited w'
         = script_dev_logfile_map_inited w).
Proof.
  intros Henv Hne Hun Hdev Hlen Hdis Hshadow Hma Hwf Hlt m fd Habs a f t.
  destruct (starts_with_slash _ _ Hdev) as [rest Hrest].
  pose proof (strlen_nonneg root) as Hr0.
  assert (Htrap : trap_path (S (S depth)) L (PStr path) (lib w)
                  = Ok (PBuf, set_trap_buf (root +:+ path) (lib w))).
  { pose proof (strlen_nonneg path) as Hp0.
    rewrite (trap_path_dev depth L root path (lib w) Henv);
      [by rewrite Hdis, Hshadow | by left | | |
       by apply (outside_root root "disabled") |
       rewrite Hrest; by apply outside_root].
    all: unfold sizeof_buf, PATH_MAX in *; lia. }
  (* the state in which ioctl_wrap_open runs *)
  set (w0 := add_call (CallOpen (root +:+ path) flags m)
               (set_lib (set_trap_buf (root +:+ path) (lib w)) w)).
  set (w1 := snd (ret_int (k_open IO (root +:+ path) flags m) w0)).
  assert (Hret : ret_int (k_open IO (root +:+ path) flags m) w0 = (fd, w1)).
  { unfold w1, fd, sys_value, ret_int.
    by destruct (k_open IO (root +:+ path) flags m). }
  assert (Hw1 : mallocs w1 = mallocs w
                ∧ ioctl_wrapped_fds (lib w1) = ioctl_wrapped_fds (lib w)
                ∧ calls w1 = calls w ++ [CallOpen (root +:+ path) flags m]
                ∧ record_rdev (lib w1) = record_rdev (lib w)
                ∧ script_dev_logfile_map_inited w1
                  = script_dev_logfile_map_inited w).
  { unfold w1, ret_int.
    by destruct (k_open IO (root +:+ path) flags m). }
  destruct Hw1 as (Hm1 & Hio1 & Hc1 & Hrr1 & Hin1).
  assert (Hrun : open fuel (S (S depth)) L IO (PStr path) flags mode w
            = Some (let* w' := ioctl_wrap_open (S (S depth)) L IO fd path w1 in
                    Ok (fd, w'))).
  { unfold open. rewrite Htrap. cbn [is_null]. cbv iota.
    cbn [deref trap_buf set_trap_buf]. fold m. fold w0.
    rewrite Hret. cbn [ptr_eqb negb]. cbv iota. done. }
  rewrite Hrun. clear Hrun.
  destruct (ioctl_wrap_open_registers (S depth) L IO fd path w1 root
              Henv Hne Hun Hdev Hlen
              ltac:(by rewrite Hm1) ltac:(by rewrite Hio1)
              ltac:(by rewrite Hio1) ltac:(by rewrite Hio1))
    as [Hexit Hok].
  cbv zeta in Hexit, Hok. rewrite Hm1 in Hok. fold a f t in Hexit, Hok.
  split.
  - intros Hf Ht. by rewrite (Hexit Hf Ht).
  - intros Hcase. destruct (Hok Hcase) as (w' & Hwo & Hg & Hh & Hc & Htr).
    exists w'. rewrite Hwo. split; [done|]. split; [done|].
    split; [done|]. split; [by rewrite Hc, Hc1, <- app_assoc|].
    (* the rest of the state, read off the run *)
    revert Hwo. unfold ioctl_wrap_open. rewrite Hdev. simpl negb. cbv iota.
    unfold malloc.
    destruct (k_malloc IO (mallocs w1) =? NULL); [done|].
    destruct (fd_map_add _ fd _) as [mm|]; [|done]. rewrite rbind_Ok.
    destruct (fopen _ L _ "r" _) as [[f' s']|] eqn:Hfo; [|done].
    rewrite rbind_Ok.
    assert (Hs' : record_rdev s' = record_rdev (lib w)).
    { revert Hfo. rewrite Henv. cbn [from_option id].
      rewrite str_take_all.
      - rewrite fopen_untrapped.
        + unfold real_fopen.
          destruct (_ =? NULL); intros [= _ <-]; done.
        + by apply (outside_root root ("ioctl/" +:+ path)).
      - rewrite !length_app_str. change (String.length "/ioctl/") with 7%nat.
        pose proof (strlen_nonneg path).
        unfold strlen, PATH_MAX in *. lia. }
    destruct (f' =? NULL).
    + intros [= <-]. cbn. by rewrite Hs', Hin1.
    + destruct (ioctl_tree_read L f' =? NULL); [done|].
      intros [= <-]. cbn. by rewrite Hs', Hin1.
Qed.

(** [open("/dev/ttyUSB0", O_RDWR)] in the serial testbed, from the initial
    state. *)
Lemma open_emulated_device_witness :
  ∃ w', open 0 2 Runs.serial_testbed (Runs.opening 7) (PStr "/dev/ttyUSB0")
          2 0 start
        = Some (Ok (7, w')) ∧
        fd_map_get (ioctl_wrapped_fds (lib w')) 7 = (1, 8000) ∧
        fdinfo_heap (lib w') !! 8000
        = Some {| tree := 3000; last := NULL |} ∧
        calls w' = [CallOpen "/tmp/tb/dev/ttyUSB0" 2 None; CallFclose 700] ∧
        record_rdev (lib w') = record_rdev (lib start) ∧
        script_dev_logfile_map_inited w' = 0.
Proof.
  apply (proj2 (open_emulated_device 0 0 Runs.serial_testbed (Runs.opening 7)
                  "/dev/ttyUSB0" 2 0 start "/tmp/tb"
                  eq_refl ltac:(discriminate) eq_refl eq_refl eq_refl
                  eq_refl eq_refl ltac:(vm_compute; discriminate)
                  ltac:(by vm_compute) ltac:(vm_compute; lia) eq_refl)).
  right. vm_compute. discriminate.
Defined.

End Open.

(** ** The configuration of the script recorder *)

Section ScriptInit.

Import FdMap CLib Preload PreloadIO Notions Slots ScriptConfig.
Local Open Scope string_scope.
Local Open Scope list_scope.
Local Open Scope Z_scope.









End ScriptInit.

(** ** Starting and ending a script recording *)

Section ScriptOpen.

Import FdMap CLib Preload PreloadIO Notions Slots ScriptConfig.
Local Open Scope string_scope.
Local Open Scope list_scope.
Local Open Scope Z_scope.

(** X26 -- Starting a script recording.  Once the configuration has been
    read, [script_record_open] leaves everything as it is for a
    descriptor whose device is not configured.  For a descriptor of a
    configured device that is not recorded yet, the log file named for the
    device is opened in mode w; if that fails the process exits with
    status 1.  Otherwise the descriptor is registered with a new record
    that holds the log, the current reading of the clock and no previous
    operation, and nothing has been written to the log. *)
Theorem script_record_open_starts (fuel depth : nat) (L : libc)
    (IO : libc_io) (fd : Z) (w : world) :
  script_dev_logfile_map_inited w ≠ 0 →
  let dev := to_int (fst (dev_of_fd L fd (lib w))) in
  (fst (fd_map_get (script_dev_logfile_map w) dev) = 0 →
   script_record_open fuel depth L IO fd w = Some (Ok w)) ∧
  (∀ lp name now,
     fd_map_get (script_dev_logfile_map w) dev = (1, lp) →
     cstrings w !! lp = Some name →
     trapped_path name = false →
     wf (script_recorded_fds (lib w)) →
     (entries (script_recorded_fds (lib w)) < 50)%nat →
     fst (fd_map_get (script_recorded_fds (lib w)) fd) = 0 →
     k_malloc IO (mallocs w) ≠ NULL →
     k_clock_gettime L (clock_ticks (lib w)) = (0, now) →
     let log_ := k_fopen L name "w" in
     let a := k_malloc IO (mallocs w) in
     (log_ = NULL →
      script_record_open fuel (S depth) L IO fd w
      = Some (Stop (Exited 1))) ∧
     (log_ ≠ NULL →
      ∃ w', script_record_open fuel (S depth) L IO fd w = Some (Ok w') ∧
            fd_map_get (script_recorded_fds (lib w')) fd = (1, a) ∧
            srinfo_heap (lib w') !! a
            = Some (fresh_script_record_info log_ now) ∧
            written log_ (lib w') = [] ∧
            clock_ticks (lib w') = S (clock_ticks (lib w)) ∧
            errno (lib w') = errno (lib w) ∧
            calls w' = calls w)).
Proof.
  intros Hinit dev.
  assert (Hhead : ∀ (k : world → outcome world),
            bbind (if script_dev_logfile_map_inited w =? 0
                   then init_script_dev_logfile_map fuel L IO w
                   else Some (Ok w)) k
            = Some (k w)).
  { intros k. apply Z.eqb_neq in Hinit. by rewrite Hinit. }
  split.
  - intros Hnone. unfold script_record_open. rewrite Hhead.
    rewrite dev_of_fd_eq. fold dev.
    rewrite (get_absent_pair _ _ Hnone). cbv iota beta.
    change (0 =? 0) with true. cbv iota. by rewrite set_lib_same.
  - intros lp name now Hdev Hname Hun Hwf Hlt Habs Hma Hclock log_ a.
    destruct (free_slot_found _ Hlt) as [i Hi].
    pose proof (add_at_get _ fd a i Hwf Habs Hi) as Hget.
    assert (Hrun : script_record_open fuel (S depth) L IO fd w
              = Some (if log_ =? NULL then Stop (Exited 1)
                      else
                        let s1 :=
                          set_clock_ticks (S (clock_ticks (lib w)))
                            (set_streams (<[log_ := []]> (streams (lib w)))
                               (add_event (EvFopen name "w") (lib w))) in
                        let s2 :=
                          set_srinfo_heap
                            (<[a := fresh_script_record_info log_ now]>
                               (srinfo_heap (lib w))) s1 in
                        Ok (set_lib
                              (set_script_recorded_fds
                                 (add_at (script_recorded_fds (lib w)) i fd a)
                                 s2)
                              (set_mallocs (S (mallocs w)) w)))).
    { unfold script_record_open. rewrite Hhead. f_equal.
      rewrite dev_of_fd_eq. fold dev. rewrite Hdev. cbv iota beta.
      change (1 =? 0) with false. cbv iota.
      rewrite Habs. change (negb (0 =? 0)) with false. cbv iota.
      rewrite Hname. rewrite fopen_untrapped by done.
      unfold real_fopen. fold log_.
      destruct (log_ =? NULL) eqn:Hl; rewrite rbind_Ok, ?Hl; [done|].
      unfold malloc. fold a.
      apply Z.eqb_neq in Hma. fold a in Hma. rewrite Hma.
      cbn [clock_ticks set_streams add_event set_trace].
      rewrite Hclock. change (0 =? 0) with true.
      unfold assert. rewrite rbind_Ok.
      cbn [script_recorded_fds set_srinfo_heap set_clock_ticks set_streams
           add_event set_trace srinfo_heap streams].
      unfold fd_map_add. rewrite Hi. rewrite rbind_Ok. done. }
    rewrite Hrun. clear Hrun. split.
    + intros ->. done.
    + intros Hlog. apply Z.eqb_neq in Hlog. rewrite Hlog. cbv zeta.
      eexists. split; [reflexivity|].
      cbn [lib set_lib script_recorded_fds set_script_recorded_fds].
      split; [exact Hget|].
      unfold written. cbn. rewrite !lookup_insert_eq. done.
Qed.

(** The first open of the recorded device, as descriptor 9. *)
Lemma script_record_open_starts_witness :
  ∃ w', script_record_open 0 1 Runs.script_recording (Runs.script_io []) 9
          Runs.script_configured = Some (Ok w') ∧
        fd_map_get (script_recorded_fds (lib w')) 9 = (1, 8000) ∧
        srinfo_heap (lib w') !! 8000
        = Some (fresh_script_record_info 77 (Scenario.at_msec 0)) ∧
        written 77 (lib w') = [] ∧
        clock_ticks (lib w') = 1%nat ∧
        errno (lib w') = 0 ∧
        calls w' = [].
Proof.
  apply (proj2 (proj2 (script_record_open_starts 0 0 Runs.script_recording
                         (Runs.script_io []) 9 Runs.script_configured
                         ltac:(vm_compute; discriminate))
                      9000 "/tmp/tty.script" (Scenario.at_msec 0)
                      eq_refl eq_refl eq_refl ltac:(by vm_compute)
                      ltac:(vm_compute; lia) eq_refl
                      ltac:(vm_compute; discriminate) eq_refl)).
  vm_compute. discriminate.
Defined.

(** X27 -- Ending a script recording leaves the descriptor registered.
    [script_record_close] on a recorded descriptor closes the log and
    frees the record, but does not take the descriptor out of the
    registry: it is still reported as recorded, with the address of the
    freed record.  When the same descriptor number is opened again on a
    configured device, [script_record_open] therefore aborts the process;
    and a later read, write or close on that number goes to the freed
    record. *)
Theorem script_record_close_keeps_entry (fd : Z) (w : world) (a : Z)
    (info : script_record_info) :
  fd_map_get (script_recorded_fds (lib w)) fd = (1, a) →
  srinfo_heap (lib w) !! a = Some info →
  ∃ w', script_record_close fd w = Ok w' ∧
        calls w' = calls w ++ [CallFclose (log info); CallFree a] ∧
        srinfo_heap (lib w') !! a = None ∧
        fd_map_get (script_recorded_fds (lib w')) fd = (1, a) ∧
        (∀ fuel depth L IO,
           script_dev_logfile_map_inited w ≠ 0 →
           fst (fd_map_get (script_dev_logfile_map w)
                  (to_int (fst (dev_of_fd L fd (lib w'))))) ≠ 0 →
           script_record_open fuel depth L IO fd w' = Some (Stop Aborted)) ∧
        (∀ L kind buf size,
           0 < size →
           script_record_op L kind fd buf size (lib w') = Stop Faulted) ∧
        script_record_close fd w' = Stop Faulted.
Proof.
  intros Hget Hinfo.
  assert (Hrun : script_record_close fd w
            = Ok (set_lib (set_srinfo_heap (delete a (srinfo_heap (lib w)))
                             (lib w))
                    (add_call (CallFree a)
                       (add_call (CallFclose (log info)) w)))).
  { unfold script_record_close. rewrite Hget. change (1 =? 0) with false.
    cbv iota. by rewrite Hinfo. }
  eexists. split; [exact Hrun|].
  cbn [lib set_lib calls add_call set_calls srinfo_heap set_srinfo_heap
       script_recorded_fds].
  split; [by rewrite <- app_assoc|].
  split; [by rewrite lookup_delete_eq|].
  split; [done|].
  split; [|split].
  - intros fuel depth L IO Hinit Hdev.
    unfold script_record_open.
    cbn [script_dev_logfile_map_inited set_lib add_call set_calls].
    apply Z.eqb_neq in Hinit. rewrite Hinit. unfold bbind. f_equal.
    rewrite rbind_Ok. cbn [lib set_lib].
    rewrite dev_of_fd_eq. cbn [script_dev_logfile_map set_lib add_call
                               set_calls].
    cbn [lib set_lib] in Hdev.
    destruct (fd_map_get (script_dev_logfile_map w) _) as [found lp].
    cbn [fst] in Hdev. apply Z.eqb_neq in Hdev. rewrite Hdev.
    cbn [script_recorded_fds set_srinfo_heap]. rewrite Hget. done.
  - intros L kind buf size Hsize. unfold script_record_op.
    cbn [script_recorded_fds set_srinfo_heap]. rewrite Hget.
    change (1 =? 0) with false. cbv iota.
    replace (size <=? 0) with false by (symmetry; apply Z.leb_gt; lia).
    unfold update_msec. cbn [srinfo_heap set_srinfo_heap].
    by rewrite lookup_delete_eq.
  - unfold script_record_close.
    cbn [lib set_lib script_recorded_fds set_srinfo_heap srinfo_heap].
    rewrite Hget. change (1 =? 0) with false. cbv iota.
    by rewrite lookup_delete_eq.
Qed.

(** Closing the recorded descriptor 9. *)
Lemma script_record_close_keeps_entry_witness :
  ∃ w', script_record_close 9 Runs.script_opened = Ok w' ∧
        calls w' = calls Runs.script_opened ++ [CallFclose 77; CallFree 8000] ∧
        srinfo_heap (lib w') !! 8000 = None ∧
        fd_map_get (script_recorded_fds (lib w')) 9 = (1, 8000) ∧
        script_record_open 0 1 Runs.script_recording (Runs.script_io []) 9 w'
        = Some (Stop Aborted).
Proof.
  destruct (script_record_close_keeps_entry 9 Runs.script_opened 8000
              (fresh_script_record_info 77 (Scenario.at_msec 0))
              eq_refl eq_refl)
    as (w' & Hrun & Hcalls & Hheap & Hreg & Hopen & _).
  exists w'. split; [exact Hrun|]. split; [exact Hcalls|].
  split; [exact Hheap|]. split; [exact Hreg|].
  apply Hopen.
  - vm_compute. discriminate.
  - vm_compute. discriminate.
Defined.

End ScriptOpen.

(** ** The reading and writing wrappers *)

Section ReadWrite.

Import FdMap CLib Preload PreloadIO TraceFormat Notions.
Local Open Scope string_scope.
Local Open Scope list_scope.
Local Open Scope Z_scope.









End ReadWrite.

(** ** Opening a path under /sys *)

Section OpenSys.

Import FdMap CLib Preload PreloadIO Notions.
Local Open Scope string_scope.
Local Open Scope list_scope.
Local Open Scope Z_scope.

(** X30 -- Opening what is not a device.  [open] of a NULL path returns
    -1 and calls nothing.  In a testbed that is not disabled, whose root
    is not empty, not under /dev or /sys, shorter together with the path
    than the static buffer of [trap_path] and short enough for
    <root>/disabled and its terminator to fit that buffer, [open] of /sys
    or a path below it calls the real [open] on the shadow <root><path>,
    whether or not it exists, and returns its result; the descriptor is
    not registered for ioctl emulation and the recorders are not
    consulted: apart from the static buffer of [trap_path], the errno of
    a failed call and the call itself, the library is as before. *)
Theorem open_sys_path (fuel depth : nat) (L : libc) (IO : libc_io)
    (flags mode : Z) (w : world) :
  open fuel (S depth) L IO PNull flags mode w = Some (Ok (-1, w)) ∧
  ∀ root path,
    getenv L "UMOCKDEV_DIR" = Some root →
    root ≠ "" →
    trapped_path root = false →
    starts_with path "/sys/" = true ∨ path = "/sys" →
    strlen root + strlen path < sizeof_buf →
    strlen root + 9 < sizeof_buf →
    file_exists L (root +:+ "/disabled") = false →
    let m := if negb (Z.land flags O_CREAT =? 0) then Some mode else None in
    open fuel (S (S depth)) L IO (PStr path) flags mode w
    = Some (Ok (ret_int (k_open IO (root +:+ path) flags m)
                  (add_call (CallOpen (root +:+ path) flags m)
                     (set_lib (set_trap_buf (root +:+ path) (lib w)) w)))).
Proof.
  split.
  - unfold open. cbn [trap_path trap_path_body is_null].
    by rewrite set_lib_same.
  - intros root path Henv Hne Hun Hsys Hlen Hroot Hdis m.
    assert (Hnodev : starts_with path "/dev/" || streq path "/dev" = false).
    { unfold starts_with, streq.
      destruct Hsys as [Hs | ->]; [|done].
      destruct path as [|c1 [|c2 [|c3 [|c4 [|c5 r]]]]];
        cbn [String.prefix String.eqb] in *; split_chars; done. }
    assert (Hnd : starts_with path "/dev/" = false)
      by (by apply orb_false_iff in Hnodev as [? _]).
    assert (Htrap : trap_path (S (S depth)) L (PStr path) (lib w)
                    = Ok (PBuf, set_trap_buf (root +:+ path) (lib w))).
    { rewrite (trap_path_sys depth L root path (lib w) Henv Hnodev Hsys Hlen
                 Hroot).
      - by rewrite Hdis.
      - by apply (outside_root root "disabled"). }
    unfold open. rewrite Htrap. cbn [is_null]. cbv iota.
    cbn [deref trap_buf set_trap_buf]. fold m.
    destruct (ret_int _ _) as [ret w1] eqn:Hret.
    cbn [ptr_eqb negb]. cbv iota.
    unfold ioctl_wrap_open. cbn [deref].
    rewrite Hnd. cbn [negb]. cbv iota. by rewrite rbind_Ok.
Qed.

(** [open("/sys/class", O_RDONLY)] in the testbed /tmp/tb, on a system
    whose [open] returns descriptor 7. *)
Lemma open_sys_path_witness :
  open 0 2 (Scenario.testbed "/tmp/tb" []) (Runs.opening 7)
    (PStr "/sys/class") 0 0 start
  = Some (Ok (7, add_call (CallOpen "/tmp/tb/sys/class" 0 None)
                   (set_lib (set_trap_buf "/tmp/tb/sys/class" initial)
                      start))).
Proof.
  apply (proj2 (open_sys_path 0 0 (Scenario.testbed "/tmp/tb" [])
                  (Runs.opening 7) 0 0 start)
               "/tmp/tb" "/sys/class" eq_refl ltac:(discriminate) eq_refl
               ltac:(by left) ltac:(by vm_compute) ltac:(by vm_compute)
               eq_refl).
Defined.

End OpenSys.

(** ** Whole sessions, evaluated *)

Section Sessions.

Import FdMap CLib Preload PreloadIO.
Local Open Scope string_scope.
Local Open Scope list_scope.
Local Open Scope Z_scope.

(** The state that the examples above start from is the one the library
    reaches: the first open of the recorded device, from the initial
    state, reads the configuration and starts the recording. *)
Example script_first_open :
  script_record_open 51 1 Runs.script_recording (Runs.script_io []) 9 start
  = Some (Ok Runs.script_opened).
Proof. vm_compute. reflexivity. Qed.

(** A recorded session: the device is opened, three bytes are read 5 ms
    later, the descriptor is closed.  The log holds one record; the
    descriptor is still registered after the close. *)
Example script_session :
  match open 51 1 Runs.script_recording (Runs.script_io [])
          (PStr "/dev/ttyUSB0") 2 0 start with
  | Some (Ok (fd, w1)) =>
      let* (n, buf, w2) :=
        read Runs.script_recording (Runs.script_io [79; 75; 13]) fd
          [0; 0; 0; 0] 4 w1 in
      let* (r, w3) := close Runs.script_recording (Runs.script_io []) fd w2 in
      Ok (fd, n, buf, written 77 (lib w3), calls w3,
          fst (fd_map_get (script_recorded_fds (lib w3)) fd))
  | _ => Stop Faulted
  end
  = Ok (9, 3, [79; 75; 13; 0], bytes_of_string "r 5 OK^M",
        [CallOpen "/dev/ttyUSB0" 2 None; CallFclose 77; CallFree 8000;
         CallClose 9],
        1).
Proof. vm_compute. reflexivity. Qed.

(** An emulated session in the serial testbed: the device is opened, the
    first recorded ioctl is replayed, the descriptor is closed. *)
Example emulated_session :
  let L := Scenario.with_ioctl_tree_execute
             (ReplayTree.execute Scenario.two_ioctls) Runs.serial_testbed in
  match open 51 2 L (Runs.opening 7) (PStr "/dev/ttyUSB0") 2 0 start with
  | Some (Ok (fd, w1)) =>
      let* (res, s2) := ioctl L fd 21761 42 (lib w1) in
      let* (r, w3) := close L (Runs.opening 7) fd (set_lib s2 w1) in
      Ok (fd, res, trace (lib w3), calls w3,
          fst (fd_map_get (ioctl_wrapped_fds (lib w3)) fd))
  | _ => Stop Faulted
  end
  = Ok (7, 1,
        [EvFopen "/tmp/tb/ioctl//dev/ttyUSB0" "r"; EvTreeRead 700],
        [CallOpen "/tmp/tb/dev/ttyUSB0" 2 None; CallFclose 700;
         CallTreeFree 3000; CallFree 8000; CallClose 7],
        0).
Proof. vm_compute. reflexivity. Qed.

End Sessions.
